(** * clawkit: the signing engine ([src/clawkit/sign_engine.py])

    A shallow embedding of the signing engine of clawkit and the properties
    its specification states about it.

    Conventions of the embedding:
    - a Python [int] is a [Z] (unbounded), bit operations are [Z.land],
      [Z.lor], [Z.lxor], [Z.shiftl], [Z.shiftr], [Z.lnot];
    - a Python [str] is the list of its code points ([pystr]), [ord] is the
      identity and [chr] checks the range of code points;
    - a Python [bytes] or list of ints is a [list Z];
    - a raised exception ([IndexError], [ZeroDivisionError], [ValueError],
      [UnicodeEncodeError]) and a loop that would not end are [None];
    - the clock and the random source are explicit arguments. *)

From Stdlib Require Import ZArith Ascii String List Lia Bool.
From stdpp Require Import base option list.
Import ListNotations.
Open Scope Z_scope.

(** ** Python values and builtins *)

(** A Python [str], as the list of its code points. *)
Abbreviation pystr := (list Z) (only parsing).

Infix ".&" := Z.land (at level 40, left associativity).
Infix ".^" := Z.lxor (at level 45, left associativity).
Infix ".|" := Z.lor (at level 50, left associativity).
Infix ".<<" := Z.shiftl (at level 32, left associativity).
Infix ".>>" := Z.shiftr (at level 32, left associativity).

(** A string literal of the source, as code points. *)
Fixpoint lit (s : string) : pystr :=
  match s with
  | EmptyString => []
  | String a r => Z.of_N (N_of_ascii a) :: lit r
  end.

(** [chr(c)]: [ValueError] outside [range(0x110000)]. *)
Definition chr (c : Z) : option Z :=
  if (0 <=? c) && (c <? 0x110000) then Some c else None.

(** [l[i]] for a Python list or str, negative indices counting from the end. *)
Definition py_index {A} (l : list A) (i : Z) : option A :=
  if 0 <=? i then l !! Z.to_nat i
  else if 0 <=? Z.of_nat (length l) + i then l !! Z.to_nat (Z.of_nat (length l) + i)
  else None.

(** [l[i:j]] for [0 <= i <= j]. *)
Definition slice {A} (l : list A) (i j : nat) : list A := take (j - i) (drop i l).

(** [range(start, stop, step)] for a positive [step]. *)
Definition range_step (start stop step : nat) : list nat :=
  map (fun k => (start + k * step)%nat) (seq 0 ((stop - start + (step - 1)) / step)%nat).

(** [for x in xs: st = f(st, x)] where [f] may raise. *)
Fixpoint foldM {S A} (f : S -> A -> option S) (st : S) (xs : list A) : option S :=
  match xs with
  | [] => Some st
  | x :: xs' => match f st x with Some st' => foldM f st' xs' | None => None end
  end.

(** [while cond(st): st = body(st)], cut after [fuel] tests of the condition. *)
Fixpoint while {S} (fuel : nat) (cond : S -> bool) (body : S -> S) (st : S) : option S :=
  match fuel with
  | O => None
  | S fuel' => if cond st then while fuel' cond body (body st) else Some st
  end.

(** ** SM3 *)

Definition _SM3_IV : list Z :=
  [1937774191; 1226093241; 388252375; 3666478592;
   2842636476; 372324522; 3817729613; 2969243214].

(** [_de]: rotate left on 32 bits. *)
Definition _de (e r : Z) : Z :=
  let r := r mod 32 in
  ((e .<< r) .& 0xFFFFFFFF) .| (e .>> (32 - r)).

Notation "l @ i" := (nth i%nat l 0) (at level 9, i at level 9, format "l @ i").

(** The message expansion of [_sm3_compress]: the list [w] of 132 words. *)
Definition sm3_expand (block : list Z) : list Z :=
  let w := replicate 132 0 in
  let w := foldl (fun w t =>
      <[t := ((block@(4*t) .<< 24) .| (block@(4*t+1) .<< 16) .|
              (block@(4*t+2) .<< 8) .| block@(4*t+3)) .& 0xFFFFFFFF]> w)
    w (seq 0 16) in
  let w := foldl (fun w t =>
      let a := w@(t-16) .^ w@(t-9) .^ _de w@(t-3) 15 in
      let a := a .^ _de a 15 .^ _de a 23 in
      <[t := (a .^ _de w@(t-13) 7 .^ w@(t-6)) .& 0xFFFFFFFF]> w)
    w (seq 16 52) in
  foldl (fun w t => <[t := (w@(t-68) .^ w@(t-64)) .& 0xFFFFFFFF]> w) w (seq 68 64).

(** One round [o] of the compression loop, on the register [v]. *)
Definition sm3_round (w : list Z) (v : list Z) (o : nat) : list Z :=
  let tj := if (o <? 16)%nat then 2043430169 else 2055708042 in
  let c := (_de v@0 12 + v@4 + _de tj (Z.of_nat o)) .& 0xFFFFFFFF in
  let c := _de c 7 in
  let s := (c .^ _de v@0 12) .& 0xFFFFFFFF in
  let ff := if (o <? 16)%nat
            then (v@0 .^ v@1 .^ v@2) .& 0xFFFFFFFF
            else (v@0 .& v@1 .| v@0 .& v@2 .| v@1 .& v@2) .& 0xFFFFFFFF in
  let gg := if (o <? 16)%nat
            then (v@4 .^ v@5 .^ v@6) .& 0xFFFFFFFF
            else (v@4 .& v@5 .| Z.lnot v@4 .& v@6) .& 0xFFFFFFFF in
  let u := (ff + v@3 + s + w@(o + 68)) .& 0xFFFFFFFF in
  let b := (gg + v@7 + c + w@o) .& 0xFFFFFFFF in
  let v := <[3%nat := v@2]> v in
  let v := <[2%nat := _de v@1 9]> v in
  let v := <[1%nat := v@0]> v in
  let v := <[0%nat := u]> v in
  let v := <[7%nat := v@6]> v in
  let v := <[6%nat := _de v@5 19]> v in
  let v := <[5%nat := v@4]> v in
  <[4%nat := (b .^ _de b 9 .^ _de b 17) .& 0xFFFFFFFF]> v.

(** [_sm3_compress]. The source reads [block[0..63]] and [reg[0..7]] and
    raises [IndexError] on a shorter list; the two tests below stand for
    that, and the reads after them are in range. *)
Definition _sm3_compress (reg block : list Z) : option (list Z) :=
  if (length block <? 64)%nat || (length reg <? 8)%nat then None
  else
    let w := sm3_expand block in
    let v := foldl (sm3_round w) reg (seq 0 64) in
    Some (map (fun i => (reg@i .^ v@i) .& 0xFFFFFFFF) (seq 0 8)).

(** [[b[i:i + 64] for i in range(0, len(b), 64)]] *)
Definition chunks64 (b : list Z) : list (list Z) :=
  map (fun i => slice b i (i + 64)) (range_step 0 (length b) 64).

(** The eight words of the register as 32 bytes, big-endian. *)
Definition reg_bytes (reg : list Z) : list Z :=
  flat_map (fun v => map (fun shift => (v .>> shift) .& 255) [24; 16; 8; 0]) reg.

(** [_sm3_hash] *)
Definition _sm3_hash (data : list Z) : option (list Z) :=
  let b := data in
  let size := Z.of_nat (length b) in
  let chunks := chunks64 b in
  let chunks := match chunks with [] => [[]] | _ => chunks end in
  let last := List.last chunks [] in
  reg ← foldM _sm3_compress _SM3_IV (removelast chunks);
  let last := last ++ [0x80] in
  last ← while 65 (fun l => negb (Z.of_nat (length l) mod 64 =? 56))
                  (fun l => l ++ [0]) last;
  let bit_len := 8 * size in
  let last := foldl (fun l i => l ++ [(bit_len .>> (8 * i)) .& 255]) last
                    [7; 6; 5; 4; 3; 2; 1; 0] in
  reg ← foldM (fun reg i => _sm3_compress reg (slice last i (i + 64))) reg
              (range_step 0 (length last) 64);
  Some (reg_bytes reg).

(** [str.encode()]: UTF-8, [UnicodeEncodeError] on a surrogate. *)
Definition utf8_char (c : Z) : option (list Z) :=
  if c <? 0 then None
  else if c <? 0x80 then Some [c]
  else if c <? 0x800 then Some [0xC0 .| (c .>> 6); 0x80 .| (c .& 0x3F)]
  else if (0xD800 <=? c) && (c <=? 0xDFFF) then None
  else if c <? 0x10000 then
    Some [0xE0 .| (c .>> 12); 0x80 .| ((c .>> 6) .& 0x3F); 0x80 .| (c .& 0x3F)]
  else if c <? 0x110000 then
    Some [0xF0 .| (c .>> 18); 0x80 .| ((c .>> 12) .& 0x3F);
          0x80 .| ((c .>> 6) .& 0x3F); 0x80 .| (c .& 0x3F)]
  else None.

Definition str_encode (s : pystr) : option (list Z) :=
  l ← mapM utf8_char s; Some (List.concat l).

(** [bytes(l)]: [ValueError] unless every element is in [range(256)]. *)
Definition bytes_of (l : list Z) : option (list Z) :=
  if forallb (fun x => (0 <=? x) && (x <? 256)) l then Some l else None.

(** [_sm3_double], called on a [str]. *)
Definition _sm3_double (data : pystr) : option (list Z) :=
  b ← str_encode data;
  first ← _sm3_hash b;
  b' ← bytes_of first;
  _sm3_hash b'.

(** The last loop of [_ABogus._sm3_sum]: the register written into the 32
    bytes [o]. *)
Definition sm3_sum_output (reg : list Z) : list Z :=
  foldl (fun o i =>
          let c := reg@i in
          let o := <[(4 * i + 3)%nat := 255 .& c]> o in
          let c := c .>> 8 in
          let o := <[(4 * i + 2)%nat := 255 .& c]> o in
          let c := c .>> 8 in
          let o := <[(4 * i + 1)%nat := 255 .& c]> o in
          let c := c .>> 8 in
          <[(4 * i)%nat := 255 .& c]> o)
        (replicate 32 0) (seq 0 8).

(** [_ABogus._sm3_sum], called on a [str]: [b = [ord(c) for c in data]]. *)
Definition _sm3_sum (data : pystr) : option (list Z) :=
  let reg := _SM3_IV in
  let b := data in
  let size := Z.of_nat (length b) in
  let chunks := chunks64 b in
  let chunks := match chunks with [] => [[]] | _ => chunks end in
  let last := List.last chunks [] in
  reg ← foldM _sm3_compress reg (removelast chunks);
  let last := last ++ [128] in
  last ← while 61 (fun l => (length l <? 60)%nat) (fun l => l ++ [0]) last;
  let bit_len := 8 * size in
  let last := foldl (fun l i => l ++ [(bit_len .>> (8 * (3 - i))) .& 255]) last
                    [0; 1; 2; 3] in
  reg ← _sm3_compress reg last;
  Some (sm3_sum_output reg).

(** ** The stream cipher *)

(** [s[i], s[j] = s[j], s[i]] *)
Definition swap (s : list Z) (i j : Z) : option (list Z) :=
  sj ← py_index s j;
  si ← py_index s i;
  Some (<[Z.to_nat j := si]> (<[Z.to_nat i := sj]> s)).

(** The first loop of [_rc4]: the key schedule. [i % len(key)] raises
    [ZeroDivisionError] on an empty key. *)
Definition rc4_ksa_step (key : pystr) (st : list Z * Z) (i : Z) : option (list Z * Z) :=
  let '(s, j) := st in
  si ← py_index s i;
  k ← (if (length key =? 0)%nat then None
       else py_index key (i mod Z.of_nat (length key)));
  let j := (j + si + k) mod 256 in
  s ← swap s i j;
  Some (s, j).

Definition rc4_ksa (key : pystr) : option (list Z) :=
  fst <$> foldM (rc4_ksa_step key) (seqZ 0 256, 0) (seqZ 0 256).

(** One turn of the second loop: the new [(i, j, s)] and the output character. *)
Definition rc4_step (st : Z * Z * list Z) (p : Z) : option (Z * Z * list Z * Z) :=
  let '(i, j, s) := st in
  let i := (i + 1) mod 256 in
  si ← py_index s i;
  let j := (j + si) mod 256 in
  s ← swap s i j;
  si ← py_index s i;
  sj ← py_index s j;
  k ← py_index s ((si + sj) mod 256);
  c ← chr (k .^ p);
  Some (i, j, s, c).

Fixpoint rc4_prga (st : Z * Z * list Z) (plaintext : pystr) : option pystr :=
  match plaintext with
  | [] => Some []
  | p :: rest =>
      '(st', c) ← rc4_step st p;
      cipher ← rc4_prga st' rest;
      Some (c :: cipher)
  end.

(** [_rc4] *)
Definition _rc4 (plaintext key : pystr) : option pystr :=
  s ← rc4_ksa key;
  rc4_prga (0, 0, s) plaintext.

(** ** The custom base64 of Protocol A *)

Definition _ABOGUS_STR : list (string * pystr) :=
  [("s0", lit "ABCDEFGHIJKLMNOPQRSTUVWXYZabcdefghijklmnopqrstuvwxyz0123456789+/=");
   ("s1", lit "Dkdpgh4ZKsQB80/Mfvw36XI1R25+WUAlEi7NLboqYTOPuzmFjJnryx9HVGcaStCe=");
   ("s2", lit "Dkdpgh4ZKsQB80/Mfvw36XI1R25-WUAlEi7NLboqYTOPuzmFjJnryx9HVGcaStCe=");
   ("s3", lit "ckdp1h4ZKsUB80/Mfvw36XIgR25+WQAlEi7NLboqYTOPuzmFjJnryx9HVGDaStCe");
   ("s4", lit "Dkdpgh2ZmsQB80/MfvV36XI1R45-WUAlEixNLwoqYTOPuzKFjJnry79HbGcaStCe")]%string.

(** [d[key]] for a dict with [str] keys: [KeyError] is [None]. *)
Fixpoint dict_get {A} (d : list (string * A)) (key : string) : option A :=
  match d with
  | [] => None
  | (k, v) :: d' => if String.eqb k key then Some v else dict_get d' key
  end.

(** The inner loop of [_custom_b64] over [(j, k)], with its two [break]s. *)
Fixpoint b64_inner (table : pystr) (n : Z) (i len : nat) (jk : list (Z * Z)) (r : pystr)
  : option pystr :=
  match jk with
  | [] => Some r
  | (j, k) :: jk' =>
      if (j =? 6) && (len <=? i + 1)%nat then Some r
      else if (j =? 0) && (len <=? i + 2)%nat then Some r
      else
        c ← py_index table ((n .& k) .>> j);
        b64_inner table n i len jk' (r ++ [c])
  end.

Definition b64_outer (table s : pystr) (r : pystr) (i : nat) : option pystr :=
  n ← (if (i + 2 <? length s)%nat then
         a ← s !! i; b ← s !! (i + 1)%nat; c ← s !! (i + 2)%nat;
         Some ((a .<< 16) .| (b .<< 8) .| c)
       else if (i + 1 <? length s)%nat then
         a ← s !! i; b ← s !! (i + 1)%nat;
         Some ((a .<< 16) .| (b .<< 8))
       else
         a ← s !! i; Some (a .<< 16));
  b64_inner table n i (length s)
    [(18, 0xFC0000); (12, 0x03F000); (6, 0x0FC0); (0, 0x3F)] r.

(** [_custom_b64] *)
Definition _custom_b64 (s : pystr) (table_key : string) : option pystr :=
  table ← dict_get _ABOGUS_STR table_key;
  r ← foldM (b64_outer table s) [] (range_step 0 (length s) 3);
  Some (r ++ replicate ((4 - length r mod 4) mod 4) 61).

(** ** Protocol A: ABogus *)

Definition _DEFAULT_UA : pystr :=
  lit "Mozilla/5.0 (Windows NT 10.0; Win64; x64) AppleWebKit/537.36 (KHTML, like Gecko) Chrome/131.0.0.0 Safari/537.36".
Definition _DEFAULT_BROWSER : pystr :=
  lit "1536|742|1536|864|0|0|0|0|1536|864|1536|864|1536|742|24|24|Win32".

(** The random source: [rnd k] is the raw outcome of the [k]-th draw, which
    each primitive reduces to its own range. *)
Definition rng := nat -> Z.

(** [randint(a, b)] on draw [k]. *)
Definition randint (rnd : rng) (k : nat) (a b : Z) : Z := a + rnd k mod (b - a + 1).

(** [int(random.random() * 10000)] on draw [k]: an integer of [0..10000]. *)
Definition random_10000 (rnd : rng) (k : nat) : Z := rnd k mod 10001.

(** [_random_list] with [a=None]; [r] stands for [int(r)], the only use of
    the float [r]. *)
Definition _random_list (r : Z) (b c d e f g : Z) : list Z :=
  let v1 := r .& 255 in
  let v2 := r .>> 8 in
  [v1 .& b .| d; v1 .& c .| e; v2 .& b .| f; v2 .& c .| g].

(** [_gen_string_1], drawing from [k] on. *)
Definition _gen_string_1 (rnd : rng) (k : nat) : option pystr :=
  let s1 := _random_list (random_10000 rnd k) 170 85 1 2 5 (45 .& 170) in
  let s2 := _random_list (random_10000 rnd (k + 1)) 170 85 1 0 0 0 in
  let s3 := _random_list (random_10000 rnd (k + 2)) 170 85 1 0 5 0 in
  mapM chr (s1 ++ s2 ++ s3).

Record ABogus := {
  browser : pystr;
  browser_len : Z;
  browser_code : list Z;
  ua_code : list Z
}.

(** [_ABogus.__init__] *)
Definition ABogus_init (user_agent : pystr) : option ABogus :=
  ua_rc4 ← _rc4 user_agent [0; 1; 14];
  ua_b64 ← _custom_b64 ua_rc4 "s3";
  ua ← _sm3_sum ua_b64;
  Some {| browser := _DEFAULT_BROWSER;
          browser_len := Z.of_nat (length _DEFAULT_BROWSER);
          browser_code := _DEFAULT_BROWSER;
          ua_code := ua |}.

(** [int(x / 256 / 256 / 256 / 256) >> 0]. The division is on floats and
    exact for [|x| < 2^53], where the result is the quotient truncated
    towards zero. Beyond, the float result is at least [2^21] in absolute
    value, as is this quotient, and [chr] raises on both. *)
Definition int_div_256_4 (x : Z) : Z := Z.quot x 4294967296 .>> 0.

(** [_ABogus.sign]: [start_time] is the clock reading
    [int(time.time() * 1000)]; draw 0 is the jitter, draws 1 to 3 feed
    [_gen_string_1]. *)
Definition ABogus_sign (self : ABogus) (start_time : Z) (rnd : rng)
    (params method : pystr) : option pystr :=
  let end_time := start_time + randint rnd 0 4 8 in
  params_code ← _sm3_double (params ++ lit "cus");
  method_code ← _sm3_double (method ++ lit "cus");
  p21 ← py_index params_code 21; m21 ← py_index method_code 21;
  u23 ← py_index (ua_code self) 23;
  p22 ← py_index params_code 22; m22 ← py_index method_code 22;
  u24 ← py_index (ua_code self) 24;
  let a :=
    [44; (end_time .>> 24) .& 255; 0; 0; 0; 0;
     24; p21; m21; 0;
     u23; (end_time .>> 16) .& 255; 0; 0; 0; 1;
     0; 239; p22; m22;
     u24; (end_time .>> 8) .& 255; 0; 0; 0; 0;
     (end_time .>> 0) .& 255; 0; 0; 14;
     (start_time .>> 24) .& 255; (start_time .>> 16) .& 255;
     0; (start_time .>> 8) .& 255; (start_time .>> 0) .& 255;
     3; int_div_256_4 end_time; 1;
     int_div_256_4 start_time; 1;
     browser_len self; 0; 0; 0] in
  let check := foldl Z.lxor 0 a in
  let a := a ++ browser_code self ++ [check] in
  text ← mapM chr a;
  string_2 ← _rc4 text (lit "y");
  string_1 ← _gen_string_1 rnd 1;
  _custom_b64 (string_1 ++ string_2) "s4".

(** [sign_douyin] *)
Definition sign_douyin (start_time : Z) (rnd : rng)
    (params user_agent method : pystr) : option pystr :=
  ab ← ABogus_init user_agent;
  ABogus_sign ab start_time rnd params method.


(** ** Protocol B: the encoders *)

Definition _XHS_B64_TABLE : pystr :=
  lit "ZmserbBoHQtNP+wOcza/LpngG8yJq42KWYj0DSfdikx3VT16IlUAFM97hECvuRX5".

Definition _MRC_TABLE : list Z :=
  [
   0; 1996959894; 3993919788; 2567524794; 124634137; 1886057615;
   3915621685; 2657392035; 249268274; 2044508324; 3772115230; 2547177864;
   162941995; 2125561021; 3887607047; 2428444049; 498536548; 1789927666;
   4089016648; 2227061214; 450548861; 1843258603; 4107580753; 2211677639;
   325883990; 1684777152; 4251122042; 2321926636; 335633487; 1661365465;
   4195302755; 2366115317; 997073096; 1281953886; 3579855332; 2724688242;
   1006888145; 1258607687; 3524101629; 2768942443; 901097722; 1119000684;
   3686517206; 2898065728; 853044451; 1172266101; 3705015759; 2882616665;
   651767980; 1373503546; 3369554304; 3218104598; 565507253; 1454621731;
   3485111705; 3099436303; 671266974; 1594198024; 3322730930; 2970347812;
   795835527; 1483230225; 3244367275; 3060149565; 1994146192; 31158534;
   2563907772; 4023717930; 1907459465; 112637215; 2680153253; 3904427059;
   2013776290; 251722036; 2517215374; 3775830040; 2137656763; 141376813;
   2439277719; 3865271297; 1802195444; 476864866; 2238001368; 4066508878;
   1812370925; 453092731; 2181625025; 4111451223; 1706088902; 314042704;
   2344532202; 4240017532; 1658658271; 366619977; 2362670323; 4224994405;
   1303535960; 984961486; 2747007092; 3569037538; 1256170817; 1037604311;
   2765210733; 3554079995; 1131014506; 879679996; 2909243462; 3663771856;
   1141124467; 855842277; 2852801631; 3708648649; 1342533948; 654459306;
   3188396048; 3373015174; 1466479909; 544179635; 3110523913; 3462522015;
   1591671054; 702138776; 2966460450; 3352799412; 1504918807; 783551873;
   3082640443; 3233442989; 3988292384; 2596254646; 62317068; 1957810842;
   3939845945; 2647816111; 81470997; 1943803523; 3814918930; 2489596804;
   225274430; 2053790376; 3826175755; 2466906013; 167816743; 2097651377;
   4027552580; 2265490386; 503444072; 1762050814; 4150417245; 2154129355;
   426522225; 1852507879; 4275313526; 2312317920; 282753626; 1742555852;
   4189708143; 2394877945; 397917763; 1622183637; 3604390888; 2714866558;
   953729732; 1340076626; 3518719985; 2797360999; 1068828381; 1219638859;
   3624741850; 2936675148; 906185462; 1090812512; 3747672003; 2825379669;
   829329135; 1181335161; 3412177804; 3160834842; 628085408; 1382605366;
   3423369109; 3138078467; 570562233; 1426400815; 3317316542; 2998733608;
   733239954; 1555261956; 3268935591; 3050360625; 752459403; 1541320221;
   2607071920; 3965973030; 1969922972; 40735498; 2617837225; 3943577151;
   1913087877; 83908371; 2512341634; 3803740692; 2075208622; 213261112;
   2463272603; 3855990285; 2094854071; 198958881; 2262029012; 4057260610;
   1759359992; 534414190; 2176718541; 4139329115; 1873836001; 414664567;
   2282248934; 4279200368; 1711684554; 285281116; 2405801727; 4167216745;
   1634467795; 376229701; 2685067896; 3608007406; 1308918612; 956543938;
   2808555105; 3495958263; 1231636301; 1047427035; 2932959818; 3654703836;
   1088359270; 936918000; 2847714899; 3736837829; 1202900863; 817233897;
   3183342108; 3401237130; 1404277552; 615818150; 3134207493; 3453421203;
   1423857449; 601450431; 3009837614; 3294710456; 1567103746; 711928724;
   3020668471; 3272380065; 1510334235; 755167117
  ].

(** [_rws], the helper of [_mrc]: [ctypes.c_uint32(num).value] is
    [num mod 2^32]. *)
Definition _rws (num bit : Z) : Z :=
  let val := (num mod 4294967296) .>> bit in
  let M := 4294967295 in
  (val + (M + 1)) mod (2 * (M + 1)) - M - 1.

(** The accumulation loop of [_mrc]. *)
Definition mrc_step (e : pystr) (o : Z) (n : Z) : option Z :=
  c ← py_index e n;
  t ← py_index _MRC_TABLE ((o .& 255) .^ c);
  Some (t .^ _rws o 8).

Definition mrc_acc (e : pystr) : option Z :=
  foldM (mrc_step e) (-1) (seqZ 0 57).

(** [_mrc] *)
Definition _mrc (e : pystr) : option Z :=
  o ← mrc_acc e;
  Some (o .^ (-1) .^ 3988292384).

Definition xhs_h_d : pystr :=
  lit "A4NjFqYu5wPHsO0XTdDgMa2r1ZQocVte9UJBvk6/7=yRnhISGKblCWi+LpfE8xzm3".

(** The four characters [_xhs_h] emits for one group [o], [g], [h]. *)
Definition xhs_h_quad (o g h : Z) : option pystr :=
  let d := xhs_h_d in
  let x := ((o .& 3) .<< 4) .| (g .>> 4) in
  let p := ((15 .& g) .<< 2) .| (h .>> 6) in
  let v := o .>> 2 in
  let b := if h =? 0 then 64 else h .& 63 in
  let '(p, b) := if g =? 0 then (64, 64) else (p, b) in
  dv ← py_index d v; dx ← py_index d x; dp ← py_index d p; db ← py_index d b;
  Some [dv; dx; dp; db].

(** The body of the loop of [_xhs_h] at index [i]. *)
Definition xhs_h_step (n : pystr) (m : pystr) (i : Z) : option pystr :=
  o ← py_index n i;
  g ← (if i + 1 <? 32 then py_index n (i + 1) else Some 0);
  h ← (if i + 2 <? 32 then py_index n (i + 2) else Some 0);
  q ← xhs_h_quad o g h;
  Some (m ++ q).

(** [_xhs_h] *)
Definition _xhs_h (n : pystr) : option pystr :=
  foldM (xhs_h_step n) [] (map Z.of_nat (range_step 0 32 3)).

(** [triplet], the helper of [_xhs_b64_encode]. *)
Definition triplet (lookup : pystr) (e : Z) : option pystr :=
  a ← py_index lookup (63 .& (e .>> 18));
  b ← py_index lookup (63 .& (e .>> 12));
  c ← py_index lookup ((e .>> 6) .& 63);
  d ← py_index lookup (e .& 63);
  Some [a; b; c; d].

Definition xhs_b64_step (lookup : pystr) (e : list Z) (parts : pystr) (H : nat)
  : option pystr :=
  e0 ← e !! H; e1 ← e !! (H + 1)%nat; e2 ← e !! (H + 2)%nat;
  let n := (16711680 .& (e0 .<< 16)) + ((e1 .<< 8) .& 65280) + (e2 .& 255) in
  t ← triplet lookup n;
  Some (parts ++ t).

(** [_xhs_b64_encode]; [parts] is kept joined. *)
Definition _xhs_b64_encode (e : list Z) : option pystr :=
  let lookup := _XHS_B64_TABLE in
  let P := length e in
  let W := (P mod 3)%nat in
  parts ← foldM (xhs_b64_step lookup e) [] (range_step 0 (P - W) 3);
  if (W =? 1)%nat then
    F ← e !! (P - 1)%nat;
    a ← py_index lookup (F .>> 2);
    b ← py_index lookup ((F .<< 4) .& 63);
    Some (parts ++ [a; b; 61; 61])
  else if (W =? 2)%nat then
    f1 ← e !! (P - 2)%nat; f2 ← e !! (P - 1)%nat;
    let F := (f1 .<< 8) + f2 in
    a ← py_index lookup (F .>> 10);
    b ← py_index lookup (63 .& (F .>> 4));
    c ← py_index lookup ((F .<< 2) .& 63);
    Some (parts ++ [a; b; c; 61])
  else Some parts.

(** [urllib.parse.quote(e, safe=...)] on a [str]: every byte of the UTF-8
    encoding that is a letter, a digit, one of [_.-~] or in [safe] stays,
    any other becomes [%XX] in upper-case hexadecimal. *)
Definition always_safe : pystr :=
  lit "ABCDEFGHIJKLMNOPQRSTUVWXYZabcdefghijklmnopqrstuvwxyz0123456789_.-~".
Definition hex_upper : pystr := lit "0123456789ABCDEF".
Definition hex_lower : pystr := lit "0123456789abcdef".

Definition quote_byte (safe : pystr) (b : Z) : pystr :=
  if existsb (Z.eqb b) (always_safe ++ safe) then [b]
  else [37; hex_upper@(Z.to_nat (b / 16)); hex_upper@(Z.to_nat (b mod 16))].

Definition quote (e safe : pystr) : option pystr :=
  bs ← str_encode e;
  Some (flat_map (quote_byte safe) bs).

(** The value of a hexadecimal digit, as [int(c, 16)] reads it. *)
Definition hex_val (c : Z) : option Z :=
  if (48 <=? c) && (c <=? 57) then Some (c - 48)
  else if (97 <=? c) && (c <=? 102) then Some (c - 87)
  else if (65 <=? c) && (c <=? 70) then Some (c - 55)
  else None.

(** The loop of [_encode_utf8] over the quoted text [m]. *)
Fixpoint percent_walk (m : pystr) : option (list Z) :=
  match m with
  | [] => Some []
  | c :: rest =>
      if c =? 37 then
        match rest with
        | h1 :: h2 :: rest' =>
            v1 ← hex_val h1; v2 ← hex_val h2;
            b ← percent_walk rest';
            Some (16 * v1 + v2 :: b)
        | _ => None
        end
      else
        b ← percent_walk rest;
        Some (c :: b)
  end.

(** [_encode_utf8] *)
Definition _encode_utf8 (e : pystr) : option (list Z) :=
  m ← quote e (lit "~()*!.'");
  percent_walk m.

(** ** Python [str(int)], [hex(int)] and the base-36 loop *)

(** [while num: num, i = divmod(num, base); result = alphabet[i] + result],
    cut after [fuel] tests of [num]. *)
Fixpoint base_loop (fuel : nat) (alphabet : pystr) (base : Z) (num : Z) (result : pystr)
  : option pystr :=
  match fuel with
  | O => None
  | S fuel' =>
      if num =? 0 then Some result
      else
        c ← py_index alphabet (num mod base);
        base_loop fuel' alphabet base (num / base) (c :: result)
  end.

(** Enough turns for the loop on a positive [num]. A negative [num] never
    reaches 0 ([-1 // base = -1]), which no amount of fuel changes. *)
Definition base_fuel (num : Z) : nat := Z.to_nat (Z.log2 num) + 2.

Definition to_base (alphabet : pystr) (base : Z) (num : Z) : option pystr :=
  if num =? 0 then Some (lit "0")
  else base_loop (base_fuel num) alphabet base num [].

(** [str(n)] for an [int]. *)
Definition py_str (n : Z) : pystr :=
  if n <? 0 then 45 :: default [] (to_base (lit "0123456789") 10 (- n))
  else default [] (to_base (lit "0123456789") 10 n).

(** [hex(n)] for an [int]. *)
Definition py_hex (n : Z) : pystr :=
  if n <? 0 then lit "-0x" ++ default [] (to_base hex_lower 16 (- n))
  else lit "0x" ++ default [] (to_base hex_lower 16 n).

(** ** JSON, as [json.dumps] writes the flat dicts of the engine *)

Inductive jvalue :=
  | JInt (n : Z)
  | JStr (s : pystr).

Definition jdict := list (pystr * jvalue).

(** [\uXXXX] *)
Definition json_u (n : Z) : pystr :=
  [92; 117; hex_lower@(Z.to_nat ((n .>> 12) .& 15)); hex_lower@(Z.to_nat ((n .>> 8) .& 15));
   hex_lower@(Z.to_nat ((n .>> 4) .& 15)); hex_lower@(Z.to_nat (n .& 15))].

(** The escape of one character inside a JSON string. *)
Definition json_escape_char (ensure_ascii : bool) (c : Z) : pystr :=
  if c =? 34 then [92; 34]
  else if c =? 92 then [92; 92]
  else if c =? 10 then [92; 110]
  else if c =? 13 then [92; 114]
  else if c =? 9 then [92; 116]
  else if c =? 8 then [92; 98]
  else if c =? 12 then [92; 102]
  else if c <? 32 then json_u c
  else if negb ensure_ascii || (c <=? 126) then [c]
  else if c <? 0x10000 then json_u c
  else
    let n := c - 0x10000 in
    json_u (0xd800 .| ((n .>> 10) .& 0x3ff)) ++ json_u (0xdc00 .| (n .& 0x3ff)).

Definition json_string (ensure_ascii : bool) (s : pystr) : pystr :=
  [34] ++ flat_map (json_escape_char ensure_ascii) s ++ [34].

Definition json_value (ensure_ascii : bool) (v : jvalue) : pystr :=
  match v with
  | JInt n => py_str n
  | JStr s => json_string ensure_ascii s
  end.

Definition json_member (ensure_ascii : bool) (kv : pystr * jvalue) : pystr :=
  json_string ensure_ascii (fst kv) ++ [58] ++ json_value ensure_ascii (snd kv).

(** [",".join(parts)] *)
Fixpoint join_comma (parts : list pystr) : pystr :=
  match parts with
  | [] => []
  | [p] => p
  | p :: rest => p ++ [44] ++ join_comma rest
  end.

(** [json.dumps(d, separators=(',', ':'), ensure_ascii=...)] *)
Definition json_dumps (ensure_ascii : bool) (d : jdict) : pystr :=
  [123] ++ join_comma (map (json_member ensure_ascii) d) ++ [125].

(** ** Protocol B: the signer and the identity generators

    [hashlib.md5(...).hexdigest()] and [binascii.crc32] are library
    functions: the engine takes them as the parameters [md5_hex] and
    [crc32]. *)

Definition alnum : pystr :=
  lit "abcdefghijklmnopqrstuvwxyzABCDEFGHIJKLMNOPQRSTUVWXYZ0123456789".

(** [random.choice(seq)] on draw [k]. *)
Definition choice (rnd : rng) (k : nat) (seq : pystr) : Z :=
  seq@(Z.to_nat (rnd k mod Z.of_nat (length seq))).

(** [rand_str(n)], the helper of [get_xhs_cookies], drawing from [k] on. *)
Definition rand_str (rnd : rng) (k n : nat) : pystr :=
  map (fun i => choice rnd (k + i) alnum) (seq 0 n).

(** [get_xhs_cookies]: [now_ms] is the clock reading
    [int(time.time() * 1000)]. *)
Definition get_xhs_cookies (md5_hex : list Z -> pystr) (crc32 : list Z -> Z)
    (now_ms : Z) (rnd : rng) : option (pystr * pystr) :=
  let d := drop 2 (py_hex now_ms) ++ rand_str rnd 0 30 ++ lit "50000" in
  db ← str_encode d;
  let g := take 52 (d ++ py_str (crc32 db)) in
  gb ← str_encode g;
  Some (g, md5_hex gb).

(** [sign_xiaohongshu]: the result dict, in the order of its keys. *)
Definition sign_xiaohongshu (md5_hex : list Z -> pystr) (now_ms : Z)
    (uri : pystr) (data : option jdict) (a1 b1 : pystr)
  : option (list (string * pystr)) :=
  let v := now_ms in
  let body := match data with Some d => json_dumps false d | None => [] end in
  let raw := py_str v ++ lit "test" ++ uri ++ body in
  rawb ← str_encode raw;
  let md5 := md5_hex rawb in
  x_s ← _xhs_h md5;
  let x_t := py_str v in
  x9 ← _mrc (x_t ++ x_s);
  let common : jdict :=
    [(lit "s0", JInt 5); (lit "s1", JStr []); (lit "x0", JStr (lit "1"));
     (lit "x1", JStr (lit "3.2.0")); (lit "x2", JStr (lit "Windows"));
     (lit "x3", JStr (lit "xhs-pc-web")); (lit "x4", JStr (lit "2.3.1"));
     (lit "x5", JStr a1); (lit "x6", JStr x_t);
     (lit "x7", JStr x_s); (lit "x8", JStr b1); (lit "x9", JInt x9);
     (lit "x10", JInt 1)] in
  encoded ← _encode_utf8 (json_dumps true common);
  x_s_common ← _xhs_b64_encode encoded;
  Some [("x-s", x_s); ("x-t", x_t); ("x-s-common", x_s_common)]%string.

(** [int(random.uniform(0, 2147483646))] on draw [k]: an integer of
    [0..2147483646]. *)
Definition uniform_int (rnd : rng) (k : nat) : Z := rnd k mod 2147483647.

(** [get_xhs_search_id] *)
Definition get_xhs_search_id (now_ms : Z) (rnd : rng) : option pystr :=
  let e := now_ms .<< 64 in
  let t := uniform_int rnd 0 in
  let num := e + t in
  let alphabet := lit "0123456789ABCDEFGHIJKLMNOPQRSTUVWXYZ" in
  if num =? 0 then Some (lit "0")
  else base_loop (base_fuel num) alphabet 36 num [].

(** ** Well-formed values and lower-case hexadecimal text *)

(** Every character of a Python [str] is a code point. *)
Definition wf_str (s : pystr) : Prop := Forall (fun c => 0 <= c < 0x110000) s.

(** The elements of a [bytes]. *)
Definition is_bytes (l : list Z) : Prop := Forall (fun b => 0 <= b < 256) l.

(** [bytes.hex()] *)
Definition hexlify (bs : list Z) : pystr :=
  flat_map (fun b => [hex_lower@(Z.to_nat (b / 16)); hex_lower@(Z.to_nat (b mod 16))]) bs.

(** A character of [0-9a-f]. *)
Definition is_hex_char (c : Z) : Prop := 48 <= c <= 57 \/ 97 <= c <= 102.

Definition hex_chars : list Z := lit "0123456789abcdef".

(** What the specification asks of the cipher on a text with a character
    outside 0..255: to raise, or to answer from normalized byte values. *)
Definition rejects_or_normalizes (P K : pystr) : Prop :=
  _rc4 P K = None \/ exists C, _rc4 P K = Some C /\ is_bytes C.

(** The standard CRC-32 table entry of index [i]: eight steps of the
    reflected polynomial [0xEDB88320]. *)
Definition crc32_table_entry (i : Z) : Z :=
  foldl (fun c _ => if Z.odd c then (c .>> 1) .^ 0xEDB88320 else c .>> 1) i (seq 0 8).

(** [alphabet.index(c)] *)
Fixpoint index_of (alphabet : pystr) (c : Z) : option Z :=
  match alphabet with
  | [] => None
  | a :: rest => if a =? c then Some 0 else Z.succ <$> index_of rest c
  end.

(** Reading a text of digits of [alphabet] in base [base], from [acc] on. *)
Definition digits_value (alphabet : pystr) (base : Z) (acc : Z) (s : pystr) : option Z :=
  foldM (fun a c => d ← index_of alphabet c; Some (a * base + d)) acc s.

(** [int(s, base)] for a text of digits of [alphabet]: the decoding of an
    identifier rendered by [base_loop]. *)
Definition from_base (alphabet : pystr) (base : Z) (s : pystr) : option Z :=
  match s with
  | [] => None
  | _ => digits_value alphabet base 0 s
  end.

Definition base36 : pystr := lit "0123456789ABCDEFGHIJKLMNOPQRSTUVWXYZ".
Definition base10 : pystr := lit "0123456789".

(** ** The padding scheme of SM3, in the words of the specification

    Append one [0x80] byte, then zero bytes until the length is congruent to
    56 modulo 64, then the bit length on 8 bytes, big-endian; compress the
    64-byte blocks of the result in order and serialize the register. *)

Definition be64 (n : Z) : list Z :=
  map (fun i => (n .>> (8 * i)) .& 255) [7; 6; 5; 4; 3; 2; 1; 0].

Definition sm3_pad_spec (msg : list Z) : list Z :=
  msg ++ [0x80]
      ++ replicate (Z.to_nat ((55 - Z.of_nat (length msg)) mod 64)) 0
      ++ be64 (8 * Z.of_nat (length msg)).

Definition sm3_spec (msg : list Z) : option (list Z) :=
  reg_bytes <$> foldM _sm3_compress _SM3_IV (chunks64 (sm3_pad_spec msg)).

(** A text that UTF-8 can encode: code points, none of them a surrogate. *)
Definition encodable (s : pystr) : Prop :=
  Forall (fun c => 0 <= c < 0xD800 \/ 0xDFFF < c < 0x110000) s.

(** The number of characters [_custom_b64] emits for the group at index
    [i] of a text of [len] characters. *)
Definition b64_count (len i : nat) : nat :=
  if (i + 2 <? len)%nat then 4 else if (i + 1 <? len)%nat then 3 else 2.

(** ** Reading [x-s-common] back

    The decoders below undo, step by step, what [sign_xiaohongshu] does to
    the record [common]: the custom base64, then [json.loads] on the flat
    compact objects the engine writes. *)

(** The inverse of [_xhs_b64_encode]: groups of four characters of the
    table, the last one padded with one or two ['=']. *)
Fixpoint xhs_b64_decode (s : pystr) : option (list Z) :=
  match s with
  | [] => Some []
  | c1 :: c2 :: c3 :: c4 :: rest =>
      i1 ← index_of _XHS_B64_TABLE c1;
      i2 ← index_of _XHS_B64_TABLE c2;
      if c3 =? 61 then
        match rest with
        | [] => if c4 =? 61 then Some [i1 * 4 + i2 / 16] else None
        | _ => None
        end
      else
        i3 ← index_of _XHS_B64_TABLE c3;
        if c4 =? 61 then
          match rest with
          | [] => Some [i1 * 4 + i2 / 16; i2 mod 16 * 16 + i3 / 4]
          | _ => None
          end
        else
          i4 ← index_of _XHS_B64_TABLE c4;
          r ← xhs_b64_decode rest;
          Some (i1 * 4 + i2 / 16 :: i2 mod 16 * 16 + i3 / 4 :: i3 mod 4 * 64 + i4 :: r)
  | _ => None
  end.

(** A character that JSON writes as it is inside a string: printable ASCII
    other than the quote and the backslash. *)
Definition plain_char (c : Z) : Prop := 32 <= c <= 126 /\ c <> 34 /\ c <> 92.
Definition plain (s : pystr) : Prop := Forall plain_char s.

(** The characters of a JSON string up to its closing quote, and what
    follows it. An escape is not read. *)
Fixpoint read_string (s : pystr) : option (pystr * pystr) :=
  match s with
  | [] => None
  | c :: rest =>
      if c =? 34 then Some ([], rest)
      else if c =? 92 then None
      else '(str, rest') ← read_string rest; Some (c :: str, rest')
  end.

(** The longest prefix of decimal digits, and what follows it. *)
Fixpoint read_digits (s : pystr) : pystr * pystr :=
  match s with
  | c :: rest =>
      if (48 <=? c) && (c <=? 57)
      then let '(ds, rest') := read_digits rest in (c :: ds, rest')
      else ([], s)
  | [] => ([], [])
  end.

Definition read_int (s : pystr) : option (Z * pystr) :=
  match s with
  | [] => None
  | c :: s' =>
      if c =? 45 then
        let '(ds, rest) := read_digits s' in
        n ← from_base base10 10 ds; Some (- n, rest)
      else
        let '(ds, rest) := read_digits s in
        n ← from_base base10 10 ds; Some (n, rest)
  end.

Definition read_value (s : pystr) : option (jvalue * pystr) :=
  match s with
  | [] => None
  | c :: s' =>
      if c =? 34 then '(str, rest) ← read_string s'; Some (JStr str, rest)
      else '(n, rest) ← read_int s; Some (JInt n, rest)
  end.

(** What follows a member: the closing brace that ends the text, or a
    comma and the next members. *)
Definition read_after (read_rest : pystr -> option jdict) (kv : pystr * jvalue) (s : pystr)
  : option jdict :=
  match s with
  | [] => None
  | c :: s' =>
      if c =? 125 then match s' with [] => Some [kv] | _ => None end
      else if c =? 44 then rest ← read_rest s'; Some (kv :: rest)
      else None
  end.

(** The members of an object after its opening brace. *)
Fixpoint read_members (fuel : nat) (s : pystr) : option jdict :=
  match fuel with
  | O => None
  | S fuel' =>
      match s with
      | [] => None
      | c :: s1 =>
          if c =? 34 then
            '(k, s2) ← read_string s1;
            match s2 with
            | [] => None
            | c2 :: s3 =>
                if c2 =? 58 then
                  '(v, s4) ← read_value s3;
                  read_after (read_members fuel') (k, v) s4
                else None
            end
          else None
      end
  end.

(** [json.loads] on a flat compact object of integers and strings without
    escapes. *)
Definition json_loads (s : pystr) : option jdict :=
  match s with
  | [] => None
  | c :: s' =>
      if c =? 123 then
        if bool_decide (s' = [125]) then Some [] else read_members (length s') s'
      else None
  end.

(** [d.get(key)] on a parsed object. *)
Fixpoint jdict_get (d : jdict) (key : pystr) : option jvalue :=
  match d with
  | [] => None
  | (k, v) :: d' => if bool_decide (k = key) then Some v else jdict_get d' key
  end.

(** The shape of [hashlib.md5(...).hexdigest()]: 32 characters of
    [0-9a-f]. *)
Definition md5_shape (md5_hex : list Z -> pystr) : Prop :=
  forall data, length (md5_hex data) = 32%nat /\ Forall is_hex_char (md5_hex data).

Definition plain_value (v : jvalue) : Prop :=
  match v with
  | JInt _ => True
  | JStr s => plain s
  end.

(** A flat object whose keys and strings need no escape. *)
Definition plain_dict (d : jdict) : Prop :=
  Forall (fun kv => plain (fst kv) /\ plain_value (snd kv)) d.

(** ** Reference models of the two library functions

    [binascii.crc32] is the CRC-32 of zlib and [hashlib.md5] is MD5 of
    RFC 1321. The engine is embedded over any [crc32] and [md5_hex]; these
    two models instantiate them on concrete inputs. *)

(** [binascii.crc32(data)] *)
Definition crc32_std (data : list Z) : Z :=
  foldl (fun crc b => _MRC_TABLE@(Z.to_nat ((crc .^ b) .& 255)) .^ (crc .>> 8))
        0xFFFFFFFF data .^ 0xFFFFFFFF.

Definition md5_s : list Z :=
  [7; 12; 17; 22; 7; 12; 17; 22; 7; 12; 17; 22; 7; 12; 17; 22;
   5; 9; 14; 20; 5; 9; 14; 20; 5; 9; 14; 20; 5; 9; 14; 20;
   4; 11; 16; 23; 4; 11; 16; 23; 4; 11; 16; 23; 4; 11; 16; 23;
   6; 10; 15; 21; 6; 10; 15; 21; 6; 10; 15; 21; 6; 10; 15; 21].

Definition md5_K : list Z :=
  [3614090360; 3905402710; 606105819; 3250441966; 4118548399; 1200080426;
   2821735955; 4249261313; 1770035416; 2336552879; 4294925233; 2304563134;
   1804603682; 4254626195; 2792965006; 1236535329; 4129170786; 3225465664;
   643717713; 3921069994; 3593408605; 38016083; 3634488961; 3889429448;
   568446438; 3275163606; 4107603335; 1163531501; 2850285829; 4243563512;
   1735328473; 2368359562; 4294588738; 2272392833; 1839030562; 4259657740;
   2763975236; 1272893353; 4139469664; 3200236656; 681279174; 3936430074;
   3572445317; 76029189; 3654602809; 3873151461; 530742520; 3299628645;
   4096336452; 1126891415; 2878612391; 4237533241; 1700485571; 2399980690;
   4293915773; 2240044497; 1873313359; 4264355552; 2734768916; 1309151649;
   4149444226; 3174756917; 718787259; 3951481745].

Definition rotl32 (x c : Z) : Z := ((x .<< c) .| (x .>> (32 - c))) .& 0xFFFFFFFF.

Definition md5_round (M : list Z) (st : Z * Z * Z * Z) (i : nat) : Z * Z * Z * Z :=
  let '(A, B, C, D) := st in
  let '(F, g) :=
    if (i <? 16)%nat then ((B .& C) .| (Z.lnot B .& D), i)
    else if (i <? 32)%nat then ((D .& B) .| (Z.lnot D .& C), ((5 * i + 1) mod 16)%nat)
    else if (i <? 48)%nat then (B .^ C .^ D, ((3 * i + 5) mod 16)%nat)
    else (C .^ (B .| Z.lnot D), ((7 * i) mod 16)%nat) in
  let F := (F + A + md5_K@i + M@g) .& 0xFFFFFFFF in
  (D, (B + rotl32 F md5_s@i) .& 0xFFFFFFFF, B, C).

Definition md5_block (st : Z * Z * Z * Z) (block : list Z) : Z * Z * Z * Z :=
  let M := map (fun t => block@(4*t) .| (block@(4*t+1) .<< 8) .|
                         (block@(4*t+2) .<< 16) .| (block@(4*t+3) .<< 24)) (seq 0 16) in
  let '(a0, b0, c0, d0) := st in
  let '(a, b, c, d) := foldl (md5_round M) st (seq 0 64) in
  ((a0 + a) .& 0xFFFFFFFF, (b0 + b) .& 0xFFFFFFFF,
   (c0 + c) .& 0xFFFFFFFF, (d0 + d) .& 0xFFFFFFFF).

Definition md5_pad (msg : list Z) : list Z :=
  let bits := 8 * Z.of_nat (length msg) in
  msg ++ [0x80] ++ replicate (Z.to_nat ((55 - Z.of_nat (length msg)) mod 64)) 0
      ++ map (fun i => (bits .>> (8 * i)) .& 255) [0; 1; 2; 3; 4; 5; 6; 7].

Definition le32_bytes (x : Z) : list Z :=
  [x .& 255; (x .>> 8) .& 255; (x .>> 16) .& 255; (x .>> 24) .& 255].

(** [hashlib.md5(data).digest()] *)
Definition md5_digest (data : list Z) : list Z :=
  let '(a, b, c, d) :=
    foldl md5_block (0x67452301, 0xefcdab89, 0x98badcfe, 0x10325476)
          (chunks64 (md5_pad data)) in
  le32_bytes a ++ le32_bytes b ++ le32_bytes c ++ le32_bytes d.

(** [hashlib.md5(data).hexdigest()] *)
Definition md5_hexdigest (data : list Z) : pystr := hexlify (md5_digest data).

(** ** Predicates used by the statements *)

(** An alphabet of [base] distinct digits. *)
Definition alphabet_ok (alphabet : pystr) (base : Z) : Prop :=
  2 <= base /\
  forall i, 0 <= i < base ->
    exists c, py_index alphabet i = Some c /\ index_of alphabet c = Some i.

Definition alphabet_okb (alphabet : pystr) (base : Z) : bool :=
  (2 <=? base) &&
  forallb (fun i => match py_index alphabet i with
                    | Some c => match index_of alphabet c with
                                | Some j => i =? j
                                | None => false
                                end
                    | None => false
                    end) (seqZ 0 base).

(** A text of ASCII characters. *)
Definition is_ascii (s : pystr) : Prop := Forall (fun c => 0 <= c < 128) s.

(** The permutation table of the cipher: 256 entries, each a byte. *)
Definition sbox (s : list Z) : Prop :=
  length s = 256%nat /\ Forall (fun x => 0 <= x < 256) s.

(** The generator state: two indices and a table. *)
Definition prga_state (st : Z * Z * list Z) : Prop :=
  let '(i, j, s) := st in 0 <= i < 256 /\ 0 <= j < 256 /\ sbox s.

Definition is_hex_charb (c : Z) : bool :=
  ((48 <=? c) && (c <=? 57)) || ((97 <=? c) && (c <=? 102)).

(** The check of one group: four characters, all of the table. *)
Definition quad_ok (o g h : Z) : bool :=
  match xhs_h_quad o g h with
  | Some q => (length q =? 4)%nat && forallb (fun c => existsb (Z.eqb c) xhs_h_d) q
  | None => false
  end.

(** What the loop of [_xhs_h] does at index [i] of a digest [n]: it reads
    two or three characters and emits the four characters [q]. *)
Definition xhs_h_group (n : pystr) (i : Z) (q : pystr) : Prop :=
  exists o g h,
    py_index n i = Some o /\
    (if i + 1 <? 32 then py_index n (i + 1) = Some g else g = 0) /\
    (if i + 2 <? 32 then py_index n (i + 2) = Some h else h = 0) /\
    xhs_h_quad o g h = Some q /\ length q = 4%nat /\ Forall (fun c => In c xhs_h_d) q.

(** The word [_xhs_b64_encode] builds from three bytes. *)
Definition b64_word (a b c : Z) : Z :=
  (16711680 .& (a .<< 16)) + ((b .<< 8) .& 65280) + (c .& 255).

(** What may follow an integer in the text: nothing, or a character that is
    not a digit. *)
Definition not_digit_next (rest : pystr) : Prop :=
  match rest with
  | [] => True
  | c :: _ => ~ 48 <= c <= 57
  end.


(** ** Reading the encodings of Protocol A and of [_xhs_h] back *)

(** The inverse of [_custom_b64] over a table: groups of four characters
    of the table, the last one padded with one or two ['=']. *)
Fixpoint custom_b64_decode (table : pystr) (s : pystr) : option pystr :=
  match s with
  | [] => Some []
  | c1 :: c2 :: c3 :: c4 :: rest =>
      i1 ← index_of table c1;
      i2 ← index_of table c2;
      if c3 =? 61 then
        match rest with
        | [] => if c4 =? 61 then Some [i1 * 4 + i2 / 16] else None
        | _ => None
        end
      else
        i3 ← index_of table c3;
        if c4 =? 61 then
          match rest with
          | [] => Some [i1 * 4 + i2 / 16; i2 mod 16 * 16 + i3 / 4]
          | _ => None
          end
        else
          i4 ← index_of table c4;
          r ← custom_b64_decode table rest;
          Some (i1 * 4 + i2 / 16 :: i2 mod 16 * 16 + i3 / 4 :: i3 mod 4 * 64 + i4 :: r)
  | _ => None
  end.

(** A table of [_custom_b64]: its first 64 characters are distinct and
    none of them is ['=']. *)
Definition b64_table_okb (table : pystr) : bool :=
  alphabet_okb table 64 && negb (existsb (Z.eqb 61) (take 64 table)).

(** The word [_custom_b64] builds from three characters. *)
Definition custom_b64_word (a b c : Z) : Z := (a .<< 16) .| (b .<< 8) .| c.

(** A character that a URL query takes as it is: a letter, a digit or one
    of [-], [/] and [=]. *)
Definition query_safe (c : Z) : Prop :=
  48 <= c <= 57 \/ 65 <= c <= 90 \/ 97 <= c <= 122 \/ c = 45 \/ c = 47 \/ c = 61.

Definition query_safeb (c : Z) : bool :=
  ((48 <=? c) && (c <=? 57)) || ((65 <=? c) && (c <=? 90)) || ((97 <=? c) && (c <=? 122))
  || (c =? 45) || (c =? 47) || (c =? 61).

(** The inverse of [_xhs_h]: groups of four characters of its table [d],
    whose index 64 marks a missing third character, in the last group. *)
Fixpoint xhs_h_decode (m : pystr) : option pystr :=
  match m with
  | [] => Some []
  | c1 :: c2 :: c3 :: c4 :: rest =>
      v ← index_of xhs_h_d c1;
      x ← index_of xhs_h_d c2;
      p ← index_of xhs_h_d c3;
      b ← index_of xhs_h_d c4;
      let o := 4 * v + x / 16 in
      let g := x mod 16 * 16 + p / 4 in
      if b =? 64 then
        match rest with
        | [] => Some [o; g]
        | _ => None
        end
      else
        r ← xhs_h_decode rest;
        Some (o :: g :: p mod 4 * 64 + b :: r)
  | _ => None
  end.

(** The check of one group of [_xhs_h]: its four characters decode to the
    characters [o], [g], [h] it was made of ([h = 0] for a missing one). *)
Definition quad_decodes (o g h : Z) : bool :=
  match xhs_h_quad o g h with
  | Some [c1; c2; c3; c4] =>
      match index_of xhs_h_d c1, index_of xhs_h_d c2,
            index_of xhs_h_d c3, index_of xhs_h_d c4 with
      | Some v, Some x, Some p, Some b =>
          (4 * v + x / 16 =? o) && (x mod 16 * 16 + p / 4 =? g)
          && (if h =? 0 then b =? 64
              else negb (b =? 64) && (p mod 4 * 64 + b =? h))
      | _, _, _, _ => false
      end
  | _ => false
  end.

(** The three random numbers that [_gen_string_1] hides in its 12
    characters, read back from them. *)
Definition gen_string_1_read (s : pystr) (j : nat) : Z :=
  ((s@(4 * j) .& 170) .| (s@(4 * j + 1) .& 85))
  + 256 * ((s@(4 * j + 2) .& 170) .| (s@(4 * j + 3) .& 85)).

(** The record [common] of [sign_xiaohongshu], in the order of its keys. *)
Definition xhs_common (a1 b1 x_t x_s : pystr) (x9 : Z) : jdict :=
  [(lit "s0", JInt 5); (lit "s1", JStr []); (lit "x0", JStr (lit "1"));
   (lit "x1", JStr (lit "3.2.0")); (lit "x2", JStr (lit "Windows"));
   (lit "x3", JStr (lit "xhs-pc-web")); (lit "x4", JStr (lit "2.3.1"));
   (lit "x5", JStr a1); (lit "x6", JStr x_t);
   (lit "x7", JStr x_s); (lit "x8", JStr b1); (lit "x9", JInt x9);
   (lit "x10", JInt 1)].

(** The request that [fetch_comments] of clawkit signs. *)
Definition comment_page_uri : pystr := lit "/api/sns/web/v2/comment/page".
(** * Properties *)

(** ** Proof tactics *)

(** Reduction of the option monad only. *)
Ltac bind_simpl := cbn [mbind option_bind fmap option_fmap option_map mret option_ret].

(** Goals on quotients and remainders by constants. *)
Ltac div_mod_lia := Z.div_mod_to_equations; lia.

(** The inner loop of [_custom_b64] on its four constant pairs. *)
Ltac b64_inner_run :=
  cbn [b64_inner];
  change (18 =? 6) with false; change (18 =? 0) with false;
  change (12 =? 6) with false; change (12 =? 0) with false;
  change (6 =? 6) with true; change (6 =? 0) with false;
  change (0 =? 6) with false; change (0 =? 0) with true; cbn [andb].

(** ** Generic facts on the Python builtins *)

Lemma py_index_lookup {A} (l : list A) (i : Z) :
  0 <= i -> py_index l i = l !! Z.to_nat i.
Proof. intros Hi. unfold py_index. destruct (Z.leb_spec 0 i); [reflexivity | lia]. Qed.

Lemma py_index_is_Some {A} (l : list A) (i : Z) :
  0 <= i < Z.of_nat (length l) -> exists x, py_index l i = Some x.
Proof.
  intros [Hi Hlt]. rewrite py_index_lookup by assumption.
  destruct (lookup_lt_is_Some_2 l (Z.to_nat i)) as [x Hx]; [lia | eauto].
Qed.

Lemma py_index_Forall {A} (P : A -> Prop) (l : list A) (i : Z) (x : A) :
  Forall P l -> py_index l i = Some x -> P x.
Proof.
  intros HP. unfold py_index.
  destruct (0 <=? i); [| destruct (0 <=? _); [| discriminate]];
    intros Hx; eapply Forall_lookup_1; eauto.
Qed.

(** An invariant carried through a [for] loop whose body may raise. *)
Lemma foldM_invariant {S A} (I : S -> Prop) (f : S -> A -> option S) (xs : list A) :
  (forall st x, I st -> In x xs -> exists st', f st x = Some st' /\ I st') ->
  forall st, I st -> exists st', foldM f st xs = Some st' /\ I st'.
Proof.
  induction xs as [| x xs IH]; intros Hf st Hst; simpl.
  - eauto.
  - destruct (Hf st x Hst (or_introl eq_refl)) as (st' & -> & Hst').
    apply IH; [| assumption]. intros st0 y H0 Hy. apply Hf; [assumption | now right].
Qed.

Lemma foldM_app {S A} (f : S -> A -> option S) (xs ys : list A) (st : S) :
  foldM f st (xs ++ ys) = match foldM f st xs with
                          | Some st' => foldM f st' ys
                          | None => None
                          end.
Proof.
  revert st. induction xs as [| x xs IH]; intros st; simpl; [reflexivity |].
  destruct (f st x); [apply IH | reflexivity].
Qed.

Lemma in_seqZ (i m n : Z) : In i (seqZ m n) -> m <= i < m + n.
Proof. intros H. apply list_elem_of_In, elem_of_seqZ in H. lia. Qed.

(** A literal of the source is a text of 8-bit characters. *)
Lemma lit_bytes (s : string) : is_bytes (lit s).
Proof.
  induction s as [| a s IH]; simpl; constructor; [| assumption].
  pose proof (N_ascii_bounded a). lia.
Qed.

Lemma lit_bytes_check (s : pystr) :
  forallb (fun c => (0 <=? c) && (c <? 256)) s = true -> is_bytes s.
Proof.
  intros H. apply Forall_forall. intros c Hc. apply list_elem_of_In in Hc.
  rewrite forallb_forall in H. specialize (H c Hc). lia.
Qed.

Lemma is_bytes_wf_str (s : pystr) : is_bytes s -> wf_str s.
Proof. intros H. eapply Forall_impl; [exact H |]. simpl. intros; lia. Qed.

Lemma wf_str_lit (s : string) : wf_str (lit s).
Proof. apply is_bytes_wf_str, lit_bytes. Qed.

(** ** Bounds on the bit operations *)

Lemma shiftr_small (a k : Z) : 0 <= k -> 0 <= a < 2 ^ k -> a .>> k = 0.
Proof. intros Hk Ha. rewrite Z.shiftr_div_pow2 by assumption. apply Z.div_small, Ha. Qed.

Lemma shiftr_zero_bound (a k : Z) : 0 <= k -> 0 <= a -> a .>> k = 0 -> a < 2 ^ k.
Proof.
  intros Hk Ha H0. rewrite Z.shiftr_div_pow2 in H0 by assumption.
  assert (0 < 2 ^ k) by (apply Z.pow_pos_nonneg; lia).
  pose proof (Z.div_mod a (2 ^ k) ltac:(lia)).
  pose proof (Z.mod_pos_bound a (2 ^ k) ltac:(lia)). nia.
Qed.

Lemma land_bound (a b k : Z) : 0 <= k -> 0 <= b < 2 ^ k -> 0 <= (a .& b) < 2 ^ k.
Proof.
  intros Hk Hb.
  assert (Hnn : 0 <= a .& b) by (apply Z.land_nonneg; lia).
  split; [assumption |]. apply shiftr_zero_bound; try assumption.
  rewrite Z.shiftr_land, (shiftr_small b k) by assumption. apply Z.land_0_r.
Qed.

Lemma land_bound_l (a b k : Z) : 0 <= k -> 0 <= a < 2 ^ k -> 0 <= (a .& b) < 2 ^ k.
Proof. intros. rewrite Z.land_comm. now apply land_bound. Qed.

Lemma lor_bound (a b k : Z) :
  0 <= k -> 0 <= a < 2 ^ k -> 0 <= b < 2 ^ k -> 0 <= (a .| b) < 2 ^ k.
Proof.
  intros Hk Ha Hb.
  assert (Hnn : 0 <= a .| b) by (apply Z.lor_nonneg; lia).
  split; [assumption |]. apply shiftr_zero_bound; try assumption.
  rewrite Z.shiftr_lor, !shiftr_small by assumption. reflexivity.
Qed.

Lemma lxor_bound (a b k : Z) :
  0 <= k -> 0 <= a < 2 ^ k -> 0 <= b < 2 ^ k -> 0 <= (a .^ b) < 2 ^ k.
Proof.
  intros Hk Ha Hb.
  assert (Hnn : 0 <= a .^ b) by (apply Z.lxor_nonneg; lia).
  split; [assumption |]. apply shiftr_zero_bound; try assumption.
  rewrite Z.shiftr_lxor, !shiftr_small by assumption. reflexivity.
Qed.

Lemma shiftr_bound (a j k : Z) : 0 <= j -> 0 <= k -> 0 <= a < 2 ^ k -> 0 <= (a .>> j) < 2 ^ k.
Proof.
  intros Hj Hk Ha. rewrite Z.shiftr_div_pow2 by assumption.
  assert (0 < 2 ^ j) by (apply Z.pow_pos_nonneg; lia).
  split; [apply Z.div_pos; lia |].
  apply Z.div_lt_upper_bound; [assumption | nia].
Qed.

(** A loop that appends one piece per index returns the pieces in order. *)
Lemma foldM_append {A B} (Q : A -> list B -> Prop)
    (step : list B -> A -> option (list B)) (idxs : list A) :
  (forall i, In i idxs -> exists q, Q i q /\ forall m, step m i = Some (m ++ q)) ->
  forall m, exists qs, Forall2 Q idxs qs /\ foldM step m idxs = Some (m ++ List.concat qs).
Proof.
  induction idxs as [| i idxs IH]; intros Hstep m.
  - exists []. split; [constructor | simpl; now rewrite app_nil_r].
  - destruct (Hstep i (or_introl eq_refl)) as (q & Hq & Eq).
    destruct (IH (fun j Hj => Hstep j (or_intror Hj)) (m ++ q)) as (qs & Hqs & Eqs).
    exists (q :: qs). split; [now constructor |].
    simpl. rewrite Eq, Eqs, <- app_assoc. reflexivity.
Qed.

(** ** Rendering an integer in a base, and reading it back *)

Lemma alphabet_okb_ok (alphabet : pystr) (base : Z) :
  alphabet_okb alphabet base = true -> alphabet_ok alphabet base.
Proof.
  unfold alphabet_okb. intros H. apply andb_true_iff in H as [Hb Hall].
  split; [lia |]. intros i Hi. rewrite forallb_forall in Hall.
  assert (Hin : In i (seqZ 0 base)) by (apply list_elem_of_In, elem_of_seqZ; lia).
  specialize (Hall i Hin).
  destruct (py_index alphabet i) as [c |]; [| discriminate].
  destruct (index_of alphabet c) as [j |] eqn:Ej; [| discriminate].
  apply Z.eqb_eq in Hall. subst. exists c. split; [reflexivity | exact Ej].
Qed.

Lemma base36_ok : alphabet_ok base36 36.
Proof. apply alphabet_okb_ok. vm_compute. reflexivity. Qed.

Lemma base10_ok : alphabet_ok base10 10.
Proof. apply alphabet_okb_ok. vm_compute. reflexivity. Qed.

Lemma hex_lower_ok : alphabet_ok hex_lower 16.
Proof. apply alphabet_okb_ok. vm_compute. reflexivity. Qed.

Section Base.
Variable alphabet : pystr.
Variable base : Z.
Hypothesis Hok : alphabet_ok alphabet base.

Lemma digits_value_shift (s : pystr) : forall acc v,
  digits_value alphabet base 0 s = Some v ->
  digits_value alphabet base acc s = Some (acc * base ^ Z.of_nat (length s) + v).
Proof using Type.
  unfold digits_value.
  induction s as [| c s IH] using rev_ind; intros acc v Hv.
  - simpl in *. injection Hv as <-. f_equal. lia.
  - revert Hv. rewrite !foldM_app. cbn [foldM]. intros Hv.
    destruct (foldM _ 0 s) as [v0 |] eqn:E0; [| discriminate].
    rewrite (IH acc v0 eq_refl). simpl in *.
    destruct (index_of alphabet c) as [d |]; [| discriminate].
    simpl in *. injection Hv as <-. f_equal.
    rewrite length_app. simpl length.
    replace (Z.of_nat (length s + 1)) with (Z.of_nat (length s) + 1) by lia.
    rewrite Z.pow_add_r by lia. lia.
Qed.

(** The loop ends within [fuel] turns on a number below [2^(fuel-1)], and
    puts before [result] the digits of [num]. *)
Lemma base_loop_digits (fuel : nat) : forall num result v,
  0 <= num < 2 ^ (Z.of_nat fuel - 1) -> (0 < fuel)%nat ->
  digits_value alphabet base 0 result = Some v ->
  exists out, base_loop fuel alphabet base num result = Some out /\
    digits_value alphabet base 0 out
      = Some (num * base ^ Z.of_nat (length result) + v) /\
    (length result <= length out)%nat /\
    (forall k, 0 <= k -> base ^ k <= num ->
               (length result + Z.to_nat k + 1 <= length out)%nat) /\
    (forall k, 0 <= k -> num < base ^ k ->
               (length out <= length result + Z.to_nat k)%nat) /\
    (forall P : Z -> Prop, Forall P alphabet -> Forall P result -> Forall P out).
Proof using Hok.
  destruct Hok as [Hbase Hdig].
  induction fuel as [| fuel IH]; intros num result v Hnum Hfuel Hv; [lia |].
  simpl. destruct (Z.eqb_spec num 0) as [-> | Hnz].
  - exists result. split; [reflexivity |]. split; [rewrite Hv; f_equal; lia |].
    split; [lia |]. split.
    + intros k Hk Hle. assert (0 < base ^ k) by (apply Z.pow_pos_nonneg; lia). lia.
    + split; [intros; lia | auto].
  - destruct (Hdig (num mod base)) as (c & Ec & Eidx);
      [apply Z.mod_pos_bound; lia |].
    rewrite Ec. bind_simpl.
    assert (Hf : (0 < fuel)%nat).
    { destruct fuel; [| lia]. simpl in Hnum. lia. }
    assert (Hdiv : 0 <= num / base < 2 ^ (Z.of_nat fuel - 1)).
    { split; [apply Z.div_pos; lia |].
      apply Z.div_lt_upper_bound; [lia |].
      replace (Z.of_nat (S fuel) - 1) with ((Z.of_nat fuel - 1) + 1) in Hnum by lia.
      rewrite Z.pow_add_r in Hnum by lia.
      assert (0 < 2 ^ (Z.of_nat fuel - 1)) by (apply Z.pow_pos_nonneg; lia). nia. }
    assert (Hv' : digits_value alphabet base 0 (c :: result)
                  = Some (num mod base * base ^ Z.of_nat (length result) + v)).
    { unfold digits_value. cbn [foldM]. rewrite Eidx. bind_simpl.
      apply (digits_value_shift result (0 * base + num mod base) v Hv). }
    destruct (IH (num / base) (c :: result) _ Hdiv Hf Hv')
      as (out & Eout & Edec & Hlen & Hlow & Hup & Hall).
    exists out. split; [assumption |]. split.
    { rewrite Edec. f_equal. simpl length.
      replace (Z.of_nat (S (length result))) with (Z.of_nat (length result) + 1) by lia.
      rewrite Z.pow_add_r by lia.
      pose proof (Z.div_mod num base ltac:(lia)). nia. }
    simpl length in *. split; [lia |]. split; [| split].
    + intros k Hk Hle. destruct (Z.eq_dec k 0) as [-> | Hk0]; [simpl; lia |].
      specialize (Hlow (k - 1) ltac:(lia)).
      assert (base ^ (k - 1) <= num / base).
      { apply Z.div_le_lower_bound; [lia |].
        replace k with ((k - 1) + 1) in Hle by lia.
        rewrite Z.pow_add_r in Hle by lia. lia. }
      specialize (Hlow ltac:(assumption)). lia.
    + intros k Hk Hlt. destruct (Z.eq_dec k 0) as [-> | Hk0]; [simpl in Hlt; lia |].
      specialize (Hup (k - 1) ltac:(lia)).
      assert (num / base < base ^ (k - 1)).
      { apply Z.div_lt_upper_bound; [lia |].
        replace k with ((k - 1) + 1) in Hlt by lia.
        rewrite Z.pow_add_r in Hlt by lia. lia. }
      specialize (Hup ltac:(assumption)). lia.
    + intros P HP Hres. apply Hall; [assumption |].
      constructor; [| assumption].
      exact (py_index_Forall _ _ _ _ HP Ec).
Qed.

Lemma base_fuel_enough (num : Z) :
  0 < num -> 0 <= num < 2 ^ (Z.of_nat (base_fuel num) - 1) /\ (0 < base_fuel num)%nat.
Proof using Type.
  intros Hpos. unfold base_fuel.
  pose proof (Z.log2_nonneg num). pose proof (Z.log2_spec num Hpos).
  replace (Z.of_nat (Z.to_nat (Z.log2 num) + 2) - 1) with (Z.succ (Z.log2 num)) by lia.
  lia.
Qed.

Hypothesis Hzero : py_index alphabet 0 = Some 48.

Lemma index_of_zero : index_of alphabet 48 = Some 0.
Proof using Hok Hzero.
  destruct Hok as [Hbase Hdig]. destruct (Hdig 0 ltac:(lia)) as (c & Ec & Ei).
  rewrite Hzero in Ec. now injection Ec as <-.
Qed.

(** [to_base] on a natural number: the text reads back as the number,
    has one digit more than any power of the base the number reaches,
    and is made of digits of the alphabet. *)
Lemma to_base_digits (num : Z) :
  0 <= num ->
  exists out, to_base alphabet base num = Some out /\
    digits_value alphabet base 0 out = Some num /\
    from_base alphabet base out = Some num /\
    (1 <= length out)%nat /\
    (forall k, 0 <= k -> base ^ k <= num -> (Z.to_nat k + 1 <= length out)%nat) /\
    (forall k, 0 < k -> num < base ^ k -> (length out <= Z.to_nat k)%nat) /\
    (forall P : Z -> Prop, Forall P alphabet -> Forall P out).
Proof using Hok Hzero.
  intros Hnum. unfold to_base. destruct (Z.eqb_spec num 0) as [-> | Hnz].
  - exists [48]. split; [reflexivity |].
    assert (E : digits_value alphabet base 0 [48] = Some 0).
    { unfold digits_value. cbn [foldM]. rewrite index_of_zero. reflexivity. }
    split; [exact E |]. split; [exact E |]. split; [simpl; lia |]. split; [| split].
    + intros k Hk Hle. destruct Hok as [Hbase _].
      assert (0 < base ^ k) by (apply Z.pow_pos_nonneg; lia). lia.
    + intros k Hk _. simpl. lia.
    + intros P HP. constructor; [| constructor].
      exact (py_index_Forall _ _ _ _ HP Hzero).
  - destruct (base_fuel_enough num ltac:(lia)) as [Hfuel Hpos].
    destruct (base_loop_digits (base_fuel num) num [] 0 Hfuel Hpos eq_refl)
      as (out & Eout & Edec & _ & Hlow & Hup & Hall).
    exists out. split; [assumption |].
    assert (E : digits_value alphabet base 0 out = Some num).
    { rewrite Edec. f_equal. simpl. lia. }
    assert (Hlen : (1 <= length out)%nat).
    { specialize (Hlow 0 ltac:(lia) ltac:(simpl; lia)). simpl in Hlow. lia. }
    split; [exact E |]. split.
    { unfold from_base. destruct out; [simpl in Hlen; lia | exact E]. }
    split; [exact Hlen |]. split; [| split].
    + intros k Hk Hle. specialize (Hlow k Hk Hle). simpl in Hlow. lia.
    + intros k Hk Hlt. specialize (Hup k ltac:(lia) Hlt). simpl in Hup. lia.
    + intros P HP. apply Hall; [assumption | constructor].
Qed.
End Base.

(** [str.encode()] leaves an ASCII text as it is. *)
Lemma str_encode_ascii (s : pystr) : is_ascii s -> str_encode s = Some s.
Proof.
  unfold str_encode. intros Hs.
  assert (E : mapM utf8_char s = Some (map (fun c => [c]) s)).
  { apply mapM_Some_2. induction Hs as [| c s Hc _ IH]; constructor; [| assumption].
    unfold utf8_char.
    destruct (Z.ltb_spec c 0); [lia |]. destruct (Z.ltb_spec c 0x80); [reflexivity | lia]. }
  rewrite E. bind_simpl. f_equal.
  clear. induction s as [| c s IH]; simpl; [reflexivity | now rewrite IH].
Qed.

Lemma lit_ascii_check (s : pystr) :
  forallb (fun c => (0 <=? c) && (c <? 128)) s = true -> is_ascii s.
Proof.
  intros H. apply Forall_forall. intros c Hc. apply list_elem_of_In in Hc.
  rewrite forallb_forall in H. specialize (H c Hc). lia.
Qed.

(** [str(n)]: decimal digits after an optional sign. *)
Lemma py_str_nonneg (n : Z) :
  0 <= n ->
  digits_value base10 10 0 (py_str n) = Some n /\
  (1 <= length (py_str n))%nat /\
  (forall k, 0 <= k -> 10 ^ k <= n -> (Z.to_nat k + 1 <= length (py_str n))%nat) /\
  (forall k, 0 < k -> n < 10 ^ k -> (length (py_str n) <= Z.to_nat k)%nat) /\
  Forall (fun c => 48 <= c <= 57) (py_str n).
Proof.
  intros Hn. unfold py_str. destruct (Z.ltb_spec n 0); [lia |].
  destruct (to_base_digits base10 10 base10_ok eq_refl n Hn)
    as (out & E & Edec & _ & Hlen & Hlow & Hup & Hall).
  change (lit "0123456789") with base10. rewrite E. simpl default.
  repeat split; try assumption.
  apply Hall. apply Forall_forall. intros c Hc. apply list_elem_of_In in Hc.
  simpl in Hc. lia.
Qed.

Lemma py_str_ascii (n : Z) : is_ascii (py_str n).
Proof.
  assert (Hd : forall m, 0 <= m -> is_ascii (default [] (to_base base10 10 m))).
  { intros m Hm.
    destruct (to_base_digits base10 10 base10_ok eq_refl m Hm) as (out & -> & _ & _ & _ & _ & _ & Hall).
    simpl. apply Hall. apply lit_ascii_check. reflexivity. }
  unfold py_str. change (lit "0123456789") with base10.
  destruct (Z.ltb_spec n 0).
  - constructor; [lia | apply Hd; lia].
  - apply Hd; lia.
Qed.

(** [hex(n)[2:]] on a natural number: its hexadecimal digits. *)
Lemma py_hex_nonneg (n : Z) :
  0 <= n ->
  (forall k, 0 <= k -> 16 ^ k <= n -> (Z.to_nat k + 1 <= length (drop 2 (py_hex n)))%nat) /\
  (forall k, 0 < k -> n < 16 ^ k -> (length (drop 2 (py_hex n)) <= Z.to_nat k)%nat).
Proof.
  intros Hn. unfold py_hex. destruct (Z.ltb_spec n 0); [lia |].
  destruct (to_base_digits hex_lower 16 hex_lower_ok eq_refl n Hn)
    as (out & -> & _ & _ & _ & Hlow & Hup & _).
  simpl. split; assumption.
Qed.

Lemma py_hex_ascii (n : Z) : is_ascii (py_hex n).
Proof.
  assert (Hd : forall m, 0 <= m -> is_ascii (default [] (to_base hex_lower 16 m))).
  { intros m Hm.
    destruct (to_base_digits hex_lower 16 hex_lower_ok eq_refl m Hm) as (out & -> & _ & _ & _ & _ & _ & Hall).
    simpl. apply Hall. apply lit_ascii_check. reflexivity. }
  unfold py_hex. destruct (Z.ltb_spec n 0).
  - apply Forall_app. split; [apply lit_ascii_check; reflexivity | apply Hd; lia].
  - apply Forall_app. split; [apply lit_ascii_check; reflexivity | apply Hd; lia].
Qed.

(** ** The hash engine on the published vectors *)

(** C1. The SM3 engine gives the published digests of the two reference
    messages: ["abc"] and the 64 bytes ["abcd" * 16]. *)
Theorem sm3_reference_vectors :
  length (lit "abc") = 3%nat /\
  hexlify <$> _sm3_hash (lit "abc")
    = Some (lit "66c7f0f462eeedd9d1f2d46bdc10e4e24167c4875cf2f7a2297da02b8f4ba8e0") /\
  length <$> _sm3_hash (lit "abc") = Some 32%nat /\
  length (lit "abcdabcdabcdabcdabcdabcdabcdabcdabcdabcdabcdabcdabcdabcdabcdabcd") = 64%nat /\
  hexlify <$> _sm3_hash (lit "abcdabcdabcdabcdabcdabcdabcdabcdabcdabcdabcdabcdabcdabcdabcdabcd")
    = Some (lit "debe9ff92275b8a138604889c18e5a4d6fdb70e5387e5765293dcba39c0c5732") /\
  length <$> _sm3_hash (lit "abcdabcdabcdabcdabcdabcdabcdabcdabcdabcdabcdabcdabcdabcdabcdabcd")
    = Some 32%nat.
Proof. repeat split; vm_compute; reflexivity. Qed.

(** ** The padding of the two SM3 routines *)

Lemma range_step_zero (n s : nat) :
  (0 < s)%nat ->
  range_step 0 n s
  = match n with O => [] | _ => 0%nat :: map (fun i => (i + s)%nat) (range_step 0 (n - s) s) end.
Proof.
  intros Hs. unfold range_step. rewrite !Nat.sub_0_r.
  destruct n as [| n]; [now rewrite Nat.div_small by lia |].
  replace (S n + (s - 1))%nat with (n + 1 * s)%nat by lia.
  rewrite Nat.div_add by lia. rewrite Nat.add_1_r. cbn [seq map].
  f_equal. rewrite <- seq_shift, !map_map.
  assert (E : ((S n - s + (s - 1)) / s = n / s)%nat).
  { destruct (Nat.le_gt_cases s (S n)).
    - replace (S n - s + (s - 1))%nat with n by lia. reflexivity.
    - replace (S n - s + (s - 1))%nat with (s - 1)%nat by lia.
      rewrite !Nat.div_small by lia. reflexivity. }
  rewrite E. apply map_ext. intros k. lia.
Qed.

Lemma range_step_lt (n s i : nat) : (0 < s)%nat -> In i (range_step 0 n s) -> (i < n)%nat.
Proof.
  intros Hs. unfold range_step. rewrite Nat.sub_0_r. intros Hi.
  apply in_map_iff in Hi as (k & <- & Hk). apply in_seq in Hk.
  destruct n as [| n]; [rewrite Nat.div_small in Hk by lia; lia |].
  replace (S n + (s - 1))%nat with (n + 1 * s)%nat in Hk by lia.
  rewrite Nat.div_add in Hk by lia.
  assert (k <= n / s)%nat by lia.
  pose proof (Nat.Div0.mul_div_le n s). nia.
Qed.

Lemma chunks64_nil : chunks64 [] = [].
Proof. reflexivity. Qed.

Lemma chunks64_cons (b : list Z) :
  b <> [] -> chunks64 b = take 64 b :: chunks64 (drop 64 b).
Proof.
  intros Hb. unfold chunks64. rewrite (range_step_zero (length b) 64) by lia.
  destruct (length b) as [| n] eqn:En; [destruct b; [congruence | discriminate] |].
  cbn [map]. change (slice b 0 (0 + 64)) with (take 64 b). f_equal.
  rewrite map_map, length_drop, En. apply map_ext. intros i.
  unfold slice. rewrite drop_drop. f_equal; [lia | f_equal; lia].
Qed.

Lemma chunks64_block (blk rest : list Z) :
  length blk = 64%nat -> chunks64 (blk ++ rest) = blk :: chunks64 rest.
Proof.
  intros Hlen. rewrite chunks64_cons by (destruct blk; [discriminate | discriminate]).
  rewrite take_app_length' by (symmetry; assumption).
  now rewrite drop_app_length' by (symmetry; assumption).
Qed.

Lemma chunks64_blocks (blks : list (list Z)) (rest : list Z) :
  Forall (fun blk => length blk = 64%nat) blks ->
  chunks64 (List.concat blks ++ rest) = blks ++ chunks64 rest.
Proof.
  induction 1 as [| blk blks Hblk _ IH]; [reflexivity |].
  simpl. rewrite <- app_assoc, chunks64_block by assumption. now rewrite IH.
Qed.

(** The chunks of a message: full blocks, then a last chunk of 1 to 64
    bytes (none for the empty message). *)
Lemma chunks64_split (n : nat) : forall b : list Z,
  (length b <= n)%nat -> b <> [] ->
  Forall (fun blk => length blk = 64%nat) (removelast (chunks64 b)) /\
  b = List.concat (removelast (chunks64 b)) ++ List.last (chunks64 b) [] /\
  (1 <= length (List.last (chunks64 b) []) <= 64)%nat /\
  chunks64 b <> [].
Proof.
  induction n as [| n IH]; intros b Hn Hb.
  - destruct b; [congruence | simpl in Hn; lia].
  - rewrite chunks64_cons by assumption.
    destruct (drop 64 b) as [| x rest] eqn:Ed.
    + rewrite chunks64_nil. cbn [removelast List.last List.concat app].
      assert (length b <= 64)%nat.
      { apply (f_equal length) in Ed. rewrite length_drop in Ed. simpl in Ed. lia. }
      rewrite take_ge by assumption.
      split; [constructor |]. split; [reflexivity |].
      split; [destruct b; [congruence | simpl in *; lia] | discriminate].
    + assert (Hlen : (64 < length b)%nat).
      { apply (f_equal length) in Ed. rewrite length_drop in Ed. simpl in Ed. lia. }
      destruct (IH (x :: rest)) as (Hfull & Hcat & Hlast & Hne).
      { rewrite <- Ed, length_drop. lia. }
      { discriminate. }
      destruct (chunks64 (x :: rest)) as [| c cs] eqn:Ec; [congruence |].
      change (removelast (take 64 b :: c :: cs)) with (take 64 b :: removelast (c :: cs)).
      change (List.last (take 64 b :: c :: cs) []) with (List.last (c :: cs) []).
      split; [constructor; [rewrite length_take; lia | assumption] |].
      split; [| split; [assumption | discriminate]].
      cbn [List.concat]. rewrite <- app_assoc, <- Hcat, <- Ed. symmetry. apply take_drop.
Qed.

Lemma sm3_compress_total (reg block : list Z) :
  (8 <= length reg)%nat -> (64 <= length block)%nat ->
  exists reg', _sm3_compress reg block = Some reg' /\ length reg' = 8%nat /\
               Forall (fun w => 0 <= w < 2 ^ 32) reg'.
Proof.
  intros Hreg Hblock. unfold _sm3_compress.
  destruct (Nat.ltb_spec (length block) 64); [lia |].
  destruct (Nat.ltb_spec (length reg) 8); [lia |]. cbn [orb].
  eexists. split; [reflexivity |]. split; [now rewrite length_map, length_seq |].
  apply Forall_forall. intros w Hw. apply list_elem_of_In, in_map_iff in Hw.
  destruct Hw as (i & <- & _). change 0xFFFFFFFF with (Z.ones 32).
  rewrite Z.land_ones by lia. apply Z.mod_pos_bound. lia.
Qed.

(** The register after a run of full blocks. *)
Lemma sm3_blocks_total (blks : list (list Z)) : forall reg,
  length reg = 8%nat -> Forall (fun blk => (64 <= length blk)%nat) blks ->
  exists reg', foldM _sm3_compress reg blks = Some reg' /\ length reg' = 8%nat.
Proof.
  induction blks as [| blk blks IH]; intros reg Hreg Hall; [simpl; eauto |].
  inversion Hall; subst. simpl.
  destruct (sm3_compress_total reg blk) as (r & -> & Hr & _); [lia | assumption |].
  now apply IH.
Qed.

Lemma foldM_map {S A B} (f : S -> B -> option S) (g : A -> B) (xs : list A) : forall st,
  foldM (fun st x => f st (g x)) st xs = foldM f st (map g xs).
Proof.
  induction xs as [| x xs IH]; intros st; simpl; [reflexivity |].
  destruct (f st (g x)); [apply IH | reflexivity].
Qed.

(** The loop [while len(last) % 64 != 56: last.append(0)]. *)
Lemma pad_loop_56 (fuel : nat) : forall l : list Z,
  (Z.to_nat ((56 - Z.of_nat (length l)) mod 64) < fuel)%nat ->
  while fuel (fun l => negb (Z.of_nat (length l) mod 64 =? 56)) (fun l => l ++ [0]) l
  = Some (l ++ replicate (Z.to_nat ((56 - Z.of_nat (length l)) mod 64)) 0).
Proof.
  induction fuel as [| fuel IH]; intros l Hfuel; [lia |].
  cbn [while].
  pose proof (Z.mod_pos_bound (Z.of_nat (length l)) 64 ltac:(lia)) as Hm.
  pose proof (Z.mod_pos_bound (56 - Z.of_nat (length l)) 64 ltac:(lia)) as Hk.
  pose proof (Z.div_mod (Z.of_nat (length l)) 64 ltac:(lia)) as Hdm.
  destruct (Z.eqb_spec (Z.of_nat (length l) mod 64) 56) as [E | E]; cbn [negb].
  - replace ((56 - Z.of_nat (length l)) mod 64) with 0.
    + simpl. now rewrite app_nil_r.
    + symmetry. apply Z.mod_divide; [lia |].
      exists (- (Z.of_nat (length l) / 64)). lia.
  - assert (Hk0 : (56 - Z.of_nat (length l)) mod 64 <> 0).
    { intros H0. apply Z.mod_divide in H0; [| lia]. destruct H0 as [q Hq].
      apply E. symmetry. apply (Z.mod_unique_pos _ _ (- q)); lia. }
    assert (Hk' : (56 - Z.of_nat (length (l ++ [0]))) mod 64
                  = (56 - Z.of_nat (length l)) mod 64 - 1).
    { rewrite length_app. simpl length.
      pose proof (Z.div_mod (56 - Z.of_nat (length l)) 64 ltac:(lia)).
      symmetry. apply (Z.mod_unique_pos _ _ ((56 - Z.of_nat (length l)) / 64)); lia. }
    rewrite IH by (rewrite Hk'; lia). rewrite Hk', <- app_assoc. f_equal.
    replace (Z.to_nat ((56 - Z.of_nat (length l)) mod 64))
      with (S (Z.to_nat ((56 - Z.of_nat (length l)) mod 64 - 1))) by lia.
    reflexivity.
Qed.

(** The last loop of [_sm3_hash] runs over the chunks of the padded tail. *)
Lemma foldM_slices (L : list Z) (reg : list Z) :
  foldM (fun reg i => _sm3_compress reg (slice L i (i + 64))) reg
        (range_step 0 (length L) 64)
  = foldM _sm3_compress reg (chunks64 L).
Proof. unfold chunks64. apply foldM_map. Qed.

(** The padded tail of [_sm3_hash] is the last chunk followed by the
    padding of the specification. *)
Lemma sm3_hash_unfold (data : list Z) :
  _sm3_hash data =
    let chunks := match chunks64 data with [] => [[]] | _ => chunks64 data end in
    reg ← foldM _sm3_compress _SM3_IV (removelast chunks);
    reg ← foldM _sm3_compress reg
      (chunks64 (List.last chunks [] ++ [0x80]
         ++ replicate (Z.to_nat ((55 - Z.of_nat (length (List.last chunks []))) mod 64)) 0
         ++ be64 (8 * Z.of_nat (length data))));
    Some (reg_bytes reg).
Proof.
  unfold _sm3_hash. cbv zeta.
  set (chunks := match chunks64 data with [] => [[]] | _ => chunks64 data end).
  destruct (foldM _sm3_compress _SM3_IV (removelast chunks)) as [reg |]; [| reflexivity].
  bind_simpl.
  rewrite pad_loop_56.
  2:{ pose proof (Z.mod_pos_bound (56 - Z.of_nat (length (List.last chunks [] ++ [128]))) 64
                   ltac:(lia)). lia. }
  bind_simpl. cbn [foldl]. rewrite foldM_slices.
  rewrite length_app. simpl length.
  replace (56 - Z.of_nat (length (List.last chunks []) + 1))
    with (55 - Z.of_nat (length (List.last chunks []))) by lia.
  unfold be64. cbn [map]. rewrite <- !app_assoc. reflexivity.
Qed.

Lemma chunks64_full (m : nat) : forall L : list Z,
  length L = (64 * m)%nat -> Forall (fun blk => length blk = 64%nat) (chunks64 L).
Proof.
  induction m as [| m IH]; intros L HL.
  - destruct L; [constructor | discriminate].
  - rewrite chunks64_cons by (destruct L; [discriminate | discriminate]).
    constructor; [rewrite length_take; lia |].
    apply IH. rewrite length_drop. lia.
Qed.

Lemma sm3_pad_spec_length (msg : list Z) :
  exists m, length (sm3_pad_spec msg) = (64 * m)%nat.
Proof.
  unfold sm3_pad_spec. rewrite !length_app, length_replicate. simpl length.
  pose proof (Z.div_mod (55 - Z.of_nat (length msg)) 64 ltac:(lia)) as Hdm.
  pose proof (Z.mod_pos_bound (55 - Z.of_nat (length msg)) 64 ltac:(lia)) as Hk.
  exists (Z.to_nat (1 - (55 - Z.of_nat (length msg)) / 64)). lia.
Qed.

Lemma reg_bytes_shape (reg : list Z) :
  length reg = 8%nat -> length (reg_bytes reg) = 32%nat /\ is_bytes (reg_bytes reg).
Proof.
  intros Hlen. do 9 (destruct reg as [| ? reg]; try discriminate Hlen).
  split; [reflexivity |]. unfold reg_bytes, is_bytes. simpl.
  repeat (constructor; [apply (land_bound _ 255 8); lia |]). constructor.
Qed.

(** [_sm3_hash] pads as the specification says, on every byte sequence,
    and never raises. *)
Lemma sm3_hash_standard (data : list Z) :
  _sm3_hash data = sm3_spec data /\
  exists digest, _sm3_hash data = Some digest /\ length digest = 32%nat /\ is_bytes digest.
Proof.
  assert (Eq : _sm3_hash data = sm3_spec data).
  { rewrite sm3_hash_unfold. cbv zeta. unfold sm3_spec, sm3_pad_spec.
    destruct data as [| x data'] eqn:Edata.
    - reflexivity.
    - rewrite <- Edata.
      destruct (chunks64_split (length data) data (Nat.le_refl _))
        as (Hfull & Hcat & Hlast & Hne); [subst; discriminate |].
      destruct (chunks64 data) as [| c cs] eqn:Ec; [congruence |].
      set (pre := removelast (c :: cs)) in *. set (last := List.last (c :: cs) []) in *.
      assert (Hmod : (55 - Z.of_nat (length data)) mod 64
                     = (55 - Z.of_nat (length last)) mod 64).
      { assert (Hpre : exists m, length (List.concat pre) = (64 * m)%nat).
        { clear -Hfull. induction Hfull as [| blk blks Hb _ [m IH]].
          - exists 0%nat. reflexivity.
          - exists (S m). simpl. rewrite length_app, IH, Hb. lia. }
        destruct Hpre as [m Hm].
        rewrite Hcat at 1. rewrite length_app, Hm.
        replace (55 - Z.of_nat (64 * m + length last))
          with (55 - Z.of_nat (length last) + (- Z.of_nat m) * 64) by lia.
        apply Z.mod_add. lia. }
      rewrite Hmod.
      assert (Hd : forall X, data ++ X = List.concat pre ++ (last ++ X)).
      { intros X. rewrite app_assoc. now rewrite <- Hcat. }
      rewrite Hd.
      rewrite chunks64_blocks by assumption. rewrite foldM_app.
      destruct (foldM _sm3_compress _SM3_IV pre) as [reg |]; [| reflexivity].
      bind_simpl. destruct (foldM _sm3_compress reg _); reflexivity. }
  split; [exact Eq |]. rewrite Eq. unfold sm3_spec.
  assert (Hblocks : Forall (fun blk => (64 <= length blk)%nat) (chunks64 (sm3_pad_spec data))).
  { destruct (sm3_pad_spec_length data) as [m Hm].
    eapply Forall_impl; [exact (chunks64_full m _ Hm) |]. simpl. intros; lia. }
  destruct (sm3_blocks_total _ _SM3_IV eq_refl Hblocks) as (reg & -> & Hreg).
  exists (reg_bytes reg). split; [reflexivity |]. now apply reg_bytes_shape.
Qed.

(** The loop [while len(last) < 60: last.append(0)]. *)
Lemma pad_loop_60 (fuel : nat) : forall l : list Z,
  (60 - length l < fuel)%nat ->
  while fuel (fun l => (length l <? 60)%nat) (fun l => l ++ [0]) l
  = Some (l ++ replicate (60 - length l) 0).
Proof.
  induction fuel as [| fuel IH]; intros l Hfuel; [lia |].
  cbn [while]. destruct (Nat.ltb_spec (length l) 60) as [Hlt | Hge].
  - rewrite IH by (rewrite length_app; simpl; lia).
    rewrite length_app, <- app_assoc. simpl length. f_equal.
    replace (60 - length l)%nat with (S (60 - (length l + 1))) by lia. reflexivity.
  - replace (60 - length l)%nat with 0%nat by lia. simpl. now rewrite app_nil_r.
Qed.

Lemma sm3_compress_length (reg block reg' : list Z) :
  _sm3_compress reg block = Some reg' -> length reg' = 8%nat.
Proof.
  unfold _sm3_compress.
  destruct ((length block <? 64)%nat || (length reg <? 8)%nat); [discriminate |].
  intros E.
  apply (f_equal (fun o => match o with Some l => length l | None => 8%nat end)) in E.
  rewrite length_map, length_seq in E. now symmetry.
Qed.

(** The 32 bytes [_sm3_sum] writes from the register are those of
    [reg_bytes]. *)
Lemma sm3_sum_bytes (reg : list Z) :
  length reg = 8%nat -> sm3_sum_output reg = reg_bytes reg.
Proof.
  intros Hlen. do 9 (destruct reg as [| ? reg]; try discriminate Hlen).
  unfold reg_bytes, sm3_sum_output. simpl.
  rewrite !Z.shiftr_shiftr by lia. simpl Z.add.
  rewrite !(Z.land_comm 255). rewrite !Z.shiftr_0_r. reflexivity.
Qed.

(** What [_sm3_sum] computes: the full chunks but the last, then ONE block,
    the first 64 bytes of the last chunk followed by [0x80], zeros up to 60
    bytes and the bit length on 4 bytes. *)
Lemma sm3_sum_unfold (data : pystr) :
  _sm3_sum data =
    let chunks := match chunks64 data with [] => [[]] | _ => chunks64 data end in
    let last := List.last chunks [] in
    reg ← foldM _sm3_compress _SM3_IV (removelast chunks);
    reg ← _sm3_compress reg
      (last ++ [128] ++ replicate (59 - length last) 0
            ++ drop 4 (be64 (8 * Z.of_nat (length data))));
    Some (reg_bytes reg).
Proof.
  unfold _sm3_sum. cbv zeta.
  set (chunks := match chunks64 data with [] => [[]] | _ => chunks64 data end).
  destruct (foldM _sm3_compress _SM3_IV (removelast chunks)) as [reg |]; [| reflexivity].
  bind_simpl. rewrite pad_loop_60 by lia. bind_simpl. cbn [foldl].
  rewrite length_app. simpl length.
  replace (60 - (length (List.last chunks []) + 1))%nat
    with (59 - length (List.last chunks []))%nat by lia.
  unfold be64. cbn [map drop]. rewrite <- !app_assoc.
  change (8 * (3 - 0)) with (8 * 3). change (8 * (3 - 1)) with (8 * 2).
  change (8 * (3 - 2)) with (8 * 1). change (8 * (3 - 3)) with (8 * 0).
  cbn [app].
  destruct (_sm3_compress reg _) as [reg' |] eqn:E; [| reflexivity].
  bind_simpl. f_equal. apply sm3_sum_bytes. exact (sm3_compress_length _ _ _ E).
Qed.

(** [_sm3_sum] never raises, and returns 32 bytes. *)
Lemma sm3_sum_total (data : pystr) :
  exists digest, _sm3_sum data = Some digest /\ length digest = 32%nat /\ is_bytes digest.
Proof.
  rewrite sm3_sum_unfold. cbv zeta.
  set (chunks := match chunks64 data with [] => [[]] | _ => chunks64 data end).
  assert (Hpre : Forall (fun blk => (64 <= length blk)%nat) (removelast chunks)).
  { unfold chunks. destruct data as [| x data'] eqn:Ed; [constructor |].
    rewrite <- Ed.
    destruct (chunks64_split (length data) data (Nat.le_refl _))
      as (Hfull & _ & _ & Hne); [subst; discriminate |].
    destruct (chunks64 data); [congruence |].
    eapply Forall_impl; [exact Hfull |]. simpl. intros; lia. }
  destruct (sm3_blocks_total _ _SM3_IV eq_refl Hpre) as (reg & -> & Hreg).
  bind_simpl.
  destruct (sm3_compress_total reg
              (List.last chunks [] ++ [128] ++ replicate (59 - length (List.last chunks [])) 0
                 ++ drop 4 (be64 (8 * Z.of_nat (length data)))))
    as (reg' & -> & Hreg' & _).
  { lia. }
  { rewrite !length_app, length_replicate. simpl length. lia. }
  bind_simpl. exists (reg_bytes reg'). split; [reflexivity |]. now apply reg_bytes_shape.
Qed.

(** On a message whose last chunk leaves room for the padding in one block
    (a length modulo 64 below 56) and whose bit length fits 32 bits,
    [_sm3_sum] is SM3. *)
Lemma sm3_sum_standard_short (data : pystr) :
  data = [] \/ 1 <= Z.of_nat (length data) mod 64 <= 55 ->
  Z.of_nat (length data) < 2 ^ 29 ->
  _sm3_sum data = sm3_spec data.
Proof.
  intros Hmod Hsize.
  rewrite sm3_sum_unfold. cbv zeta. unfold sm3_spec, sm3_pad_spec.
  assert (Hbe : be64 (8 * Z.of_nat (length data))
                = [0; 0; 0; 0] ++ drop 4 (be64 (8 * Z.of_nat (length data)))).
  { unfold be64. cbn [map drop app].
    assert (Hz : forall i, 32 <= i -> (8 * Z.of_nat (length data)) .>> i .& 255 = 0).
    { intros i Hi. rewrite (shiftr_small _ i); [reflexivity | lia |].
      split; [lia |]. apply Z.lt_le_trans with (2 ^ 32); [lia |].
      apply Z.pow_le_mono_r; lia. }
    rewrite !Hz by lia. reflexivity. }
  destruct data as [| x data'] eqn:Edata.
  - vm_compute. reflexivity.
  - destruct Hmod as [Habs | Hmod]; [discriminate |].
    rewrite <- Edata in *.
    destruct (chunks64_split (length data) data (Nat.le_refl _))
      as (Hfull & Hcat & Hlast & Hne); [subst; discriminate |].
    destruct (chunks64 data) as [| c cs] eqn:Ec; [congruence |].
    set (pre := removelast (c :: cs)) in *. set (last := List.last (c :: cs) []) in *.
    assert (Hpre : exists m, length (List.concat pre) = (64 * m)%nat).
    { clear -Hfull. induction Hfull as [| blk blks Hb _ [m IH]].
      - exists 0%nat. reflexivity.
      - exists (S m). simpl. rewrite length_app, IH, Hb. lia. }
    destruct Hpre as [m Hm].
    assert (Hlen : length data = (64 * m + length last)%nat).
    { rewrite Hcat at 1. now rewrite length_app, Hm. }
    assert (Hmod' : Z.of_nat (length data) mod 64 = Z.of_nat (length last) mod 64).
    { rewrite Hlen.
      replace (Z.of_nat (64 * m + length last))
        with (Z.of_nat (length last) + Z.of_nat m * 64) by lia.
      apply Z.mod_add. lia. }
    assert (Hl : (length last <= 55)%nat).
    { rewrite Hmod' in Hmod.
      destruct (Nat.eq_dec (length last) 64%nat) as [E64 | N64].
      - rewrite E64 in Hmod. change (Z.of_nat 64 mod 64) with 0 in Hmod. lia.
      - rewrite Z.mod_small in Hmod by lia. lia. }
    assert (Hk : Z.to_nat ((55 - Z.of_nat (length data)) mod 64) = (55 - length last)%nat).
    { replace (55 - Z.of_nat (length data))
        with (55 - Z.of_nat (length last) + (- Z.of_nat m) * 64) by lia.
      rewrite Z.mod_add by lia. rewrite Z.mod_small by lia. lia. }
    rewrite Hk.
    assert (Hd : forall X, data ++ X = List.concat pre ++ (last ++ X)).
    { intros X. rewrite app_assoc. now rewrite <- Hcat. }
    rewrite Hd, chunks64_blocks by assumption. rewrite foldM_app.
    destruct (foldM _sm3_compress _SM3_IV pre) as [reg |]; [| reflexivity].
    bind_simpl.
    replace (last ++ [128] ++ replicate (55 - length last) 0 ++ be64 (8 * Z.of_nat (length data)))
      with ((last ++ [128] ++ replicate (59 - length last) 0
               ++ drop 4 (be64 (8 * Z.of_nat (length data)))) ++ []).
    2:{ rewrite app_nil_r.
        set (D := drop 4 (be64 (8 * Z.of_nat (length data)))) in *. rewrite Hbe.
        replace (59 - length last)%nat with ((55 - length last) + 4)%nat by lia.
        rewrite replicate_add. cbn [replicate]. rewrite <- !app_assoc. reflexivity. }
    rewrite chunks64_block.
    2:{ rewrite !length_app, length_replicate. unfold be64. simpl length. lia. }
    rewrite chunks64_nil. cbn [foldM].
    destruct (_sm3_compress reg _); reflexivity.
Qed.

(** C2. [_sm3_hash] pads as the specification says on every byte sequence
    ([sm3_hash_standard]), and so does [_sm3_sum] while the last chunk is
    shorter than 56 bytes ([sm3_sum_standard_short]). On a longer last chunk
    [_sm3_sum] compresses a single block, which no longer holds the padding:
    for the 139-character user agent below, whose encoded form has 188
    characters, and for the 64-byte reference message ["abcd" * 16], its
    digest is not the SM3 digest. *)
Theorem sm3_sum_not_standard :
  let ua := lit "Mozilla/5.0 (iPhone; CPU iPhone OS 17_1_1 like Mac OS X) AppleWebKit/605.1.15 (KHTML, like Gecko) Version/17.1.1 Mobile/15E148 Safari/604.1" in
  let abcd16 := lit "abcdabcdabcdabcdabcdabcdabcdabcdabcdabcdabcdabcdabcdabcdabcdabcd" in
  (exists ua_rc4 ua_b64,
     _rc4 ua [0; 1; 14] = Some ua_rc4 /\ _custom_b64 ua_rc4 "s3" = Some ua_b64 /\
     length ua_b64 = 188%nat /\ is_bytes ua_b64 /\
     _sm3_hash ua_b64 = sm3_spec ua_b64 /\
     _sm3_sum ua_b64 <> sm3_spec ua_b64 /\
     _sm3_sum ua_b64 <> _sm3_hash ua_b64) /\
  hexlify <$> _sm3_hash abcd16
    = Some (lit "debe9ff92275b8a138604889c18e5a4d6fdb70e5387e5765293dcba39c0c5732") /\
  hexlify <$> _sm3_sum abcd16
    = Some (lit "5950de81468664eb42fd4c861e7ca00ac0a5910bae9a55ea1adb8d17763ca222") /\
  _sm3_sum abcd16 <> sm3_spec abcd16.
Proof.
  cbv zeta. split; [| split; [| split]].
  - eexists _, _. split; [vm_compute; reflexivity |].
    split; [vm_compute; reflexivity |].
    split; [reflexivity |]. split; [apply lit_bytes_check; reflexivity |].
    split; [apply sm3_hash_standard |]. split; vm_compute; discriminate.
  - vm_compute. reflexivity.
  - vm_compute. reflexivity.
  - vm_compute. discriminate.
Qed.

(** ** The stream cipher *)

Lemma sbox_init : sbox (seqZ 0 256).
Proof.
  split; [reflexivity |]. apply Forall_forall. intros x Hx.
  apply elem_of_seqZ in Hx. lia.
Qed.

Lemma sbox_index (s : list Z) (i : Z) :
  sbox s -> 0 <= i < 256 -> exists x, py_index s i = Some x /\ 0 <= x < 256.
Proof.
  intros [Hlen Hall] Hi.
  destruct (py_index_is_Some s i) as [x Hx]; [lia |].
  exists x. split; [assumption |]. exact (py_index_Forall _ _ _ _ Hall Hx).
Qed.

Lemma swap_sbox (s : list Z) (i j : Z) :
  sbox s -> 0 <= i < 256 -> 0 <= j < 256 ->
  exists s', swap s i j = Some s' /\ sbox s'.
Proof.
  intros Hs Hi Hj. unfold swap.
  destruct (sbox_index s j Hs Hj) as (sj & -> & Hsj).
  destruct (sbox_index s i Hs Hi) as (si & -> & Hsi). simpl.
  eexists. split; [reflexivity |]. destruct Hs as [Hlen Hall].
  split; [now rewrite !length_insert |].
  apply Forall_insert; [apply Forall_insert |]; assumption.
Qed.

(** The key schedule succeeds on every non-empty key and leaves a table. *)
Lemma rc4_ksa_sbox (key : pystr) :
  key <> [] -> exists s, rc4_ksa key = Some s /\ sbox s.
Proof.
  intros Hkey. unfold rc4_ksa.
  destruct (foldM_invariant (fun st => sbox (fst st) /\ 0 <= snd st < 256)
              (rc4_ksa_step key) (seqZ 0 256)) with (st := (seqZ 0 256, 0))
    as ([s j] & -> & Hs & _).
  - intros [s j] i [Hs Hj] Hi. simpl in Hs, Hj. apply in_seqZ in Hi.
    unfold rc4_ksa_step.
    destruct (sbox_index s i Hs) as (si & -> & Hsi); [lia |]. simpl.
    destruct key as [| k0 key']; [congruence |].
    change (length (k0 :: key') =? 0)%nat with false. cbv iota.
    destruct (py_index_is_Some (k0 :: key') (i mod Z.of_nat (length (k0 :: key'))))
      as [k ->].
    { apply Z.mod_pos_bound. simpl length. lia. }
    simpl.
    destruct (swap_sbox s i ((j + si + k) mod 256) Hs) as (s' & -> & Hs');
      [lia | apply Z.mod_pos_bound; lia |].
    simpl. eexists. split; [reflexivity |]. simpl.
    split; [assumption | apply Z.mod_pos_bound; lia].
  - split; [apply sbox_init | simpl; lia].
  - simpl. eauto.
Qed.

(** XOR with a keystream byte leaves the bits above the low eight. *)
Lemma lxor_byte_high (k p : Z) : 0 <= k < 256 -> (k .^ p) .>> 8 = p .>> 8.
Proof.
  intros Hk. rewrite Z.shiftr_lxor.
  replace (k .>> 8) with 0; [apply Z.lxor_0_l |].
  rewrite Z.shiftr_div_pow2 by lia. symmetry. apply Z.div_small. simpl. lia.
Qed.

Lemma lxor_byte_codepoint (k p : Z) :
  0 <= k < 256 -> 0 <= p < 0x110000 -> 0 <= (k .^ p) < 0x110000.
Proof.
  intros Hk Hp.
  assert (Hnn : 0 <= k .^ p) by (apply Z.lxor_nonneg; lia).
  split; [assumption |].
  pose proof (lxor_byte_high k p Hk) as Hhigh.
  rewrite !Z.shiftr_div_pow2 in Hhigh by lia. change (2 ^ 8) with 256 in Hhigh.
  pose proof (Z.div_mod (k .^ p) 256 ltac:(lia)).
  pose proof (Z.mod_pos_bound (k .^ p) 256 ltac:(lia)).
  pose proof (Z.div_mod p 256 ltac:(lia)).
  pose proof (Z.mod_pos_bound p 256 ltac:(lia)).
  assert (p / 256 < 0x1100) by (apply Z.div_lt_upper_bound; lia).
  lia.
Qed.

Lemma chr_codepoint (c : Z) : 0 <= c < 0x110000 -> chr c = Some c.
Proof.
  intros Hc. unfold chr.
  destruct (Z.leb_spec 0 c); [| lia]. destruct (Z.ltb_spec c 0x110000); [reflexivity | lia].
Qed.

(** One turn of the generator yields a keystream byte [k] and a next state
    that do not depend on the plaintext character, which is XORed with [k]. *)
Lemma rc4_step_keystream (st : Z * Z * list Z) :
  prga_state st ->
  exists st' k, prga_state st' /\ 0 <= k < 256 /\
    forall p, 0 <= p < 0x110000 -> rc4_step st p = Some (st', k .^ p).
Proof.
  destruct st as [[i j] s]. intros (Hi & Hj & Hs).
  assert (Hi' : 0 <= (i + 1) mod 256 < 256) by (apply Z.mod_pos_bound; lia).
  destruct (sbox_index s _ Hs Hi') as (si & Esi & Hsi).
  assert (Hj' : 0 <= (j + si) mod 256 < 256) by (apply Z.mod_pos_bound; lia).
  destruct (swap_sbox s _ _ Hs Hi' Hj') as (s' & Es' & Hs').
  destruct (sbox_index s' _ Hs' Hi') as (si' & Esi' & Hsi').
  destruct (sbox_index s' _ Hs' Hj') as (sj' & Esj' & Hsj').
  assert (Hk : 0 <= (si' + sj') mod 256 < 256) by (apply Z.mod_pos_bound; lia).
  destruct (sbox_index s' _ Hs' Hk) as (k & Ek & Hkb).
  exists ((i + 1) mod 256, (j + si) mod 256, s'), k.
  split; [simpl; auto |]. split; [assumption |].
  intros p Hp. unfold rc4_step.
  rewrite Esi. simpl. rewrite Es'. simpl. rewrite Esi'. simpl. rewrite Esj'. simpl.
  rewrite Ek. simpl.
  rewrite chr_codepoint by (apply lxor_byte_codepoint; assumption).
  reflexivity.
Qed.

(** Running the generator over a text: same length, code points again, the
    high bits of each character untouched, and a second run from the same
    state gives the text back. *)
Lemma rc4_prga_involution (P : pystr) :
  wf_str P -> forall st, prga_state st ->
  exists C, rc4_prga st P = Some C /\ length C = length P /\ wf_str C /\
            Forall2 (fun p c => c .>> 8 = p .>> 8) P C /\
            rc4_prga st C = Some P.
Proof.
  induction 1 as [| p P Hp HP IH]; intros st Hst.
  - exists []. simpl. repeat split; constructor.
  - destruct (rc4_step_keystream st Hst) as (st' & k & Hst' & Hk & Hstep).
    destruct (IH st' Hst') as (C & EC & Hlen & HwfC & Hhigh & Eback).
    pose proof (lxor_byte_codepoint k p Hk Hp) as Hc.
    exists (k .^ p :: C). simpl.
    rewrite (Hstep p Hp). simpl. rewrite EC. simpl.
    rewrite (Hstep (k .^ p) Hc). simpl. rewrite Eback. simpl.
    replace (k .^ (k .^ p)) with p
      by (rewrite <- Z.lxor_assoc, Z.lxor_nilpotent, Z.lxor_0_l; reflexivity).
    repeat split; try reflexivity.
    + now rewrite Hlen.
    + constructor; assumption.
    + constructor; [apply lxor_byte_high; assumption | assumption].
Qed.

(** The cipher never raises on a text and a non-empty key. *)
Lemma rc4_total (P K : pystr) :
  wf_str P -> K <> [] ->
  exists C, _rc4 P K = Some C /\ length C = length P /\ wf_str C /\
            Forall2 (fun p c => c .>> 8 = p .>> 8) P C /\ _rc4 C K = Some P.
Proof.
  intros HP HK. unfold _rc4.
  destruct (rc4_ksa_sbox K HK) as (s & -> & Hs). simpl.
  apply rc4_prga_involution; [assumption |]. simpl. repeat split; try lia; apply Hs.
Qed.

(** C3. The cipher is an involution under a fixed non-empty key: on every
    text [P] it returns a text of the same length, and applying it again
    with the same key returns [P]. *)
Theorem rc4_involution (P K : pystr) :
  wf_str P -> K <> [] ->
  exists C, _rc4 P K = Some C /\ length C = length P /\
            exists P', _rc4 C K = Some P' /\ length P' = length C /\ P' = P.
Proof.
  intros HP HK.
  destruct (rc4_total P K HP HK) as (C & EC & Hlen & _ & _ & Eback).
  exists C. repeat split; [assumption .. |].
  exists P. repeat split; [assumption | now rewrite Hlen].
Qed.

Lemma rc4_involution_witness :
  wf_str (lit "Mozilla/5.0") /\ lit "y" <> [] /\
  exists C, _rc4 (lit "Mozilla/5.0") (lit "y") = Some C /\
            length C = length (lit "Mozilla/5.0") /\
            exists P', _rc4 C (lit "y") = Some P' /\ length P' = length C /\
                       P' = lit "Mozilla/5.0".
Proof.
  assert (Hwf : wf_str (lit "Mozilla/5.0")) by apply wf_str_lit.
  assert (Hk : lit "y" <> []) by discriminate.
  split; [exact Hwf |]. split; [exact Hk |].
  exact (rc4_involution (lit "Mozilla/5.0") (lit "y") Hwf Hk).
Defined.

(** C7, as the code has it: the cipher has no range check. On a text with a
    character above 255 and a non-empty key it answers, with a text of the
    same length in which every character keeps the bits above the low eight
    of its input, so that the answer too has a character above 255. *)
Theorem rc4_out_of_range_passes_through (P K : pystr) :
  wf_str P -> K <> [] -> Exists (fun p => 255 < p) P ->
  exists C, _rc4 P K = Some C /\ length C = length P /\
            Forall2 (fun p c => c .>> 8 = p .>> 8) P C /\
            Exists (fun c => 255 < c) C.
Proof.
  intros HP HK Hbig.
  destruct (rc4_total P K HP HK) as (C & EC & Hlen & HwfC & Hhigh & _).
  exists C. repeat split; try assumption.
  clear EC Hlen. induction Hhigh as [| p c P C Hpc Hrest IH].
  - inversion Hbig.
  - inversion HP; inversion HwfC; subst.
    inversion Hbig as [? ? Hp | ? ? Hin]; subst.
    + left. rewrite !Z.shiftr_div_pow2 in Hpc by lia. change (2 ^ 8) with 256 in Hpc.
      destruct (Z.le_gt_cases c 255) as [Hle | Hgt]; [| lia].
      rewrite (Z.div_small c 256) in Hpc by lia.
      assert (0 < p / 256) by (apply Z.div_str_pos; lia). lia.
    + right. apply IH; assumption.
Qed.

Lemma rc4_out_of_range_passes_through_witness :
  exists C, _rc4 [0x4E2D; 0x6587] (lit "y") = Some C /\ length C = 2%nat /\
            Forall2 (fun p c => c .>> 8 = p .>> 8) [0x4E2D; 0x6587] C /\
            Exists (fun c => 255 < c) C.
Proof.
  apply (rc4_out_of_range_passes_through [0x4E2D; 0x6587] (lit "y")).
  - repeat constructor; lia.
  - discriminate.
  - left. lia.
Defined.

(** The claim C7 fails on the one-character text U+4E2D with the key ["y"]:
    the cipher neither raises nor answers with bytes. *)
Lemma rc4_out_of_range_counterexample :
  Exists (fun p => ~ 0 <= p <= 255) [0x4E2D] /\
  _rc4 [0x4E2D] (lit "y") = Some [0x4E68] /\
  ~ rejects_or_normalizes [0x4E2D] (lit "y").
Proof.
  assert (E : _rc4 [0x4E2D] (lit "y") = Some [0x4E68]) by (vm_compute; reflexivity).
  split; [left; lia |]. split; [exact E |].
  intros [Hnone | (C & HC & Hbytes)]; rewrite E in *; [discriminate |].
  injection HC as <-. inversion Hbytes; subst. lia.
Qed.

(** ** The fixed-length encoder *)

Lemma is_hex_char_In (c : Z) : is_hex_char c -> In c hex_chars.
Proof.
  intros Hc.
  assert (c = 48 \/ c = 49 \/ c = 50 \/ c = 51 \/ c = 52 \/ c = 53 \/ c = 54 \/
          c = 55 \/ c = 56 \/ c = 57 \/ c = 97 \/ c = 98 \/ c = 99 \/ c = 100 \/
          c = 101 \/ c = 102) as H by (unfold is_hex_char in Hc; lia).
  repeat (destruct H as [-> | H]; [simpl; tauto |]). subst. simpl. tauto.
Qed.

Lemma is_hex_forallb (n : pystr) : forallb is_hex_charb n = true -> Forall is_hex_char n.
Proof.
  intros H. apply Forall_forall. intros c Hc. apply list_elem_of_In in Hc.
  rewrite forallb_forall in H. specialize (H c Hc).
  unfold is_hex_charb in H. unfold is_hex_char. lia.
Qed.

Lemma quad_ok_hex :
  forallb (fun o => forallb (fun g => forallb (quad_ok o g) (0 :: hex_chars)) hex_chars)
          hex_chars = true.
Proof. vm_compute. reflexivity. Qed.

Lemma xhs_h_quad_hex (o g h : Z) :
  is_hex_char o -> is_hex_char g -> is_hex_char h \/ h = 0 ->
  exists q, xhs_h_quad o g h = Some q /\ length q = 4%nat /\
            Forall (fun c => In c xhs_h_d) q.
Proof.
  intros Ho Hg Hh.
  pose proof quad_ok_hex as Hall.
  rewrite forallb_forall in Hall. specialize (Hall o (is_hex_char_In o Ho)).
  rewrite forallb_forall in Hall. specialize (Hall g (is_hex_char_In g Hg)).
  rewrite forallb_forall in Hall. specialize (Hall h).
  assert (Hin : In h (0 :: hex_chars)).
  { destruct Hh as [Hh | ->]; [right; now apply is_hex_char_In | now left]. }
  specialize (Hall Hin). unfold quad_ok in Hall.
  destruct (xhs_h_quad o g h) as [q |]; [| discriminate].
  apply andb_true_iff in Hall as [Hlen Hmem].
  exists q. split; [reflexivity |]. split; [now apply Nat.eqb_eq |].
  apply Forall_forall. intros c Hc. apply list_elem_of_In in Hc.
  rewrite forallb_forall in Hmem. specialize (Hmem c Hc).
  apply existsb_exists in Hmem as (c' & Hc' & Heq).
  apply Z.eqb_eq in Heq. now subst.
Qed.

Lemma xhs_h_step_group (n : pystr) (i : Z) :
  length n = 32%nat -> Forall is_hex_char n ->
  In i (map Z.of_nat (range_step 0 32 3)) ->
  exists q, xhs_h_group n i q /\ forall m, xhs_h_step n m i = Some (m ++ q).
Proof.
  intros Hlen Hhex Hi.
  assert (Hget : forall j, 0 <= j < 32 -> exists c, py_index n j = Some c /\ is_hex_char c).
  { intros j Hj. destruct (py_index_is_Some n j) as [c Hc]; [lia |].
    exists c. split; [assumption |]. exact (py_index_Forall _ _ _ _ Hhex Hc). }
  assert (Hi' : 0 <= i <= 30 /\ ((i + 2 <? 32) = false -> (i + 1 <? 32) = true)).
  { change (map Z.of_nat (range_step 0 32 3)) with [0; 3; 6; 9; 12; 15; 18; 21; 24; 27; 30] in Hi.
    simpl in Hi. repeat (destruct Hi as [<- | Hi]; [split; [lia | intros _; reflexivity || lia] |]).
    contradiction. }
  destruct Hi' as [Hrange Hlast].
  destruct (Hget i) as (o & Eo & Ho); [lia |].
  assert (E1 : (i + 1 <? 32) = true) by (apply Z.ltb_lt; lia).
  destruct (Hget (i + 1)) as (g & Eg & Hg); [lia |].
  unfold xhs_h_step, xhs_h_group. rewrite Eo, E1, Eg. bind_simpl.
  destruct (i + 2 <? 32) eqn:E2.
  - apply Z.ltb_lt in E2. destruct (Hget (i + 2)) as (h & Eh & Hh); [lia |].
    destruct (xhs_h_quad_hex o g h Ho Hg (or_introl Hh)) as (q & Eq & Hq).
    exists q. split; [exists o, g, h; repeat split; tauto |].
    intros m. rewrite Eh. bind_simpl. rewrite Eq. reflexivity.
  - destruct (xhs_h_quad_hex o g 0 Ho Hg (or_intror eq_refl)) as (q & Eq & Hq).
    exists q. split; [exists o, g, 0; repeat split; tauto |].
    intros m. bind_simpl. rewrite Eq. reflexivity.
Qed.

(** The loop of [_xhs_h] on a digest: one group per index. *)
Lemma xhs_h_loop (n : pystr) :
  length n = 32%nat -> Forall is_hex_char n ->
  exists groups,
    Forall2 (xhs_h_group n) [0; 3; 6; 9; 12; 15; 18; 21; 24; 27; 30] groups /\
    _xhs_h n = Some (List.concat groups).
Proof.
  intros Hlen Hhex.
  destruct (foldM_append (xhs_h_group n) (xhs_h_step n)
              (map Z.of_nat (range_step 0 32 3))
              (fun i Hi => xhs_h_step_group n i Hlen Hhex Hi) [])
    as (groups & Hgroups & E).
  exists groups. split; [exact Hgroups | exact E].
Qed.

Lemma xhs_h_groups_chars (n : pystr) (idxs : list Z) (groups : list pystr) :
  Forall2 (xhs_h_group n) idxs groups ->
  length (List.concat groups) = (4 * length idxs)%nat /\
  Forall (fun c => In c xhs_h_d) (List.concat groups).
Proof.
  induction 1 as [| i q idxs groups Hq _ [IHlen IHin]]; [split; [reflexivity | constructor] |].
  destruct Hq as (o & g & h & _ & _ & _ & _ & Hl & Hm).
  cbn [List.concat]. split.
  - rewrite length_app, Hl, IHlen. simpl length. lia.
  - apply Forall_app. now split.
Qed.

(** [_xhs_h] never raises on a hex digest, and returns 44 characters of
    its table. *)
Lemma xhs_h_total (n : pystr) :
  length n = 32%nat -> Forall is_hex_char n ->
  exists m, _xhs_h n = Some m /\ length m = 44%nat /\ Forall (fun c => In c xhs_h_d) m.
Proof.
  intros Hlen Hhex. destruct (xhs_h_loop n Hlen Hhex) as (groups & Hgroups & E).
  destruct (xhs_h_groups_chars n _ groups Hgroups) as [Hl Hin].
  exists (List.concat groups). split; [exact E |]. split; [exact Hl | exact Hin].
Qed.

(** C6. On every 32-character hexadecimal digest, [_xhs_h] returns 44
    characters, all of its 65-symbol table: eleven groups of four, one per
    index 0, 3, ..., 30, the first ten read three characters of the digest
    each and the last reads only the two characters 30 and 31. *)
Theorem xhs_h_forty_four (n : pystr) :
  length n = 32%nat -> Forall is_hex_char n ->
  exists m groups,
    _xhs_h n = Some m /\ length m = 44%nat /\
    Forall (fun c => In c xhs_h_d) m /\ length xhs_h_d = 65%nat /\
    m = List.concat groups /\ length groups = 11%nat /\
    Forall2 (xhs_h_group n) [0; 3; 6; 9; 12; 15; 18; 21; 24; 27; 30] groups /\
    (forall q, xhs_h_group n 30 q ->
       exists o g, py_index n 30 = Some o /\ py_index n 31 = Some g /\
                   xhs_h_quad o g 0 = Some q).
Proof.
  intros Hlen Hhex.
  destruct (xhs_h_loop n Hlen Hhex) as (groups & Hgroups & E).
  destruct (xhs_h_groups_chars n _ groups Hgroups) as [Hl Hin].
  exists (List.concat groups), groups.
  split; [exact E |]. split; [exact Hl |]. split; [exact Hin |].
  split; [reflexivity |]. split; [reflexivity |].
  split; [symmetry; exact (Forall2_length _ _ _ Hgroups) |].
  split; [exact Hgroups |].
  intros q (o & g & h & Eo & Eg & Eh & Eq & _).
  change (30 + 1 <? 32) with true in Eg. change (30 + 2 <? 32) with false in Eh.
  cbv iota in Eg, Eh. subst h. exists o, g. auto.
Qed.

Lemma xhs_h_forty_four_witness :
  exists m groups,
    _xhs_h (lit "900150983cd24fb0d6963f7d28e17f72") = Some m /\ length m = 44%nat /\
    Forall (fun c => In c xhs_h_d) m /\ length xhs_h_d = 65%nat /\
    m = List.concat groups /\ length groups = 11%nat /\
    Forall2 (xhs_h_group (lit "900150983cd24fb0d6963f7d28e17f72"))
            [0; 3; 6; 9; 12; 15; 18; 21; 24; 27; 30] groups /\
    (forall q, xhs_h_group (lit "900150983cd24fb0d6963f7d28e17f72") 30 q ->
       exists o g, py_index (lit "900150983cd24fb0d6963f7d28e17f72") 30 = Some o /\
                   py_index (lit "900150983cd24fb0d6963f7d28e17f72") 31 = Some g /\
                   xhs_h_quad o g 0 = Some q).
Proof.
  apply (xhs_h_forty_four (lit "900150983cd24fb0d6963f7d28e17f72")).
  - reflexivity.
  - apply is_hex_forallb. reflexivity.
Defined.

Example xhs_h_abc :
  _xhs_h (lit "900150983cd24fb0d6963f7d28e17f72")
  = Some (lit "0gAGsgMG0g9l1iTbOYZJsYTi0g1lZBVvsBUksgV6Ol53").
Proof. vm_compute. reflexivity. Qed.

(** ** The checksum [_mrc] *)

Lemma mrc_table_words :
  length _MRC_TABLE = 256%nat /\ Forall (fun t => 0 <= t < 2 ^ 32) _MRC_TABLE.
Proof.
  split; [reflexivity |].
  apply Forall_forall. intros t Ht. apply list_elem_of_In in Ht.
  assert (H : forallb (fun t => (0 <=? t) && (t <? 2 ^ 32)) _MRC_TABLE = true)
    by (vm_compute; reflexivity).
  rewrite forallb_forall in H. specialize (H t Ht). lia.
Qed.

(** The table is the standard one of CRC-32. *)
Lemma mrc_table_standard : _MRC_TABLE = map crc32_table_entry (seqZ 0 256).
Proof. vm_compute. reflexivity. Qed.

Lemma rws_8 (o : Z) : _rws o 8 = (o mod 2 ^ 32) .>> 8 /\ 0 <= _rws o 8 < 2 ^ 24.
Proof.
  unfold _rws. change 4294967296 with (2 ^ 32).
  pose proof (Z.mod_pos_bound o (2 ^ 32) ltac:(lia)) as Hm.
  assert (Hv : 0 <= (o mod 2 ^ 32) .>> 8 < 2 ^ 24).
  { rewrite Z.shiftr_div_pow2 by lia. split; [apply Z.div_pos; lia |].
    apply Z.div_lt_upper_bound; lia. }
  cbv zeta. change (4294967295 + 1) with (2 ^ 32).
  rewrite Z.mod_small by lia. lia.
Qed.

Lemma mrc_step_word (e : pystr) (o n : Z) :
  is_bytes e -> 0 <= n < Z.of_nat (length e) ->
  exists o', mrc_step e o n = Some o' /\ 0 <= o' < 2 ^ 32.
Proof.
  intros He Hn. unfold mrc_step.
  destruct (py_index_is_Some e n Hn) as [c Ec].
  pose proof (py_index_Forall _ _ _ _ He Ec) as Hc. simpl in Hc.
  rewrite Ec. bind_simpl.
  assert (Hidx : 0 <= (o .& 255) .^ c < 2 ^ 8).
  { apply lxor_bound; [lia | apply land_bound; lia | simpl; lia]. }
  destruct mrc_table_words as [Hlen Hall].
  destruct (py_index_is_Some _MRC_TABLE ((o .& 255) .^ c)) as [t Et].
  { rewrite Hlen. simpl in *. lia. }
  pose proof (py_index_Forall _ _ _ _ Hall Et) as Ht. simpl in Ht.
  rewrite Et. bind_simpl. eexists. split; [reflexivity |].
  destruct (rws_8 o) as [_ Hr].
  apply lxor_bound; [lia | assumption | lia].
Qed.

Lemma mrc_acc_word (e : pystr) :
  is_bytes e -> (57 <= length e)%nat ->
  exists acc, mrc_acc e = Some acc /\ 0 <= acc < 2 ^ 32.
Proof.
  intros He Hlen. unfold mrc_acc.
  change (seqZ 0 57) with (0 :: seqZ 1 56). cbn [foldM].
  destruct (mrc_step_word e (-1) 0 He) as (o1 & -> & Ho1); [lia |].
  apply foldM_invariant; [| assumption].
  intros o n _ Hn. apply in_seqZ in Hn. apply mrc_step_word; [assumption | lia].
Qed.

(** The last line of [_mrc] on an accumulator of 32 bits: the complement of
    its XOR with the constant, a negative number of at most 32 bits. *)
Lemma mrc_final (acc : Z) :
  0 <= acc < 2 ^ 32 ->
  acc .^ (-1) .^ 3988292384 = - (acc .^ 3988292384) - 1 /\
  - 2 ^ 32 <= acc .^ (-1) .^ 3988292384 <= -1.
Proof.
  intros Hacc.
  assert (E : acc .^ (-1) .^ 3988292384 = Z.lnot (acc .^ 3988292384)).
  { rewrite Z.lxor_m1_r. symmetry. apply Z.lnot_lxor_l. }
  rewrite E. unfold Z.lnot.
  pose proof (lxor_bound acc 3988292384 32 ltac:(lia) Hacc ltac:(lia)).
  lia.
Qed.

(** C4, as the code has it. On every 57-character text of 8-bit characters,
    [_mrc] folds the text through the standard CRC-32 table into a 32-bit
    accumulator and answers with [acc XOR -1 XOR 0xEDB88320] (3988292384,
    the CRC-32 polynomial); the 32 low bits of the answer are the complement
    of [acc XOR 0xEDB88320]. *)
Theorem mrc_result (e : pystr) :
  length e = 57%nat -> is_bytes e ->
  exists acc,
    _MRC_TABLE = map crc32_table_entry (seqZ 0 256) /\
    mrc_acc e = Some acc /\ 0 <= acc < 2 ^ 32 /\
    _mrc e = Some (acc .^ (-1) .^ 0xEDB88320) /\
    (acc .^ (-1) .^ 0xEDB88320) mod 2 ^ 32 = 2 ^ 32 - 1 - (acc .^ 0xEDB88320).
Proof.
  intros Hlen He.
  destruct (mrc_acc_word e He ltac:(lia)) as (acc & Eacc & Hacc).
  exists acc. split; [apply mrc_table_standard |].
  split; [assumption |]. split; [assumption |].
  split; [unfold _mrc; rewrite Eacc; reflexivity |].
  change 0xEDB88320 with 3988292384.
  destruct (mrc_final acc Hacc) as [-> _].
  pose proof (lxor_bound acc 3988292384 32 ltac:(lia) Hacc ltac:(lia)) as Hx.
  symmetry. apply (Z.mod_unique _ _ (-1)); lia.
Qed.

Lemma mrc_result_witness :
  exists acc,
    _MRC_TABLE = map crc32_table_entry (seqZ 0 256) /\
    mrc_acc (lit "17000000000000gAGsgMG0g9l1iTbOYZJsYTi0g1lZBVvsBUksgV6Ol53") = Some acc /\
    0 <= acc < 2 ^ 32 /\
    _mrc (lit "17000000000000gAGsgMG0g9l1iTbOYZJsYTi0g1lZBVvsBUksgV6Ol53")
      = Some (acc .^ (-1) .^ 0xEDB88320) /\
    (acc .^ (-1) .^ 0xEDB88320) mod 2 ^ 32 = 2 ^ 32 - 1 - (acc .^ 0xEDB88320).
Proof.
  apply (mrc_result (lit "17000000000000gAGsgMG0g9l1iTbOYZJsYTi0g1lZBVvsBUksgV6Ol53")).
  - reflexivity.
  - apply lit_bytes.
Defined.

(** The claim C4 fails on 57-character texts. On the first, of digits and
    letters, the result is not [acc XOR -1 XOR 0xED59B63A], and the two
    differ in their 32 low bits as well; on the second, whose first
    character is U+0100, the table lookup is out of range and [_mrc]
    raises. *)
Lemma mrc_counterexample :
  let e := lit "17000000000010gAGsgMG0g9l1iTbOYZJsYTi0g1lZBVvsBUksgV6Ol53" in
  let e' := 256 :: lit "00000000000000000000000000000000000000000000000000000000" in
  length e = 57%nat /\ is_bytes e /\
  mrc_acc e = Some 2037821143 /\ _mrc e = Some (-2496540152) /\
  -2496540152 <> 2037821143 .^ (-1) .^ 0xED59B63A /\
  (-2496540152) mod 2 ^ 32 <> (2037821143 .^ (-1) .^ 0xED59B63A) mod 2 ^ 32 /\
  length e' = 57%nat /\ wf_str e' /\ _mrc e' = None.
Proof.
  cbv zeta. split; [reflexivity |]. split; [apply lit_bytes |].
  split; [vm_compute; reflexivity |]. split; [vm_compute; reflexivity |].
  split; [vm_compute; discriminate |]. split; [vm_compute; discriminate |].
  split; [reflexivity |].
  split; [| vm_compute; reflexivity].
  constructor; [lia | apply wf_str_lit].
Qed.

(** The last line of [_mrc] is computed on unbounded integers and is not
    brought back to 32 bits, as [_rws] does for the accumulator: where the
    top bit of the accumulator is clear, the value returned lies below
    [-2^31], and the signed 32-bit integer with the same 32 low bits is
    another one. *)
Lemma mrc_last_step_unwrapped :
  let e := lit "17000000000010gAGsgMG0g9l1iTbOYZJsYTi0g1lZBVvsBUksgV6Ol53" in
  _mrc e = Some (-2496540152) /\
  -2496540152 < - 2 ^ 31 /\
  (-2496540152 + 2 ^ 31) mod 2 ^ 32 - 2 ^ 31 = 1798427144.
Proof.
  cbv zeta. split; [vm_compute; reflexivity |]. split; [lia |].
  vm_compute. reflexivity.
Qed.
(** ** The search identifier *)

Lemma uniform_int_range (rnd : rng) (k : nat) : 0 <= uniform_int rnd k <= 2147483646.
Proof. unfold uniform_int. pose proof (Z.mod_pos_bound (rnd k) 2147483647 ltac:(lia)). lia. Qed.

(** On a clock reading that is not negative the loop ends, and the
    identifier read back in base 36 is [(now_ms << 64) + t]. *)
Lemma search_id_decodes (now_ms : Z) (rnd : rng) :
  0 <= now_ms ->
  exists id, get_xhs_search_id now_ms rnd = Some id /\
             from_base base36 36 id = Some (now_ms * 2 ^ 64 + uniform_int rnd 0).
Proof.
  intros Hnow. unfold get_xhs_search_id. cbv zeta.
  rewrite Z.shiftl_mul_pow2 by lia.
  pose proof (uniform_int_range rnd 0) as Ht.
  set (num := now_ms * 2 ^ 64 + uniform_int rnd 0).
  assert (Hnum : 0 <= num) by (unfold num; nia).
  destruct (to_base_digits base36 36 base36_ok eq_refl num Hnum)
    as (out & Eout & _ & Edec & _).
  unfold to_base in Eout. fold base36.
  destruct (num =? 0); exists out; split; assumption.
Qed.

(** On a negative number the loop never reaches 0, whatever the fuel: the
    source does not return on a clock reading before the epoch. *)
Lemma base_loop_negative (fuel : nat) : forall num result,
  num < 0 -> base_loop fuel base36 36 num result = None.
Proof.
  induction fuel as [| fuel IH]; intros num result Hneg; [reflexivity |].
  cbn [base_loop]. destruct (Z.eqb_spec num 0); [lia |].
  destruct (py_index base36 (num mod 36)); [| reflexivity]. bind_simpl.
  apply IH. apply Z.div_lt_upper_bound; lia.
Qed.

(** C9, as the code has it. For two calls at clock readings
    [0 <= T1 <= T2], the identifiers read back in base 36 are
    [T1 * 2^64 + t1] and [T2 * 2^64 + t2] with [t1], [t2] the two random
    draws: the second is greater when [T1 < T2], and at [T1 = T2] the two
    are ordered as the draws are. *)
Theorem search_id_order (T1 T2 : Z) (rnd1 rnd2 : rng) :
  0 <= T1 -> T1 <= T2 ->
  exists id1 id2 n1 n2,
    get_xhs_search_id T1 rnd1 = Some id1 /\ get_xhs_search_id T2 rnd2 = Some id2 /\
    from_base base36 36 id1 = Some n1 /\ from_base base36 36 id2 = Some n2 /\
    n1 = T1 * 2 ^ 64 + uniform_int rnd1 0 /\ n2 = T2 * 2 ^ 64 + uniform_int rnd2 0 /\
    (T1 < T2 -> n1 < n2) /\
    (T1 = T2 -> (n1 <= n2 <-> uniform_int rnd1 0 <= uniform_int rnd2 0)).
Proof.
  intros H1 H12.
  destruct (search_id_decodes T1 rnd1 H1) as (id1 & E1 & D1).
  destruct (search_id_decodes T2 rnd2 ltac:(lia)) as (id2 & E2 & D2).
  exists id1, id2, (T1 * 2 ^ 64 + uniform_int rnd1 0), (T2 * 2 ^ 64 + uniform_int rnd2 0).
  pose proof (uniform_int_range rnd1 0). pose proof (uniform_int_range rnd2 0).
  repeat split; try assumption; try reflexivity; intros; subst; lia.
Qed.

Lemma search_id_order_witness :
  exists id1 id2 n1 n2,
    get_xhs_search_id 1700000000000 (fun _ => 7) = Some id1 /\
    get_xhs_search_id 1700000000001 (fun _ => 3) = Some id2 /\
    from_base base36 36 id1 = Some n1 /\ from_base base36 36 id2 = Some n2 /\
    n1 = 1700000000000 * 2 ^ 64 + uniform_int (fun _ => 7) 0 /\
    n2 = 1700000000001 * 2 ^ 64 + uniform_int (fun _ => 3) 0 /\
    (1700000000000 < 1700000000001 -> n1 < n2) /\
    (1700000000000 = 1700000000001 ->
       (n1 <= n2 <-> uniform_int (fun _ => 7) 0 <= uniform_int (fun _ => 3) 0)).
Proof.
  apply (search_id_order 1700000000000 1700000000001 (fun _ => 7) (fun _ => 3)); lia.
Defined.

(** The claim C9 fails for two calls in the same millisecond whose draws
    decrease: the timestamps do not decrease, the decoded identifiers do. *)
Lemma search_id_counterexample :
  1700000000000 <= 1700000000000 /\
  get_xhs_search_id 1700000000000 (fun _ => 7) = Some (lit "2CGCM1DSEHH0LHRXP337R") /\
  get_xhs_search_id 1700000000000 (fun _ => 3) = Some (lit "2CGCM1DSEHH0LHRXP337N") /\
  from_base base36 36 (lit "2CGCM1DSEHH0LHRXP337R") = Some 31359464925306237747200000000007 /\
  from_base base36 36 (lit "2CGCM1DSEHH0LHRXP337N") = Some 31359464925306237747200000000003 /\
  ~ (31359464925306237747200000000003 >= 31359464925306237747200000000007).
Proof. repeat split; try (vm_compute; reflexivity); lia. Qed.

(** ** The device identity *)

Lemma choice_In (rnd : rng) (k : nat) (seq : pystr) : seq <> [] -> In (choice rnd k seq) seq.
Proof.
  intros Hne. unfold choice. apply nth_In.
  assert (0 < Z.of_nat (length seq)) by (destruct seq; [congruence | simpl; lia]).
  pose proof (Z.mod_pos_bound (rnd k) (Z.of_nat (length seq)) ltac:(lia)). lia.
Qed.

Lemma rand_str_alnum (rnd : rng) (k n : nat) :
  length (rand_str rnd k n) = n /\ Forall (fun c => In c alnum) (rand_str rnd k n).
Proof.
  unfold rand_str. split; [now rewrite length_map, length_seq |].
  apply Forall_forall. intros c Hc. apply list_elem_of_In, in_map_iff in Hc.
  destruct Hc as (i & <- & _). apply choice_In. discriminate.
Qed.

Lemma rand_str_ascii (rnd : rng) (k n : nat) : is_ascii (rand_str rnd k n).
Proof.
  destruct (rand_str_alnum rnd k n) as [_ H]. eapply Forall_impl; [exact H |].
  simpl. intros c Hc.
  assert (Ha : is_ascii alnum) by (apply lit_ascii_check; reflexivity).
  unfold is_ascii in Ha. rewrite Forall_forall in Ha. apply Ha, list_elem_of_In, Hc.
Qed.

(** C8, as the code has it. For every clock reading and random outcome the
    generator returns [(g, md5_hex(g))] where [g] is the first 52 characters
    of [d + str(crc32(d))], [d] being the hexadecimal clock reading, 30
    random alphanumeric characters and ["50000"]. So [len(g)] is the
    smaller of 52 and [len(d) + len(str(crc32(d)))]: at most 52, and 52 once
    the clock reading has 11 hexadecimal digits and the checksum 6 decimal
    digits. *)
Theorem xhs_cookies_shape (md5_hex : list Z -> pystr) (crc32 : list Z -> Z)
    (now_ms : Z) (rnd : rng) :
  exists d g,
    get_xhs_cookies md5_hex crc32 now_ms rnd = Some (g, md5_hex g) /\
    d = drop 2 (py_hex now_ms) ++ rand_str rnd 0 30 ++ lit "50000" /\
    g = take 52 (d ++ py_str (crc32 d)) /\
    str_encode g = Some g /\
    length g = Nat.min 52 (length d + length (py_str (crc32 d))) /\
    (length g <= 52)%nat /\
    (16 ^ 10 <= now_ms -> 100000 <= crc32 d -> length g = 52%nat).
Proof.
  set (d := drop 2 (py_hex now_ms) ++ rand_str rnd 0 30 ++ lit "50000").
  set (g := take 52 (d ++ py_str (crc32 d))).
  assert (Hd : is_ascii d).
  { unfold d. apply Forall_app. split; [apply Forall_drop, py_hex_ascii |].
    apply Forall_app. split; [apply rand_str_ascii | apply lit_ascii_check; reflexivity]. }
  assert (Hg : is_ascii g).
  { unfold g. apply Forall_take, Forall_app. split; [assumption | apply py_str_ascii]. }
  assert (Hlen : length g = Nat.min 52 (length d + length (py_str (crc32 d)))).
  { unfold g. now rewrite length_take, length_app. }
  exists d, g. split.
  { unfold get_xhs_cookies. fold d. cbv zeta.
    rewrite (str_encode_ascii d Hd). bind_simpl. fold g.
    rewrite (str_encode_ascii g Hg). reflexivity. }
  split; [reflexivity |]. split; [reflexivity |].
  split; [apply str_encode_ascii, Hg |]. split; [exact Hlen |]. split; [lia |].
  intros Hnow Hcrc.
  destruct (py_hex_nonneg now_ms ltac:(lia)) as [Hhex _].
  specialize (Hhex 10 ltac:(lia) Hnow).
  destruct (py_str_nonneg (crc32 d) ltac:(lia)) as (_ & _ & Hdec & _).
  specialize (Hdec 5 ltac:(lia) ltac:(lia)).
  assert (length d = (length (drop 2 (py_hex now_ms)) + 35)%nat).
  { unfold d. rewrite !length_app. destruct (rand_str_alnum rnd 0 30) as [-> _].
    simpl. lia. }
  change (Z.to_nat 10 + 1)%nat with 11%nat in Hhex.
  change (Z.to_nat 5 + 1)%nat with 6%nat in Hdec. lia.
Qed.

Lemma xhs_cookies_shape_witness :
  exists d g,
    get_xhs_cookies md5_hexdigest crc32_std 1700000000000 (fun _ => 0)
      = Some (g, md5_hexdigest g) /\
    d = drop 2 (py_hex 1700000000000) ++ rand_str (fun _ => 0) 0 30 ++ lit "50000" /\
    g = take 52 (d ++ py_str (crc32_std d)) /\
    str_encode g = Some g /\
    length g = Nat.min 52 (length d + length (py_str (crc32_std d))) /\
    (length g <= 52)%nat /\
    (16 ^ 10 <= 1700000000000 -> 100000 <= crc32_std d -> length g = 52%nat).
Proof. exact (xhs_cookies_shape md5_hexdigest crc32_std 1700000000000 (fun _ => 0)). Defined.

(** The claim C8 fails at the clock reading 1700000000000 when the 30
    random characters are ["oSQRlyD8OneDqp7YGfARDb2RpZL8Nh"]: the checksum
    is 46329, of five digits, and the device token has 51 characters. *)
Lemma xhs_cookies_counterexample :
  let rnd : rng := fun k =>
    nth k [14; 44; 42; 43; 11; 24; 29; 60; 40; 13; 4; 29; 16; 15; 59; 50; 32; 5; 26;
           43; 29; 1; 54; 43; 15; 51; 37; 60; 39; 7] 0 in
  rand_str rnd 0 30 = lit "oSQRlyD8OneDqp7YGfARDb2RpZL8Nh" /\
  crc32_std (lit "18bcfe56800oSQRlyD8OneDqp7YGfARDb2RpZL8Nh50000") = 46329 /\
  get_xhs_cookies md5_hexdigest crc32_std 1700000000000 rnd
    = Some (lit "18bcfe56800oSQRlyD8OneDqp7YGfARDb2RpZL8Nh5000046329",
            lit "9a952cd48ddc5015890ffb2df8a8f25e") /\
  length (lit "18bcfe56800oSQRlyD8OneDqp7YGfARDb2RpZL8Nh5000046329") = 51%nat /\
  51%nat <> 52%nat.
Proof. cbv zeta. repeat split; try (vm_compute; reflexivity). lia. Qed.

(** ** Protocol A: the length of the signature *)

Lemma str_encode_total (s : pystr) : encodable s -> exists b, str_encode s = Some b.
Proof.
  intros Hs. unfold str_encode.
  assert (H : exists l, mapM utf8_char s = Some l).
  { induction Hs as [| c s Hc _ [l IH]].
    - exists []. reflexivity.
    - assert (Hc' : exists y, utf8_char c = Some y).
      { unfold utf8_char.
        destruct (Z.ltb_spec c 0); [lia |].
        destruct (Z.ltb_spec c 0x80); [eauto |].
        destruct (Z.ltb_spec c 0x800); [eauto |].
        destruct (Z.leb_spec 0xD800 c); destruct (Z.leb_spec c 0xDFFF); cbn [andb];
          try lia;
          (destruct (Z.ltb_spec c 0x10000); [eauto |]);
          (destruct (Z.ltb_spec c 0x110000); [eauto | lia]). }
      destruct Hc' as [y Hy]. exists (y :: l).
      apply mapM_Some_2. constructor; [assumption |]. now apply mapM_Some_1. }
  destruct H as [l ->]. bind_simpl. eauto.
Qed.

Lemma bytes_of_bytes (l : list Z) : is_bytes l -> bytes_of l = Some l.
Proof.
  intros Hl. unfold bytes_of.
  replace (forallb _ l) with true; [reflexivity |].
  symmetry. apply forallb_forall. intros x Hx.
  unfold is_bytes in Hl. rewrite Forall_forall in Hl.
  specialize (Hl x (proj2 (list_elem_of_In _ _) Hx)). lia.
Qed.

Lemma sm3_double_total (data : pystr) :
  encodable data ->
  exists digest, _sm3_double data = Some digest /\ length digest = 32%nat /\ is_bytes digest.
Proof.
  intros Hd. unfold _sm3_double.
  destruct (str_encode_total data Hd) as [b ->]. bind_simpl.
  destruct (sm3_hash_standard b) as (_ & first & -> & _ & Hfirst). bind_simpl.
  rewrite (bytes_of_bytes first Hfirst). bind_simpl.
  destruct (sm3_hash_standard first) as (_ & digest & -> & Hlen & Hbytes). eauto.
Qed.

Lemma mapM_chr (l : list Z) : wf_str l -> mapM chr l = Some l.
Proof.
  intros Hl. apply mapM_Some_2.
  induction Hl as [| c l Hc _ IH]; constructor; [now apply chr_codepoint | assumption].
Qed.

Lemma random_list_bytes (r b c d e f g : Z) :
  0 <= b < 256 -> 0 <= c < 256 -> 0 <= d < 256 -> 0 <= e < 256 ->
  0 <= f < 256 -> 0 <= g < 256 ->
  length (_random_list r b c d e f g) = 4%nat /\ is_bytes (_random_list r b c d e f g).
Proof.
  intros. split; [reflexivity |]. unfold _random_list, is_bytes.
  repeat (constructor; [apply (lor_bound _ _ 8); [lia | apply land_bound; lia | lia] |]).
  constructor.
Qed.

Lemma gen_string_1_total (rnd : rng) (k : nat) :
  exists s, _gen_string_1 rnd k = Some s /\ length s = 12%nat /\ is_bytes s.
Proof.
  unfold _gen_string_1. cbv zeta.
  destruct (random_list_bytes (random_10000 rnd k) 170 85 1 2 5 (45 .& 170))
    as [L1 B1]; try lia; try (change (45 .& 170) with 40; lia).
  destruct (random_list_bytes (random_10000 rnd (k + 1)) 170 85 1 0 0 0)
    as [L2 B2]; try lia.
  destruct (random_list_bytes (random_10000 rnd (k + 2)) 170 85 1 0 5 0)
    as [L3 B3]; try lia.
  assert (B : is_bytes (_random_list (random_10000 rnd k) 170 85 1 2 5 (45 .& 170)
                        ++ _random_list (random_10000 rnd (k + 1)) 170 85 1 0 0 0
                        ++ _random_list (random_10000 rnd (k + 2)) 170 85 1 0 5 0)).
  { apply Forall_app; split; [exact B1 | apply Forall_app; split; [exact B2 | exact B3]]. }
  eexists. split; [apply mapM_chr, is_bytes_wf_str, B |].
  split; [rewrite !length_app; lia | exact B].
Qed.

(** One table lookup of [_custom_b64]: the mask keeps six bits. *)
Lemma b64_lookup (table : pystr) (n j k : Z) :
  length table = 64%nat -> 0 <= j -> 0 <= k < 2 ^ (j + 6) ->
  exists c, py_index table ((n .& k) .>> j) = Some c.
Proof.
  intros Hlen Hj Hk. apply py_index_is_Some. rewrite Hlen.
  pose proof (land_bound n k (j + 6) ltac:(lia) Hk) as Hb.
  rewrite Z.shiftr_div_pow2 by lia.
  assert (0 < 2 ^ j) by (apply Z.pow_pos_nonneg; lia).
  split; [apply Z.div_pos; lia |].
  apply Z.div_lt_upper_bound; [lia |]. rewrite Z.pow_add_r in Hb by lia. lia.
Qed.

Lemma b64_outer_group (table s : pystr) (i : nat) :
  length table = 64%nat -> (i < length s)%nat ->
  exists q, length q = b64_count (length s) i /\
            forall r, b64_outer table s r i = Some (r ++ q).
Proof.
  intros Htab Hi. unfold b64_count.
  destruct (lookup_lt_is_Some_2 s i Hi) as [a Ea].
  destruct (Nat.ltb (i + 2) (length s)) eqn:T2;
    [| destruct (Nat.ltb (i + 1) (length s)) eqn:T1].
  - apply Nat.ltb_lt in T2 as H2.
    destruct (lookup_lt_is_Some_2 s (i + 1)) as [b Eb]; [lia |].
    destruct (lookup_lt_is_Some_2 s (i + 2)) as [c Ec]; [lia |].
    set (n := (a .<< 16) .| (b .<< 8) .| c).
    destruct (b64_lookup table n 18 0xFC0000 Htab) as [c1 E1]; [lia | simpl; lia |].
    destruct (b64_lookup table n 12 0x03F000 Htab) as [c2 E2]; [lia | simpl; lia |].
    destruct (b64_lookup table n 6 0x0FC0 Htab) as [c3 E3]; [lia | simpl; lia |].
    destruct (b64_lookup table n 0 0x3F Htab) as [c4 E4]; [lia | simpl; lia |].
    exists [c1; c2; c3; c4]. split; [reflexivity |]. intros r.
    unfold b64_outer. rewrite T2, Ea, Eb, Ec. bind_simpl. fold n. b64_inner_run.
    destruct (Nat.leb_spec (length s) (i + 1)); [lia |].
    destruct (Nat.leb_spec (length s) (i + 2)); [lia |].
    rewrite E1. bind_simpl. rewrite E2. bind_simpl. rewrite E3. bind_simpl.
    rewrite E4. bind_simpl. rewrite <- !app_assoc. reflexivity.
  - apply Nat.ltb_lt in T1 as H1. apply Nat.ltb_ge in T2 as H2.
    destruct (lookup_lt_is_Some_2 s (i + 1)) as [b Eb]; [lia |].
    set (n := (a .<< 16) .| (b .<< 8)).
    destruct (b64_lookup table n 18 0xFC0000 Htab) as [c1 E1]; [lia | simpl; lia |].
    destruct (b64_lookup table n 12 0x03F000 Htab) as [c2 E2]; [lia | simpl; lia |].
    destruct (b64_lookup table n 6 0x0FC0 Htab) as [c3 E3]; [lia | simpl; lia |].
    exists [c1; c2; c3]. split; [reflexivity |]. intros r.
    unfold b64_outer. rewrite T2, T1, Ea, Eb. bind_simpl. fold n. b64_inner_run.
    destruct (Nat.leb_spec (length s) (i + 1)); [lia |].
    destruct (Nat.leb_spec (length s) (i + 2)); [| lia].
    rewrite E1. bind_simpl. rewrite E2. bind_simpl. rewrite E3. bind_simpl.
    rewrite <- !app_assoc. reflexivity.
  - apply Nat.ltb_ge in T1 as H1.
    set (n := a .<< 16).
    destruct (b64_lookup table n 18 0xFC0000 Htab) as [c1 E1]; [lia | simpl; lia |].
    destruct (b64_lookup table n 12 0x03F000 Htab) as [c2 E2]; [lia | simpl; lia |].
    exists [c1; c2]. split; [reflexivity |]. intros r.
    unfold b64_outer. rewrite T2, T1, Ea. bind_simpl. fold n. b64_inner_run.
    destruct (Nat.leb_spec (length s) (i + 1)); [| lia].
    rewrite E1. bind_simpl. rewrite E2. bind_simpl.
    rewrite <- !app_assoc. reflexivity.
Qed.

Lemma concat_length_counts {A} (f : nat -> nat) (idxs : list nat) (qs : list (list A)) :
  Forall2 (fun i q => length q = f i) idxs qs ->
  length (List.concat qs) = list_sum (map f idxs).
Proof.
  induction 1 as [| i q idxs qs Hq _ IH]; [reflexivity |].
  simpl. rewrite length_app, Hq, IH. reflexivity.
Qed.

(** [_custom_b64] never raises with a 64-character table; its result is the
    groups of the text followed by the ['='] padding. *)
Lemma custom_b64_total (s : pystr) (key : string) (table : pystr) :
  dict_get _ABOGUS_STR key = Some table -> length table = 64%nat ->
  exists r, length r = list_sum (map (b64_count (length s)) (range_step 0 (length s) 3)) /\
    _custom_b64 s key = Some (r ++ replicate ((4 - length r mod 4) mod 4) 61).
Proof.
  intros Hkey Htab. unfold _custom_b64. rewrite Hkey. bind_simpl.
  destruct (foldM_append (fun i q => length q = b64_count (length s) i)
              (b64_outer table s) (range_step 0 (length s) 3)) with (m := @nil Z)
    as (qs & Hqs & E).
  { intros i Hi. apply b64_outer_group; [assumption |].
    apply (range_step_lt _ 3); [lia | assumption]. }
  rewrite E. bind_simpl. rewrite app_nil_l.
  exists (List.concat qs). split; [| reflexivity].
  now apply concat_length_counts.
Qed.

Lemma ABogus_init_total (user_agent : pystr) :
  wf_str user_agent ->
  exists ab, ABogus_init user_agent = Some ab /\
    browser_code ab = _DEFAULT_BROWSER /\ browser_len ab = 64 /\
    length (ua_code ab) = 32%nat /\ is_bytes (ua_code ab).
Proof.
  intros Hua. unfold ABogus_init.
  destruct (rc4_total user_agent [0; 1; 14] Hua ltac:(discriminate)) as (ua_rc4 & -> & _).
  bind_simpl.
  destruct (custom_b64_total ua_rc4 "s3" _ eq_refl eq_refl) as (r & _ & ->). bind_simpl.
  destruct (sm3_sum_total (r ++ replicate ((4 - length r mod 4) mod 4) 61))
    as (ua & -> & Hlen & Hbytes).
  bind_simpl. eexists. split; [reflexivity |]. auto.
Qed.

Lemma foldl_lxor_bound (k : Z) (l : list Z) : forall acc,
  0 <= k -> 0 <= acc < 2 ^ k -> Forall (fun x => 0 <= x < 2 ^ k) l ->
  0 <= foldl Z.lxor acc l < 2 ^ k.
Proof.
  induction l as [| x l IH]; intros acc Hk Hacc Hl; [exact Hacc |].
  inversion Hl; subst. simpl. apply IH; [assumption | | assumption].
  now apply lxor_bound.
Qed.

Lemma int_div_256_4_bound (x : Z) : 0 <= x < 2 ^ 52 -> 0 <= int_div_256_4 x < 2 ^ 20.
Proof.
  intros Hx. unfold int_div_256_4. rewrite Z.shiftr_0_r.
  rewrite Z.quot_div_nonneg by lia.
  split; [apply Z.div_pos; lia | apply Z.div_lt_upper_bound; lia].
Qed.

Lemma digest_byte (digest : list Z) (i : Z) :
  length digest = 32%nat -> is_bytes digest -> 0 <= i < 32 ->
  exists b, py_index digest i = Some b /\ 0 <= b < 256.
Proof.
  intros Hlen Hb Hi. destruct (py_index_is_Some digest i) as [b Eb]; [lia |].
  exists b. split; [assumption |]. exact (py_index_Forall _ _ _ _ Hb Eb).
Qed.

Lemma encodable_ascii (s : pystr) : is_ascii s -> encodable s.
Proof. intros H. eapply Forall_impl; [exact H |]. simpl. intros; lia. Qed.

(** C10, as the code has it. For every encodable query string and method,
    every user agent, every clock reading of [0, 2^52 - 8) and every random
    outcome, the signature has exactly 164 characters and ends with ["=="]:
    the encoded buffer has 12 + 44 + 64 + 1 = 121 elements, the browser
    fingerprint being 64 characters long. *)
Theorem sign_douyin_length (start_time : Z) (rnd : rng)
    (params user_agent method : pystr) :
  0 <= start_time < 2 ^ 52 - 8 ->
  encodable params -> encodable method -> wf_str user_agent ->
  exists sig,
    sign_douyin start_time rnd params user_agent method = Some sig /\
    length sig = 164%nat /\ drop 162 sig = [61; 61] /\
    length _DEFAULT_BROWSER = 64%nat /\ (12 + 44 + 64 + 1 = 121)%nat.
Proof.
  intros Htime Hparams Hmethod Hua. unfold sign_douyin.
  destruct (ABogus_init_total user_agent Hua) as (ab & -> & Hcode & Hblen & Hualen & Huab).
  bind_simpl. unfold ABogus_sign. cbv zeta.
  assert (Hj : 4 <= randint rnd 0 4 8 <= 8).
  { unfold randint. pose proof (Z.mod_pos_bound (rnd 0%nat) (8 - 4 + 1) ltac:(lia)). lia. }
  set (end_time := start_time + randint rnd 0 4 8).
  assert (Hcus : encodable (lit "cus")) by (repeat constructor; lia).
  destruct (sm3_double_total (params ++ lit "cus")) as (pc & -> & Hpl & Hpb);
    [apply Forall_app; now split |].
  destruct (sm3_double_total (method ++ lit "cus")) as (mc & -> & Hml & Hmb);
    [apply Forall_app; now split |].
  bind_simpl.
  destruct (digest_byte pc 21 Hpl Hpb) as (p21 & -> & Hp21); [lia |].
  destruct (digest_byte mc 21 Hml Hmb) as (m21 & -> & Hm21); [lia |].
  destruct (digest_byte (ua_code ab) 23 Hualen Huab) as (u23 & -> & Hu23); [lia |].
  destruct (digest_byte pc 22 Hpl Hpb) as (p22 & -> & Hp22); [lia |].
  destruct (digest_byte mc 22 Hml Hmb) as (m22 & -> & Hm22); [lia |].
  destruct (digest_byte (ua_code ab) 24 Hualen Huab) as (u24 & -> & Hu24); [lia |].
  bind_simpl. rewrite Hcode, Hblen.
  pose proof (int_div_256_4_bound end_time ltac:(unfold end_time; lia)) as He.
  pose proof (int_div_256_4_bound start_time ltac:(lia)) as Hs.
  set (a := [44; _; 0; 0; 0; 0; 24; p21; m21; 0; u23; _; 0; 0; 0; 1; 0; 239; p22; m22;
             u24; _; 0; 0; 0; 0; _; 0; 0; 14; _; _; 0; _; _; 3; _; 1; _; 1; 64; 0; 0; 0]).
  assert (Ha : Forall (fun x => 0 <= x < 2 ^ 20) a).
  { unfold a.
    repeat (constructor;
            [first [ lia | exact He | exact Hs
                   | match goal with
                     | |- 0 <= ?x .& 255 < _ =>
                         pose proof (land_bound x 255 8 ltac:(lia) ltac:(lia)); lia
                     end ] |]).
    constructor. }
  assert (Hcheck : 0 <= foldl Z.lxor 0 a < 2 ^ 20)
    by (apply foldl_lxor_bound; [lia | lia | exact Ha]).
  assert (Hlen_a : length a = 44%nat) by reflexivity.
  assert (Hwf : wf_str (a ++ _DEFAULT_BROWSER ++ [foldl Z.lxor 0 a])).
  { apply Forall_app. split; [eapply Forall_impl; [exact Ha |]; simpl; intros; lia |].
    apply Forall_app. split; [apply wf_str_lit |]. constructor; [lia | constructor]. }
  rewrite (mapM_chr _ Hwf). bind_simpl.
  destruct (rc4_total _ (lit "y") Hwf ltac:(discriminate)) as (s2 & -> & Hs2 & _).
  bind_simpl.
  destruct (gen_string_1_total rnd 1) as (s1 & -> & Hs1 & _). bind_simpl.
  destruct (custom_b64_total (s1 ++ s2) "s4" _ eq_refl eq_refl) as (r & Hr & ->).
  assert (Hlen : length (s1 ++ s2) = 121%nat).
  { rewrite length_app, Hs1, Hs2, !length_app, Hlen_a. reflexivity. }
  rewrite Hlen in Hr.
  change (list_sum (map (b64_count 121) (range_step 0 121 3))) with 162%nat in Hr.
  rewrite Hr. change ((4 - 162 mod 4) mod 4)%nat with 2%nat.
  eexists. split; [reflexivity |].
  split; [rewrite length_app, Hr; reflexivity |].
  split; [| split; reflexivity].
  rewrite drop_app_length' by (symmetry; exact Hr). reflexivity.
Qed.

Lemma sign_douyin_length_witness :
  exists sig,
    sign_douyin 1700000000000 (fun _ => 0) (lit "aid=6383&aweme_id=123") _DEFAULT_UA (lit "GET")
      = Some sig /\
    length sig = 164%nat /\ drop 162 sig = [61; 61] /\
    length _DEFAULT_BROWSER = 64%nat /\ (12 + 44 + 64 + 1 = 121)%nat.
Proof.
  apply (sign_douyin_length 1700000000000 (fun _ => 0) (lit "aid=6383&aweme_id=123")
           _DEFAULT_UA (lit "GET")).
  - lia.
  - apply encodable_ascii, lit_ascii_check. reflexivity.
  - apply encodable_ascii, lit_ascii_check. reflexivity.
  - apply wf_str_lit.
Defined.

(** The claim C10 fails on the call of the test suite, at the clock reading
    1700000000000: the signature has 164 characters, not 168, since the
    browser fingerprint has 64 characters, not 67. And the signer raises on
    a query string that UTF-8 cannot encode, and at the clock reading
    [2^52 - 8] with a jitter of 8, where the checksum is no code point. *)
Lemma sign_douyin_counterexample :
  length <$> sign_douyin 1700000000000 (fun _ => 0) (lit "aid=6383&aweme_id=123")
                         _DEFAULT_UA (lit "GET") = Some 164%nat /\
  164%nat <> 168%nat /\
  length _DEFAULT_BROWSER = 64%nat /\ 64%nat <> 67%nat /\
  (12 + 44 + length _DEFAULT_BROWSER + 1 = 121)%nat /\
  sign_douyin 1700000000000 (fun _ => 0) [0xD800] _DEFAULT_UA (lit "GET") = None /\
  randint (fun _ => 4) 0 4 8 = 8 /\
  sign_douyin (2 ^ 52 - 8) (fun _ => 4) (lit "aid=6383&aweme_id=123")
              _DEFAULT_UA (lit "GET") = None.
Proof.
  split; [vm_compute; reflexivity |].
  split; [lia |]. split; [reflexivity |]. split; [lia |]. split; [reflexivity |].
  split; [vm_compute; reflexivity |]. split; [reflexivity |]. vm_compute. reflexivity.
Qed.

(** ** The custom base64 of Protocol B and its inverse *)

Lemma xhs_table_ok : alphabet_ok _XHS_B64_TABLE 64.
Proof. apply alphabet_okb_ok. vm_compute. reflexivity. Qed.

Lemma xhs_table_no_pad : index_of _XHS_B64_TABLE 61 = None.
Proof. vm_compute. reflexivity. Qed.

(** A character of the table, with its index. *)
Lemma xhs_table_char (i : Z) :
  0 <= i < 64 ->
  exists c, py_index _XHS_B64_TABLE i = Some c /\ index_of _XHS_B64_TABLE c = Some i /\
            c <> 61.
Proof.
  intros Hi. destruct xhs_table_ok as [_ H]. destruct (H i Hi) as (c & Ec & Ei).
  exists c. split; [assumption |]. split; [assumption |].
  intros ->. rewrite xhs_table_no_pad in Ei. discriminate.
Qed.

Lemma foldM_ext {S A} (f g : S -> A -> option S) (xs : list A) :
  (forall st x, f st x = g st x) -> forall st, foldM f st xs = foldM g st xs.
Proof.
  intros Hfg. induction xs as [| x xs IH]; intros st; simpl; [reflexivity |].
  rewrite Hfg. destruct (g st x); [apply IH | reflexivity].
Qed.

Lemma xhs_b64_step_prefix (lookup e t parts : pystr) (H : nat) :
  xhs_b64_step lookup e (t ++ parts) H = (fun r => t ++ r) <$> xhs_b64_step lookup e parts H.
Proof.
  unfold xhs_b64_step.
  destruct (e !! H); [| reflexivity]. destruct (e !! (H + 1)%nat); [| reflexivity].
  destruct (e !! (H + 2)%nat); [| reflexivity]. bind_simpl.
  destruct (triplet lookup _); [| reflexivity]. bind_simpl. now rewrite app_assoc.
Qed.

Lemma xhs_b64_loop_prefix (lookup e t : pystr) (idxs : list nat) : forall parts,
  foldM (xhs_b64_step lookup e) (t ++ parts) idxs
  = (fun r => t ++ r) <$> foldM (xhs_b64_step lookup e) parts idxs.
Proof.
  induction idxs as [| H idxs IH]; intros parts; [reflexivity |].
  cbn [foldM]. rewrite xhs_b64_step_prefix.
  destruct (xhs_b64_step lookup e parts H); [apply IH | reflexivity].
Qed.

(** [_xhs_b64_encode] by groups of three: the first triplet, then the
    encoding of the rest. *)
Lemma xhs_b64_encode_cons3 (a b c : Z) (rest : list Z) :
  _xhs_b64_encode (a :: b :: c :: rest)
  = t ← triplet _XHS_B64_TABLE (b64_word a b c);
    r ← _xhs_b64_encode rest;
    Some (t ++ r).
Proof.
  unfold _xhs_b64_encode. cbv zeta.
  assert (HW : (length (a :: b :: c :: rest) mod 3 = length rest mod 3)%nat).
  { simpl length. replace (S (S (S (length rest)))) with (length rest + 1 * 3)%nat by lia.
    apply Nat.Div0.mod_add. }
  rewrite HW. set (W := (length rest mod 3)%nat).
  assert (HWle : (W <= length rest)%nat) by (apply Nat.Div0.mod_le).
  assert (HWlt : (W < 3)%nat) by (apply Nat.mod_upper_bound; lia).
  rewrite (range_step_zero (length (a :: b :: c :: rest) - W) 3) by lia.
  simpl length.
  replace (S (S (S (length rest))) - W)%nat with (S (S (S (length rest - W)))) by lia.
  replace (S (S (S (length rest - W))) - 3)%nat with (length rest - W)%nat by lia.
  cbn [foldM]. unfold xhs_b64_step at 1. cbn [lookup list_lookup Nat.add]. bind_simpl.
  fold (b64_word a b c).
  destruct (triplet _XHS_B64_TABLE (b64_word a b c)) as [t |]; [| reflexivity].
  bind_simpl. rewrite <- foldM_map.
  rewrite (foldM_ext _ (xhs_b64_step _XHS_B64_TABLE rest)).
  2:{ intros st H. unfold xhs_b64_step.
      replace (H + 3)%nat with (S (S (S H))) by lia.
      replace (S (S (S H)) + 1)%nat with (S (S (S (H + 1)))) by lia.
      replace (S (S (S H)) + 2)%nat with (S (S (S (H + 2)))) by lia.
      reflexivity. }
  pose proof (xhs_b64_loop_prefix _XHS_B64_TABLE rest t
                (range_step 0 (length rest - W) 3) []) as Hp.
  rewrite app_nil_r in Hp. change ([] ++ t) with t. rewrite Hp. clear Hp.
  destruct (foldM (xhs_b64_step _XHS_B64_TABLE rest) [] _) as [parts |]; [| reflexivity].
  bind_simpl.
  destruct (Nat.eqb_spec W 1) as [E1 | N1]; [| destruct (Nat.eqb_spec W 2) as [E2 | N2]].
  - replace (S (S (S (length rest))) - 1)%nat with (S (S (S (length rest - 1)))) by lia.
    cbn [lookup list_lookup].
    destruct (rest !! (length rest - 1)%nat) as [F |]; [| reflexivity]. bind_simpl.
    destruct (py_index _ (F .>> 2)); [| reflexivity]. bind_simpl.
    destruct (py_index _ ((F .<< 4) .& 63)); [| reflexivity]. bind_simpl.
    now rewrite app_assoc.
  - replace (S (S (S (length rest))) - 2)%nat with (S (S (S (length rest - 2)))) by lia.
    replace (S (S (S (length rest))) - 1)%nat with (S (S (S (length rest - 1)))) by lia.
    cbn [lookup list_lookup].
    destruct (rest !! (length rest - 2)%nat) as [f1 |]; [| reflexivity].
    destruct (rest !! (length rest - 1)%nat) as [f2 |]; [| reflexivity]. bind_simpl.
    destruct (py_index _ (_ .>> 10)); [| reflexivity]. bind_simpl.
    destruct (py_index _ (63 .& _)); [| reflexivity]. bind_simpl.
    destruct (py_index _ (_ .& 63)); [| reflexivity]. bind_simpl.
    now rewrite app_assoc.
  - reflexivity.
Qed.

Lemma land_ones_r (x : Z) (k : Z) (m : Z) :
  0 <= k -> m = 2 ^ k - 1 -> x .& m = x mod 2 ^ k.
Proof.
  intros Hk ->. replace (2 ^ k - 1) with (Z.ones k) by (rewrite Z.ones_equiv; lia).
  now apply Z.land_ones.
Qed.

Lemma land_ones_l (x : Z) (k : Z) (m : Z) :
  0 <= k -> m = 2 ^ k - 1 -> m .& x = x mod 2 ^ k.
Proof. intros. rewrite Z.land_comm. now apply land_ones_r. Qed.

Lemma b64_word_value (a b c : Z) :
  0 <= a < 256 -> 0 <= b < 256 -> 0 <= c < 256 ->
  b64_word a b c = 65536 * a + 256 * b + c.
Proof.
  intros Ha Hb Hc. unfold b64_word.
  change 16711680 with (255 .<< 16). change 65280 with (255 .<< 8).
  rewrite <- !Z.shiftl_land.
  rewrite (land_ones_l a 8), (land_ones_r b 8), (land_ones_r c 8) by (reflexivity || lia).
  rewrite !Z.shiftl_mul_pow2 by lia. change (2 ^ 8) with 256.
  rewrite !Z.mod_small by lia. lia.
Qed.

(** The four characters of a triplet decode to its three bytes. *)
Lemma triplet_roundtrip (a b c : Z) :
  0 <= a < 256 -> 0 <= b < 256 -> 0 <= c < 256 ->
  exists t, triplet _XHS_B64_TABLE (b64_word a b c) = Some t /\ length t = 4%nat /\
    forall rest r, xhs_b64_decode rest = Some r ->
                   xhs_b64_decode (t ++ rest) = Some (a :: b :: c :: r).
Proof.
  intros Ha Hb Hc. unfold triplet. rewrite b64_word_value by assumption.
  set (n := 65536 * a + 256 * b + c).
  rewrite (land_ones_l (n .>> 18) 6), (land_ones_l (n .>> 12) 6),
          (land_ones_r (n .>> 6) 6), (land_ones_r n 6) by (reflexivity || lia).
  rewrite !Z.shiftr_div_pow2 by lia.
  change (2 ^ 18) with 262144. change (2 ^ 12) with 4096. change (2 ^ 6) with 64.
  destruct (xhs_table_char ((n / 262144) mod 64)) as (c1 & -> & I1 & N1); [div_mod_lia |].
  destruct (xhs_table_char ((n / 4096) mod 64)) as (c2 & -> & I2 & N2); [div_mod_lia |].
  destruct (xhs_table_char ((n / 64) mod 64)) as (c3 & -> & I3 & N3); [div_mod_lia |].
  destruct (xhs_table_char (n mod 64)) as (c4 & -> & I4 & N4); [div_mod_lia |].
  bind_simpl. eexists. split; [reflexivity |]. split; [reflexivity |].
  intros rest r Hr. cbn [app xhs_b64_decode]. rewrite I1, I2. bind_simpl.
  destruct (Z.eqb_spec c3 61); [congruence |]. rewrite I3. bind_simpl.
  destruct (Z.eqb_spec c4 61); [congruence |]. rewrite I4. bind_simpl.
  rewrite Hr. bind_simpl. subst n. f_equal. f_equal; [| f_equal; [| f_equal]]; div_mod_lia.
Qed.

Lemma xhs_b64_roundtrip_1 (a : Z) :
  0 <= a < 256 ->
  exists s, _xhs_b64_encode [a] = Some s /\ xhs_b64_decode s = Some [a].
Proof.
  intros Ha. unfold _xhs_b64_encode. cbn [length Nat.modulo Nat.divmod foldM range_step
    Nat.sub Nat.add map seq Nat.div fst snd Nat.eqb lookup list_lookup].
  bind_simpl.
  rewrite (land_ones_r (a .<< 4) 6) by (reflexivity || lia).
  rewrite Z.shiftr_div_pow2, Z.shiftl_mul_pow2 by lia.
  change (2 ^ 2) with 4. change (2 ^ 4) with 16. change (2 ^ 6) with 64.
  destruct (xhs_table_char (a / 4)) as (c1 & -> & I1 & N1); [div_mod_lia |].
  destruct (xhs_table_char ((a * 16) mod 64)) as (c2 & -> & I2 & N2); [div_mod_lia |].
  bind_simpl. eexists. split; [reflexivity |].
  cbn [app xhs_b64_decode]. rewrite I1, I2. bind_simpl.
  change (61 =? 61) with true. cbv iota. f_equal. f_equal. div_mod_lia.
Qed.

Lemma xhs_b64_roundtrip_2 (a b : Z) :
  0 <= a < 256 -> 0 <= b < 256 ->
  exists s, _xhs_b64_encode [a; b] = Some s /\ xhs_b64_decode s = Some [a; b].
Proof.
  intros Ha Hb. unfold _xhs_b64_encode. cbn [length Nat.modulo Nat.divmod foldM range_step
    Nat.sub Nat.add map seq Nat.div fst snd Nat.eqb lookup list_lookup].
  bind_simpl.
  rewrite (land_ones_l (((a .<< 8) + b) .>> 4) 6),
          (land_ones_r (((a .<< 8) + b) .<< 2) 6) by (reflexivity || lia).
  rewrite !Z.shiftr_div_pow2, !Z.shiftl_mul_pow2 by lia.
  change (2 ^ 2) with 4. change (2 ^ 4) with 16. change (2 ^ 6) with 64.
  change (2 ^ 8) with 256. change (2 ^ 10) with 1024.
  destruct (xhs_table_char ((a * 256 + b) / 1024)) as (c1 & -> & I1 & N1); [div_mod_lia |].
  destruct (xhs_table_char (((a * 256 + b) / 16) mod 64)) as (c2 & -> & I2 & N2);
    [div_mod_lia |].
  destruct (xhs_table_char (((a * 256 + b) * 4) mod 64)) as (c3 & -> & I3 & N3);
    [div_mod_lia |].
  bind_simpl. eexists. split; [reflexivity |].
  cbn [app xhs_b64_decode]. rewrite I1, I2. bind_simpl.
  destruct (Z.eqb_spec c3 61); [congruence |]. rewrite I3. bind_simpl.
  change (61 =? 61) with true. cbv iota. f_equal. f_equal; [| f_equal]; div_mod_lia.
Qed.

(** [xhs_b64_decode] undoes [_xhs_b64_encode] on every byte sequence. *)
Lemma xhs_b64_roundtrip (n : nat) : forall bs : list Z,
  (length bs <= n)%nat -> is_bytes bs ->
  exists s, _xhs_b64_encode bs = Some s /\ xhs_b64_decode s = Some bs.
Proof.
  induction (lt_wf n) as [n _ IH]. intros bs Hn Hbs.
  destruct bs as [| a [| b [| c rest]]].
  - exists []. split; reflexivity.
  - inversion Hbs; subst. now apply xhs_b64_roundtrip_1.
  - inversion Hbs as [| ? ? Ha Hbs']; subst. inversion Hbs'; subst.
    now apply xhs_b64_roundtrip_2.
  - inversion Hbs as [| ? ? Ha Hbs1]; subst. inversion Hbs1 as [| ? ? Hb Hbs2]; subst.
    inversion Hbs2 as [| ? ? Hc Hrest]; subst.
    destruct (IH (length rest) ltac:(simpl in Hn; lia) rest (Nat.le_refl _) Hrest)
      as (s & Es & Ds).
    destruct (triplet_roundtrip a b c Ha Hb Hc) as (t & Et & _ & Dt).
    exists (t ++ s). rewrite xhs_b64_encode_cons3, Et. bind_simpl. rewrite Es. bind_simpl.
    split; [reflexivity | now apply Dt].
Qed.

(** ** Percent-encoding and JSON, there and back *)

Lemma hex_upper_val (i : Z) :
  0 <= i < 16 -> hex_val (hex_upper@(Z.to_nat i)) = Some i.
Proof.
  intros Hi.
  assert (H : forallb (fun i => match hex_val (hex_upper@(Z.to_nat i)) with
                                | Some j => i =? j
                                | None => false
                                end) (seqZ 0 16) = true) by reflexivity.
  rewrite forallb_forall in H.
  specialize (H i ltac:(apply list_elem_of_In, elem_of_seqZ; lia)).
  destruct (hex_val _) as [j |]; [| discriminate]. apply Z.eqb_eq in H. now subst.
Qed.

(** Walking the quoted form of a byte sequence gives the bytes back: the
    two steps of [_encode_utf8] amount to the UTF-8 encoding. *)
Lemma percent_walk_quote (safe : pystr) (bs : list Z) :
  existsb (Z.eqb 37) (always_safe ++ safe) = false -> is_bytes bs ->
  percent_walk (flat_map (quote_byte safe) bs) = Some bs.
Proof.
  intros Hpct Hbs. induction Hbs as [| b bs Hb _ IH]; [reflexivity |].
  cbn [flat_map]. unfold quote_byte at 1.
  destruct (existsb (Z.eqb b) (always_safe ++ safe)) eqn:Esafe.
  - cbn [app percent_walk].
    destruct (Z.eqb_spec b 37) as [-> | _]; [congruence |].
    rewrite IH. reflexivity.
  - cbn [app percent_walk]. change (37 =? 37) with true. cbv iota.
    rewrite !hex_upper_val by div_mod_lia. bind_simpl. rewrite IH. bind_simpl.
    f_equal. f_equal. div_mod_lia.
Qed.

Lemma encode_utf8_ascii (e : pystr) : is_ascii e -> _encode_utf8 e = Some e.
Proof.
  intros He. unfold _encode_utf8, quote. rewrite (str_encode_ascii e He). bind_simpl.
  apply percent_walk_quote; [reflexivity |].
  eapply Forall_impl; [exact He |]. simpl. intros; lia.
Qed.

Lemma json_escape_plain (s : pystr) : plain s -> flat_map (json_escape_char true) s = s.
Proof.
  induction 1 as [| c s [Hc [H34 H92]] _ IH]; [reflexivity |].
  cbn [flat_map]. rewrite IH. unfold json_escape_char.
  destruct (Z.eqb_spec c 34); [lia |]. destruct (Z.eqb_spec c 92); [lia |].
  destruct (Z.eqb_spec c 10); [lia |]. destruct (Z.eqb_spec c 13); [lia |].
  destruct (Z.eqb_spec c 9); [lia |]. destruct (Z.eqb_spec c 8); [lia |].
  destruct (Z.eqb_spec c 12); [lia |]. destruct (Z.ltb_spec c 32); [lia |].
  destruct (Z.leb_spec c 126); [reflexivity | lia].
Qed.

Lemma read_string_plain (s rest : pystr) :
  plain s -> read_string (s ++ 34 :: rest) = Some (s, rest).
Proof.
  induction 1 as [| c s [Hc [H34 H92]] _ IH]; [reflexivity |].
  cbn [app read_string].
  destruct (Z.eqb_spec c 34); [lia |]. destruct (Z.eqb_spec c 92); [lia |].
  rewrite IH. reflexivity.
Qed.

Lemma read_digits_app (ds rest : pystr) :
  Forall (fun c => 48 <= c <= 57) ds -> not_digit_next rest ->
  read_digits (ds ++ rest) = (ds, rest).
Proof.
  intros Hds Hrest. induction Hds as [| c ds Hc _ IH].
  - destruct rest as [| c rest]; [reflexivity |]. simpl in *.
    destruct (Z.leb_spec 48 c); destruct (Z.leb_spec c 57); cbn [andb]; try reflexivity; lia.
  - cbn [app read_digits].
    destruct (Z.leb_spec 48 c); [| lia]. destruct (Z.leb_spec c 57); [| lia].
    cbn [andb]. rewrite IH. reflexivity.
Qed.

Lemma py_str_shape (n : Z) :
  exists ds, Forall (fun c => 48 <= c <= 57) ds /\ ds <> [] /\
             from_base base10 10 ds = Some (Z.abs n) /\
             py_str n = if n <? 0 then 45 :: ds else ds.
Proof.
  destruct (to_base_digits base10 10 base10_ok eq_refl (Z.abs n) (Z.abs_nonneg n))
    as (ds & E & _ & Edec & Hlen & _ & _ & Hall).
  exists ds. split.
  { apply Hall. apply Forall_forall. intros c Hc. apply list_elem_of_In in Hc.
    simpl in Hc. lia. }
  split; [destruct ds; [simpl in Hlen; lia | discriminate] |].
  split; [assumption |].
  unfold py_str. change (lit "0123456789") with base10.
  destruct (Z.ltb_spec n 0).
  - replace (- n) with (Z.abs n) by lia. now rewrite E.
  - replace n with (Z.abs n) at 1 by lia. now rewrite E.
Qed.

Lemma read_int_str (n : Z) (rest : pystr) :
  not_digit_next rest -> read_int (py_str n ++ rest) = Some (n, rest).
Proof.
  intros Hrest. destruct (py_str_shape n) as (ds & Hds & Hne & Edec & ->).
  destruct (Z.ltb_spec n 0).
  - cbn [app read_int]. change (45 =? 45) with true. cbv iota.
    rewrite read_digits_app by assumption. rewrite Edec. bind_simpl.
    f_equal. f_equal. lia.
  - destruct ds as [| c ds']; [congruence |].
    cbn [app read_int]. inversion Hds; subst.
    destruct (Z.eqb_spec c 45); [lia |].
    change (c :: ds' ++ rest) with ((c :: ds') ++ rest).
    rewrite read_digits_app by assumption. rewrite Edec. bind_simpl.
    f_equal. f_equal. lia.
Qed.

Lemma json_string_plain (s : pystr) : plain s -> json_string true s = 34 :: s ++ [34].
Proof. intros Hs. unfold json_string. now rewrite json_escape_plain. Qed.

Lemma read_value_dumps (v : jvalue) (rest : pystr) :
  plain_value v -> not_digit_next rest ->
  read_value (json_value true v ++ rest) = Some (v, rest).
Proof.
  intros Hv Hrest. destruct v as [n | s]; cbn [json_value].
  - destruct (py_str_shape n) as (ds & Hds & Hne & _ & E).
    assert (Hhead : exists c tl, py_str n = c :: tl /\ c <> 34).
    { rewrite E. destruct (n <? 0); [exists 45, ds; split; [reflexivity | lia] |].
      destruct ds as [| c tl]; [congruence |]. inversion Hds; subst.
      exists c, tl. split; [reflexivity | lia]. }
    destruct Hhead as (c & tl & Ec & Hc).
    pose proof (read_int_str n rest Hrest) as Hint.
    rewrite Ec in *. cbn [app read_value] in *.
    destruct (Z.eqb_spec c 34); [congruence |].
    change (c :: tl ++ rest) with ((c :: tl) ++ rest) in Hint. 
    cbn [app] in Hint. rewrite Hint. reflexivity.
  - simpl in Hv. rewrite json_string_plain by assumption.
    cbn [app read_value]. change (34 =? 34) with true. cbv iota.
    rewrite <- app_assoc. cbn [app]. rewrite read_string_plain by assumption.
    reflexivity.
Qed.

(** The text of one member followed by [tail] reads as the member, then
    [tail]. *)
Lemma read_members_step (fuel : nat) (kv : pystr * jvalue) (tail : pystr) :
  plain (fst kv) -> plain_value (snd kv) -> not_digit_next tail ->
  read_members (S fuel) (json_member true kv ++ tail)
  = read_after (read_members fuel) kv tail.
Proof.
  destruct kv as [k v]. cbn [fst snd]. intros Hk Hv Htail.
  unfold json_member. cbn [fst snd]. rewrite json_string_plain by assumption.
  cbn [app read_members]. change (34 =? 34) with true. cbv iota.
  rewrite <- !app_assoc. cbn [app]. rewrite read_string_plain by assumption.
  bind_simpl. change (58 =? 58) with true. cbv iota.
  rewrite read_value_dumps by assumption. reflexivity.
Qed.

Lemma read_members_dumps (d : jdict) : forall fuel,
  d <> [] -> plain_dict d -> (length d <= fuel)%nat ->
  read_members fuel (join_comma (map (json_member true) d) ++ [125]) = Some d.
Proof.
  induction d as [| kv d IH]; intros fuel Hne Hd Hfuel; [congruence |].
  inversion Hd as [| ? ? [Hk Hv] Hd']; subst.
  destruct fuel as [| fuel]; [simpl in Hfuel; lia |].
  destruct d as [| kv' d'].
  - cbn [map join_comma]. rewrite read_members_step; try assumption; [| simpl; lia].
    reflexivity.
  - change (join_comma (map (json_member true) (kv :: kv' :: d')))
      with (json_member true kv ++ [44] ++ join_comma (map (json_member true) (kv' :: d'))).
    rewrite <- !app_assoc.
    rewrite read_members_step; try assumption; [| simpl; lia].
    cbn [app read_after]. change (44 =? 125) with false. change (44 =? 44) with true.
    cbv iota. rewrite IH; [reflexivity | discriminate | assumption | simpl in *; lia].
Qed.

(** [json_loads] reads back what [json.dumps] writes for a flat object
    whose keys and strings need no escape. *)
Lemma json_roundtrip (d : jdict) :
  plain_dict d -> json_loads (json_dumps true d) = Some d.
Proof.
  intros Hd. unfold json_dumps. cbn [app json_loads]. change (123 =? 123) with true.
  cbv iota. destruct d as [| kv d'].
  - reflexivity.
  - set (body := join_comma (map (json_member true) (kv :: d'))).
    assert (Hbody : body ++ [125] <> [125]).
    { unfold body. clear. destruct kv as [k v]. destruct d'; cbn [map join_comma];
        unfold json_member, json_string; cbn [fst app]; discriminate. }
    destruct (bool_decide (body ++ [125] = [125])) eqn:Eb.
    + apply bool_decide_eq_true in Eb. congruence.
    + apply read_members_dumps; [discriminate | assumption |].
      unfold body. rewrite length_app. clear. 
      assert (H : forall l : jdict, (length l <= length (join_comma (map (json_member true) l)) + 1)%nat).
      { induction l as [| [k v] l IHl]; [simpl; lia |].
        destruct l as [| kv' l'].
        - cbn [map join_comma]. unfold json_member, json_string.
          rewrite !length_app. simpl. lia.
        - change (join_comma (map (json_member true) ((k, v) :: kv' :: l')))
            with (json_member true (k, v) ++ [44]
                    ++ join_comma (map (json_member true) (kv' :: l'))).
          rewrite !length_app. unfold json_member at 1, json_string. 
          rewrite !length_app. simpl length in *. lia. }
      specialize (H (kv :: d')). simpl length in *. lia.
Qed.

Lemma plain_ascii (s : pystr) : plain s -> is_ascii s.
Proof. intros H. eapply Forall_impl; [exact H |]. simpl. unfold plain_char. intros; lia. Qed.

Lemma json_dumps_ascii (d : jdict) : plain_dict d -> is_ascii (json_dumps true d).
Proof.
  intros Hd. unfold json_dumps.
  apply Forall_app. split; [repeat constructor; lia |].
  apply Forall_app. split; [| repeat constructor; lia].
  assert (Hm : forall kv, plain (fst kv) -> plain_value (snd kv) ->
                          is_ascii (json_member true kv)).
  { intros [k v] Hk Hv. unfold json_member. cbn [fst snd] in *.
    rewrite json_string_plain by assumption.
    apply Forall_app. split.
    { constructor; [lia |]. apply Forall_app. split; [now apply plain_ascii |].
      repeat constructor; lia. }
    apply Forall_app. split; [repeat constructor; lia |].
    destruct v as [n | s]; cbn [json_value].
    - apply py_str_ascii.
    - simpl in Hv. rewrite json_string_plain by assumption.
      constructor; [lia |]. apply Forall_app. split; [now apply plain_ascii |].
      repeat constructor; lia. }
  induction Hd as [| kv d [Hk Hv] Hd' IH]; [constructor |].
  destruct d as [| kv' d'].
  - cbn [map join_comma]. now apply Hm.
  - change (join_comma (map (json_member true) (kv :: kv' :: d')))
      with (json_member true kv ++ [44] ++ join_comma (map (json_member true) (kv' :: d'))).
    apply Forall_app. split; [now apply Hm |].
    apply Forall_app. split; [repeat constructor; lia | exact IH].
Qed.

(** ** Protocol B: the signer on the feed request *)

Lemma plain_check (s : pystr) :
  forallb (fun c => (32 <=? c) && (c <=? 126) && negb (c =? 34) && negb (c =? 92)) s = true ->
  plain s.
Proof.
  intros H. apply Forall_forall. intros c Hc. apply list_elem_of_In in Hc.
  rewrite forallb_forall in H. specialize (H c Hc). unfold plain_char. lia.
Qed.

Lemma digits_plain (s : pystr) : Forall (fun c => 48 <= c <= 57) s -> plain s.
Proof. intros H. eapply Forall_impl; [exact H |]. simpl. unfold plain_char. intros; lia. Qed.

Lemma xhs_h_d_plain (s : pystr) : Forall (fun c => In c xhs_h_d) s -> plain s.
Proof.
  intros H. eapply Forall_impl; [exact H |]. simpl. intros c Hc.
  assert (Hd : plain xhs_h_d) by (apply plain_check; reflexivity).
  unfold plain in Hd. rewrite Forall_forall in Hd. apply Hd, list_elem_of_In, Hc.
Qed.

Section ProtocolB.
Variable md5_hex : list Z -> pystr.
Hypothesis Hshape : md5_shape md5_hex.

(** The signer on a clock reading of at least 13 digits, with no body:
    its three values, and the record read back from [x-s-common]. *)
Lemma sign_xiaohongshu_no_body (T : Z) (uri a1 b1 : pystr) :
  10 ^ 12 <= T -> is_ascii uri -> plain a1 -> plain b1 ->
  exists x_s x_t x_s_common x9 text record,
    sign_xiaohongshu md5_hex T uri None a1 b1
      = Some [("x-s", x_s); ("x-t", x_t); ("x-s-common", x_s_common)]%string /\
    x_t = py_str T /\ length x_s = 44%nat /\
    _mrc (x_t ++ x_s) = Some x9 /\
    xhs_b64_decode x_s_common = Some text /\
    _encode_utf8 text = Some text /\
    json_loads text = Some record /\
    jdict_get record (lit "x9") = Some (JInt x9) /\
    jdict_get record (lit "x6") = Some (JStr x_t) /\
    jdict_get record (lit "x7") = Some (JStr x_s).
Proof using Hshape.
  intros HT Huri Ha1 Hb1. unfold sign_xiaohongshu. cbv zeta.
  destruct (py_str_nonneg T ltac:(lia)) as (_ & _ & Hlow & _ & Hdigits).
  specialize (Hlow 12 ltac:(lia) HT). change (Z.to_nat 12 + 1)%nat with 13%nat in Hlow.
  rewrite str_encode_ascii.
  2:{ apply Forall_app. split; [apply py_str_ascii |].
      apply Forall_app. split; [apply lit_ascii_check; reflexivity |].
      apply Forall_app. split; [assumption | constructor]. }
  bind_simpl. set (raw := py_str T ++ lit "test" ++ uri ++ []).
  destruct (Hshape raw) as [Hlen Hhex].
  destruct (xhs_h_total (md5_hex raw) Hlen Hhex) as (x_s & -> & Hxs & Hin).
  bind_simpl.
  assert (Hxt : plain (py_str T)) by now apply digits_plain.
  assert (Hxsp : plain x_s) by now apply xhs_h_d_plain.
  destruct (mrc_acc_word (py_str T ++ x_s)) as (acc & Eacc & _).
  { eapply Forall_impl; [apply Forall_app; split; [apply plain_ascii, Hxt
                                                 | apply plain_ascii, Hxsp] |].
    simpl. intros; lia. }
  { rewrite length_app. lia. }
  unfold _mrc. rewrite Eacc. bind_simpl.
  set (x9 := acc .^ (-1) .^ 3988292384).
  set (common := [(lit "s0", JInt 5); _; _; _; _; _; _; (lit "x5", JStr a1); _; _;
                  (lit "x8", JStr b1); (lit "x9", JInt x9); _]).
  assert (Hcommon : plain_dict common).
  { unfold common. repeat (constructor; [split; [apply plain_check; reflexivity |] |]);
      try exact I; try (simpl; assumption);
      try (simpl; apply plain_check; reflexivity).
    constructor. }
  pose proof (json_dumps_ascii common Hcommon) as Hascii.
  rewrite (encode_utf8_ascii _ Hascii). bind_simpl.
  destruct (xhs_b64_roundtrip (length (json_dumps true common)) (json_dumps true common)
              (Nat.le_refl _)) as (xsc & -> & Hdec).
  { eapply Forall_impl; [exact Hascii |]. simpl. intros; lia. }
  bind_simpl.
  exists x_s, (py_str T), xsc, x9, (json_dumps true common), common.
  split; [reflexivity |]. split; [reflexivity |]. split; [assumption |].
  split; [unfold _mrc; rewrite Eacc; reflexivity |]. split; [assumption |].
  split; [apply encode_utf8_ascii, Hascii |].
  split; [apply json_roundtrip, Hcommon |].
  repeat split; reflexivity.
Qed.
End ProtocolB.

(** The reference model of [hashlib.md5] has the shape of a hex digest. *)
Lemma md5_hexdigest_shape : md5_shape md5_hexdigest.
Proof.
  intros data. unfold md5_hexdigest, md5_digest.
  destruct (foldl md5_block _ _) as [[[a b] c] d].
  split; [reflexivity |].
  unfold hexlify, le32_bytes. cbn [app flat_map].
  assert (Hb : forall x, is_hex_char (hex_lower@(Z.to_nat ((x .& 255) / 16))) /\
                         is_hex_char (hex_lower@(Z.to_nat ((x .& 255) mod 16)))).
  { intros x. pose proof (land_bound x 255 8 ltac:(lia) ltac:(lia)) as Hx.
    assert (Hn : forall i, 0 <= i < 16 -> is_hex_char (hex_lower@(Z.to_nat i))).
    { intros i Hi.
      assert (H : forallb (fun i => is_hex_charb (hex_lower@(Z.to_nat i))) (seqZ 0 16) = true)
        by reflexivity.
      rewrite forallb_forall in H.
      specialize (H i ltac:(apply list_elem_of_In, elem_of_seqZ; lia)).
      unfold is_hex_charb in H. unfold is_hex_char. lia. }
    split; apply Hn; div_mod_lia. }
  repeat (constructor; [apply Hb |]). constructor.
Qed.

(** C5, as the code has it. With a clock reading [T] of at least 13 decimal
    digits ([10^12 <= T]), the uri ["/api/sns/web/v1/feed"] and no body, the
    signer returns [x-t = str(T)], an [x-s] of 44 characters, and an
    [x-s-common] from which the custom base64 and the percent-encoding step
    are undone and the JSON text read back into a record whose [x9] is
    [mrc(x_t + x_s)]. *)
Theorem sign_xiaohongshu_feed (md5_hex : list Z -> pystr) (T : Z) :
  md5_shape md5_hex -> 10 ^ 12 <= T ->
  exists x_s x_t x_s_common x9 text record,
    sign_xiaohongshu md5_hex T (lit "/api/sns/web/v1/feed") None [] []
      = Some [("x-s", x_s); ("x-t", x_t); ("x-s-common", x_s_common)]%string /\
    x_t = py_str T /\ length x_s = 44%nat /\
    _mrc (x_t ++ x_s) = Some x9 /\
    xhs_b64_decode x_s_common = Some text /\
    _encode_utf8 text = Some text /\
    json_loads text = Some record /\
    jdict_get record (lit "x9") = Some (JInt x9) /\
    jdict_get record (lit "x6") = Some (JStr x_t) /\
    jdict_get record (lit "x7") = Some (JStr x_s).
Proof.
  intros Hshape HT.
  apply (sign_xiaohongshu_no_body md5_hex Hshape T); try assumption.
  - apply lit_ascii_check. reflexivity.
  - constructor.
  - constructor.
Qed.

Lemma sign_xiaohongshu_feed_witness :
  exists x_s x_t x_s_common x9 text record,
    sign_xiaohongshu md5_hexdigest 1700000000000 (lit "/api/sns/web/v1/feed") None [] []
      = Some [("x-s", x_s); ("x-t", x_t); ("x-s-common", x_s_common)]%string /\
    x_t = py_str 1700000000000 /\ length x_s = 44%nat /\
    _mrc (x_t ++ x_s) = Some x9 /\
    xhs_b64_decode x_s_common = Some text /\
    _encode_utf8 text = Some text /\
    json_loads text = Some record /\
    jdict_get record (lit "x9") = Some (JInt x9) /\
    jdict_get record (lit "x6") = Some (JStr x_t) /\
    jdict_get record (lit "x7") = Some (JStr x_s).
Proof.
  apply (sign_xiaohongshu_feed md5_hexdigest 1700000000000).
  - exact md5_hexdigest_shape.
  - lia.
Defined.

(** The claim C5 fails at the clock reading 999999999999, of 12 digits:
    [x_t + x_s] has 56 characters, [_mrc] reads its character 56 and the
    signer raises. *)
Lemma sign_xiaohongshu_counterexample :
  py_str 999999999999 = lit "999999999999" /\
  (length (lit "999999999999") + 44 = 56)%nat /\
  sign_xiaohongshu md5_hexdigest 999999999999 (lit "/api/sns/web/v1/feed") None [] []
    = None.
Proof. repeat split; vm_compute; reflexivity. Qed.


(** * Further properties of the engine *)

(** ** The rotation and the compression function *)

Lemma testbit_above (a k i : Z) : 0 <= a < 2 ^ k -> 0 <= k <= i -> Z.testbit a i = false.
Proof.
  intros Ha Hk. rewrite <- (Z.mod_small a (2 ^ k)) by assumption.
  apply Z.mod_pow2_bits_high. assumption.
Qed.

(** Two words of [k] bits with the same [k] low bits are equal. *)
Lemma bits_eq_below (a b k : Z) :
  0 <= k -> 0 <= a < 2 ^ k -> 0 <= b < 2 ^ k ->
  (forall i, 0 <= i < k -> Z.testbit a i = Z.testbit b i) -> a = b.
Proof.
  intros Hk Ha Hb Hbits. apply Z.bits_inj'. intros i Hi.
  destruct (Z.lt_ge_cases i k) as [Hlt | Hge].
  - apply Hbits. lia.
  - rewrite (testbit_above a k i), (testbit_above b k i) by lia. reflexivity.
Qed.

Lemma de_word (e r : Z) : 0 <= e < 2 ^ 32 -> 0 <= _de e r < 2 ^ 32.
Proof.
  intros He. unfold _de. cbv zeta.
  pose proof (Z.mod_pos_bound r 32 ltac:(lia)) as Hk.
  apply lor_bound; [lia | |].
  - apply land_bound; [lia |]. change 0xFFFFFFFF with (2 ^ 32 - 1). lia.
  - apply shiftr_bound; [lia | lia | assumption].
Qed.

Lemma de_testbit (e r i : Z) :
  0 <= e < 2 ^ 32 -> 0 <= i < 32 ->
  Z.testbit (_de e r) i = Z.testbit e ((i - r) mod 32).
Proof.
  intros He Hi. unfold _de. cbv zeta.
  pose proof (Z.mod_pos_bound r 32 ltac:(lia)) as Hk.
  assert (Hmod : (i - r) mod 32 = (i - r mod 32) mod 32) by div_mod_lia.
  rewrite Hmod. set (k := r mod 32) in *.
  rewrite Z.lor_spec, Z.land_spec, Z.shiftl_spec, Z.shiftr_spec by lia.
  change 0xFFFFFFFF with (Z.ones 32). rewrite Z.ones_spec_low by lia.
  rewrite andb_true_r.
  destruct (Z.lt_ge_cases i k) as [Hlt | Hge].
  - rewrite (Z.testbit_neg_r e (i - k)) by lia. cbn [orb].
    f_equal. div_mod_lia.
  - rewrite (testbit_above e 32 (i + (32 - k))) by lia. rewrite orb_false_r.
    f_equal. div_mod_lia.
Qed.

Lemma foldl_ext_in {A B} (f g : A -> B -> A) (l : list B) :
  (forall a x, In x l -> f a x = g a x) -> forall a, foldl f a l = foldl g a l.
Proof.
  induction l as [| x l IH]; intros Hfg a; simpl; [reflexivity |].
  rewrite Hfg by now left. apply IH. intros a' y Hy. apply Hfg. now right.
Qed.

(** The message expansion reads the first 64 elements of the block only. *)
Lemma sm3_expand_take (block : list Z) : sm3_expand (take 64 block) = sm3_expand block.
Proof.
  unfold sm3_expand. cbv zeta. do 2 f_equal.
  apply foldl_ext_in. intros w t Ht. apply in_seq in Ht.
  rewrite !nth_firstn.
  destruct (Nat.ltb_spec (4 * t) 64); [| lia].
  destruct (Nat.ltb_spec (4 * t + 1) 64); [| lia].
  destruct (Nat.ltb_spec (4 * t + 2) 64); [| lia].
  destruct (Nat.ltb_spec (4 * t + 3) 64); [| lia].
  reflexivity.
Qed.

(** X1. [_de] is the rotation to the left on 32 bits, for every integer
    amount [r], negative or beyond 32 too: on a word of 32 bits it answers
    a word of 32 bits whose bit [i] is the bit [(i - r) mod 32] of the
    input, and rotating the answer by [- r] gives the input back. *)
Theorem de_rotates (e r : Z) :
  0 <= e < 2 ^ 32 ->
  0 <= _de e r < 2 ^ 32 /\
  (forall i, 0 <= i < 32 -> Z.testbit (_de e r) i = Z.testbit e ((i - r) mod 32)) /\
  _de (_de e r) (- r) = e /\
  _de (_de e r) (32 - r) = e.
Proof.
  intros He. pose proof (de_word e r He) as Hw.
  split; [assumption |]. split; [intros i Hi; now apply de_testbit |].
  split.
  - apply (bits_eq_below _ _ 32); [lia | now apply de_word | assumption |].
    intros i Hi. rewrite !de_testbit; try assumption.
    + f_equal. div_mod_lia.
    + apply Z.mod_pos_bound. lia.
  - apply (bits_eq_below _ _ 32); [lia | now apply de_word | assumption |].
    intros i Hi. rewrite !de_testbit; try assumption.
    + f_equal. div_mod_lia.
    + apply Z.mod_pos_bound. lia.
Qed.

Lemma de_rotates_witness :
  0 <= _de 0x80000001 (-31) < 2 ^ 32 /\
  (forall i, 0 <= i < 32 ->
     Z.testbit (_de 0x80000001 (-31)) i = Z.testbit 0x80000001 ((i - (-31)) mod 32)) /\
  _de (_de 0x80000001 (-31)) (- (-31)) = 0x80000001 /\
  _de (_de 0x80000001 (-31)) (32 - (-31)) = 0x80000001.
Proof. apply (de_rotates 0x80000001 (-31)). lia. Defined.

Lemma sm3_compress_take (reg block : list Z) :
  (64 <= length block)%nat -> _sm3_compress reg (take 64 block) = _sm3_compress reg block.
Proof.
  intros Hblock. unfold _sm3_compress.
  rewrite length_take, sm3_expand_take.
  destruct (Nat.ltb_spec (Nat.min 64 (length block)) 64); [lia |].
  destruct (Nat.ltb_spec (length block) 64); [lia |].
  reflexivity.
Qed.

(** X2. [_sm3_compress] answers on every register of at least 8 integers
    and every block of at least 64 integers, whatever their values: eight
    words of 32 bits. It reads the first 64 elements of the block only, so
    that a longer block is cut without notice. *)
Theorem sm3_compress_cuts_block (reg block : list Z) :
  (8 <= length reg)%nat -> (64 <= length block)%nat ->
  exists out,
    _sm3_compress reg block = Some out /\ length out = 8%nat /\
    Forall (fun w => 0 <= w < 2 ^ 32) out /\
    _sm3_compress reg (take 64 block) = Some out.
Proof.
  intros Hreg Hblock.
  destruct (sm3_compress_total reg block Hreg Hblock) as (out & E & Hlen & Hw).
  exists out. repeat split; try assumption.
  rewrite <- E. apply sm3_compress_take. assumption.
Qed.

Lemma sm3_compress_cuts_block_witness :
  exists out,
    _sm3_compress _SM3_IV (replicate 64 97 ++ [1; 2; 3]) = Some out /\ length out = 8%nat /\
    Forall (fun w => 0 <= w < 2 ^ 32) out /\
    _sm3_compress _SM3_IV (take 64 (replicate 64 97 ++ [1; 2; 3])) = Some out.
Proof.
  apply (sm3_compress_cuts_block _SM3_IV (replicate 64 97 ++ [1; 2; 3])); simpl; lia.
Defined.

(** ** The two hash functions *)

(** X3. [_sm3_hash] never raises: on every list of integers it answers 32
    bytes, and they are the register after compressing, from the initial
    value, the 64-byte blocks of the message padded as the SM3 standard
    says, whose length is a multiple of 64. *)
Theorem sm3_hash_total_standard (data : list Z) :
  exists digest reg,
    _sm3_hash data = Some digest /\ length digest = 32%nat /\ is_bytes digest /\
    Z.of_nat (length (sm3_pad_spec data)) mod 64 = 0 /\
    foldM _sm3_compress _SM3_IV (chunks64 (sm3_pad_spec data)) = Some reg /\
    digest = reg_bytes reg.
Proof.
  destruct (sm3_hash_standard data) as (Hstd & digest & E & Hlen & Hbytes).
  rewrite E in Hstd. unfold sm3_spec in Hstd.
  destruct (foldM _sm3_compress _SM3_IV (chunks64 (sm3_pad_spec data))) as [reg |] eqn:Ereg;
    [| discriminate].
  injection Hstd as Hd.
  exists digest, reg. repeat split; try assumption.
  destruct (sm3_pad_spec_length data) as [m ->].
  rewrite Nat2Z.inj_mul, Z.mul_comm. apply Z.mod_mul. lia.
Qed.

(** X4. [_sm3_double] on a text: it raises exactly when UTF-8 cannot
    encode the text (a surrogate, or no code point at all); on any other
    text it answers the 32 bytes of SM3 applied to the SM3 digest of the
    UTF-8 encoding. *)
Theorem sm3_double_twice (data : pystr) :
  (encodable data /\
   exists b d1 d2,
     str_encode data = Some b /\ sm3_spec b = Some d1 /\ sm3_spec d1 = Some d2 /\
     _sm3_double data = Some d2 /\ length d2 = 32%nat /\ is_bytes d2) \/
  (~ encodable data /\ _sm3_double data = None).
Proof.
  unfold _sm3_double.
  destruct (str_encode data) as [b |] eqn:Eb.
  - left. split.
    + unfold str_encode in Eb.
      destruct (mapM utf8_char data) as [l |] eqn:El; [| discriminate].
      apply mapM_Some_1 in El. clear Eb.
      induction El as [| c bs data l Hc _ IH]; constructor; [| exact IH].
      unfold utf8_char in Hc.
      destruct (Z.ltb_spec c 0); [discriminate |].
      destruct (Z.ltb_spec c 0x80); [lia |].
      destruct (Z.ltb_spec c 0x800); [lia |].
      destruct (Z.leb_spec 0xD800 c); destruct (Z.leb_spec c 0xDFFF);
        cbn [andb] in Hc; try discriminate;
        (destruct (Z.ltb_spec c 0x10000); [lia |]);
        (destruct (Z.ltb_spec c 0x110000); [lia | discriminate]).
    + destruct (sm3_hash_standard b) as (Hs1 & d1 & E1 & _ & Hb1).
      destruct (sm3_hash_standard d1) as (Hs2 & d2 & E2 & Hlen & Hb2).
      exists b, d1, d2. bind_simpl. rewrite E1. bind_simpl.
      rewrite (bytes_of_bytes d1 Hb1). bind_simpl.
      rewrite <- Hs1, <- Hs2, E1, E2. repeat split; assumption.
  - right. split; [| reflexivity].
    intros Henc. destruct (str_encode_total data Henc) as [b Hb]. congruence.
Qed.

(** X5. [_ABogus._sm3_sum] agrees with [_sm3_hash] on the empty text and
    on every text whose last 64-character chunk has 1 to 55 characters (a
    length below [2^29] keeps the bit length on 4 bytes): [_sm3_sum] of the
    text and [_sm3_hash] of the list of its character codes answer the
    same 32 bytes. *)
Theorem sm3_sum_agrees_with_hash (data : pystr) :
  data = [] \/ 1 <= Z.of_nat (length data) mod 64 <= 55 ->
  Z.of_nat (length data) < 2 ^ 29 ->
  exists digest,
    _sm3_sum data = Some digest /\ _sm3_hash data = Some digest /\
    length digest = 32%nat /\ is_bytes digest.
Proof.
  intros Hmod Hsize.
  destruct (sm3_hash_standard data) as (Hstd & digest & E & Hlen & Hbytes).
  exists digest. rewrite (sm3_sum_standard_short data Hmod Hsize), <- Hstd.
  repeat split; assumption.
Qed.

Lemma sm3_sum_agrees_with_hash_witness :
  exists digest,
    _sm3_sum (lit "abc") = Some digest /\ _sm3_hash (lit "abc") = Some digest /\
    length digest = 32%nat /\ is_bytes digest.
Proof.
  apply (sm3_sum_agrees_with_hash (lit "abc")).
  - right. vm_compute. split; discriminate.
  - reflexivity.
Defined.

(** X6. [_ABogus._sm3_sum] never raises: on every text, of any length and
    with characters beyond 255 too, it answers 32 bytes. They are the
    register after compressing the full chunks before the last one and
    then, once, the first 64 elements of the last chunk followed by [0x80],
    by zeros up to 60 elements and by the low 4 bytes of the bit length. *)
Theorem sm3_sum_never_raises (data : pystr) :
  let chunks := match chunks64 data with [] => [[]] | _ => chunks64 data end in
  let last := List.last chunks [] in
  exists reg reg',
    foldM _sm3_compress _SM3_IV (removelast chunks) = Some reg /\
    _sm3_compress reg
      (take 64 (last ++ [128] ++ replicate (59 - length last) 0
                     ++ drop 4 (be64 (8 * Z.of_nat (length data))))) = Some reg' /\
    _sm3_sum data = Some (reg_bytes reg') /\
    length (reg_bytes reg') = 32%nat /\ is_bytes (reg_bytes reg').
Proof.
  intros chunks last.
  destruct (sm3_sum_total data) as (digest & E & Hlen & Hbytes).
  rewrite sm3_sum_unfold in E. cbv zeta in E. fold chunks in E. fold last in E.
  destruct (foldM _sm3_compress _SM3_IV (removelast chunks)) as [reg |] eqn:Ereg;
    [| discriminate].
  cbn [mbind option_bind] in E.
  destruct (_sm3_compress reg _) as [reg' |] eqn:Ereg'; [| discriminate].
  cbn [mbind option_bind] in E. injection E as Hd.
  exists reg, reg'. rewrite sm3_sum_unfold. cbv zeta. fold chunks. fold last.
  rewrite Ereg. bind_simpl. rewrite Ereg'. bind_simpl. rewrite Hd.
  repeat split; try assumption.
  rewrite sm3_compress_take; [exact Ereg' |].
  rewrite !length_app, length_replicate. unfold be64. simpl length. lia.
Qed.

(** ** The stream cipher: its keystream and the empty key *)

(** From a generator state, the next [n] keystream bytes: every text of
    [n] characters is encrypted by XOR with them. *)
Lemma rc4_prga_keystream (n : nat) : forall st,
  prga_state st ->
  exists ks, length ks = n /\ is_bytes ks /\
    forall P, wf_str P -> length P = n -> rc4_prga st P = Some (zip_with Z.lxor ks P).
Proof.
  induction n as [| n IH]; intros st Hst.
  - exists []. split; [reflexivity |]. split; [constructor |].
    intros P _ HP. destruct P; [reflexivity | discriminate].
  - destruct (rc4_step_keystream st Hst) as (st' & k & Hst' & Hk & Hstep).
    destruct (IH st' Hst') as (ks & Hlen & Hks & Hrun).
    exists (k :: ks). split; [simpl; now rewrite Hlen |].
    split; [constructor; assumption |].
    intros P HP HlenP. destruct P as [| p P]; [discriminate |].
    inversion HP as [| ? ? Hp HP']; subst.
    cbn [rc4_prga zip_with]. rewrite (Hstep p Hp). bind_simpl.
    rewrite (Hrun P HP') by (simpl in HlenP; lia). reflexivity.
Qed.

Lemma zip_with_lxor_zeros (ks : list Z) :
  zip_with Z.lxor ks (replicate (length ks) 0) = ks.
Proof.
  induction ks as [| k ks IH]; [reflexivity |].
  simpl. now rewrite Z.lxor_0_r, IH.
Qed.

Lemma rc4_ksa_empty : rc4_ksa [] = None.
Proof. vm_compute. reflexivity. Qed.

(** X7. [_rc4] is a stream cipher: under a non-empty key, the texts of [n]
    characters are all encrypted by XOR, character by character, with the
    same [n] keystream bytes, which are the encryption of [n] characters
    [chr(0)]. So the XOR of two ciphertexts of one key is the XOR of their
    plaintexts. *)
Theorem rc4_xors_keystream (K : pystr) (n : nat) :
  K <> [] ->
  exists ks,
    length ks = n /\ is_bytes ks /\
    _rc4 (replicate n 0) K = Some ks /\
    (forall P, wf_str P -> length P = n -> _rc4 P K = Some (zip_with Z.lxor ks P)) /\
    (forall P1 P2 C1 C2, wf_str P1 -> wf_str P2 -> length P1 = n -> length P2 = n ->
       _rc4 P1 K = Some C1 -> _rc4 P2 K = Some C2 ->
       zip_with Z.lxor C1 C2 = zip_with Z.lxor P1 P2).
Proof.
  intros HK. unfold _rc4.
  destruct (rc4_ksa_sbox K HK) as (s & -> & Hs). bind_simpl.
  destruct (rc4_prga_keystream n (0, 0, s)) as (ks & Hlen & Hks & Hrun).
  { simpl. repeat split; try lia; apply Hs. }
  exists ks. split; [assumption |]. split; [assumption |]. split; [| split].
  - rewrite Hrun.
    + rewrite <- Hlen. now rewrite zip_with_lxor_zeros.
    + apply Forall_replicate. lia.
    + apply length_replicate.
  - exact Hrun.
  - intros P1 P2 C1 C2 H1 H2 L1 L2 E1 E2.
    rewrite (Hrun P1 H1 L1) in E1. rewrite (Hrun P2 H2 L2) in E2.
    injection E1 as <-. injection E2 as <-.
    clear Hrun Hks H1 H2. subst n. revert P1 P2 L1 L2.
    induction ks as [| k ks IH]; intros [| p1 P1] [| p2 P2] L1 L2; try discriminate;
      [reflexivity |].
    cbn [zip_with]. f_equal.
    + rewrite Z.lxor_assoc, (Z.lxor_comm p1), <- !Z.lxor_assoc, Z.lxor_nilpotent, Z.lxor_0_l.
      apply Z.lxor_comm.
    + apply IH; simpl in *; lia.
Qed.

Lemma rc4_xors_keystream_witness :
  exists ks,
    length ks = 3%nat /\ is_bytes ks /\
    _rc4 (replicate 3 0) (lit "y") = Some ks /\
    (forall P, wf_str P -> length P = 3%nat ->
       _rc4 P (lit "y") = Some (zip_with Z.lxor ks P)) /\
    (forall P1 P2 C1 C2, wf_str P1 -> wf_str P2 -> length P1 = 3%nat -> length P2 = 3%nat ->
       _rc4 P1 (lit "y") = Some C1 -> _rc4 P2 (lit "y") = Some C2 ->
       zip_with Z.lxor C1 C2 = zip_with Z.lxor P1 P2).
Proof. apply (rc4_xors_keystream (lit "y") 3). discriminate. Defined.

(** X8. On a text, [_rc4] raises exactly when the key is empty (the
    [ZeroDivisionError] of [i % len(key)]); under any other key, whatever
    its characters, it answers with a text of the same length. *)
Theorem rc4_raises_iff_empty_key (P K : pystr) :
  wf_str P ->
  (_rc4 P K = None <-> K = []) /\
  (K <> [] -> exists C, _rc4 P K = Some C /\ length C = length P).
Proof.
  intros HP. split; [split |].
  - intros Hnone. destruct K as [| k K]; [reflexivity |].
    destruct (rc4_total P (k :: K) HP ltac:(discriminate)) as (C & EC & _).
    congruence.
  - intros ->. unfold _rc4. rewrite rc4_ksa_empty. reflexivity.
  - intros HK. destruct (rc4_total P K HP HK) as (C & EC & Hlen & _). eauto.
Qed.

Lemma rc4_raises_iff_empty_key_witness :
  (_rc4 (lit "abc") [] = None <-> @nil Z = []) /\
  (@nil Z <> [] -> exists C, _rc4 (lit "abc") [] = Some C /\ length C = length (lit "abc")).
Proof. apply (rc4_raises_iff_empty_key (lit "abc") []). apply wf_str_lit. Defined.

(** ** The custom base64 of Protocol A and its inverse *)

Lemma land_shiftl_disjoint (x y k : Z) : 0 <= k -> 0 <= y < 2 ^ k -> (x .<< k) .& y = 0.
Proof.
  intros Hk Hy. apply Z.bits_inj'. intros i Hi.
  rewrite Z.land_spec, Z.bits_0.
  destruct (Z.lt_ge_cases i k).
  - rewrite Z.shiftl_spec_low by lia. reflexivity.
  - rewrite (testbit_above y k i) by lia. apply andb_false_r.
Qed.

Lemma lor_shiftl_add (x y k : Z) :
  0 <= k -> 0 <= y < 2 ^ k -> (x .<< k) .| y = x * 2 ^ k + y.
Proof.
  intros Hk Hy. pose proof (land_shiftl_disjoint x y k Hk Hy) as Hd.
  rewrite <- Z.lxor_lor, <- Z.add_nocarry_lxor by assumption.
  now rewrite Z.shiftl_mul_pow2.
Qed.

Lemma custom_b64_word_value (a b c : Z) :
  0 <= b < 256 -> 0 <= c < 256 -> custom_b64_word a b c = 65536 * a + 256 * b + c.
Proof.
  intros Hb Hc. unfold custom_b64_word.
  replace (a .<< 16) with ((a .<< 8) .<< 8) by (rewrite Z.shiftl_shiftl by lia; reflexivity).
  rewrite <- Z.shiftl_lor.
  rewrite (lor_shiftl_add a b 8) by (simpl; lia).
  rewrite (lor_shiftl_add _ c 8) by (simpl; lia).
  change (2 ^ 8) with 256. lia.
Qed.

(** The index [_custom_b64] reads the table at, for the pair [(j, 63 << j)]. *)
Lemma custom_b64_index (n j k : Z) :
  0 <= j -> k = 63 .<< j -> (n .& k) .>> j = (n / 2 ^ j) mod 64.
Proof.
  intros Hj ->. rewrite Z.shiftr_land, Z.shiftr_shiftl_l, Z.sub_diag, Z.shiftl_0_r by lia.
  rewrite (land_ones_r _ 6) by (reflexivity || lia).
  now rewrite Z.shiftr_div_pow2.
Qed.

Lemma b64_inner_prefix (table : pystr) (n : Z) (i len : nat) (t : pystr)
    (jk : list (Z * Z)) : forall r,
  b64_inner table n i len jk (t ++ r) = (fun q => t ++ q) <$> b64_inner table n i len jk r.
Proof.
  induction jk as [| [j k] jk IH]; intros r; cbn [b64_inner]; [reflexivity |].
  destruct ((j =? 6) && (len <=? i + 1)%nat); [reflexivity |].
  destruct ((j =? 0) && (len <=? i + 2)%nat); [reflexivity |].
  destruct (py_index table _) as [c |]; [| reflexivity]. bind_simpl.
  rewrite <- app_assoc. apply IH.
Qed.

Lemma b64_outer_prefix (table s t r : pystr) (i : nat) :
  b64_outer table s (t ++ r) i = (fun q => t ++ q) <$> b64_outer table s r i.
Proof.
  unfold b64_outer.
  match goal with |- context [mbind _ ?m] => destruct m as [n |]; [| reflexivity] end.
  bind_simpl. apply b64_inner_prefix.
Qed.

Lemma b64_loop_prefix (table s t : pystr) (idxs : list nat) : forall r,
  foldM (b64_outer table s) (t ++ r) idxs
  = (fun q => t ++ q) <$> foldM (b64_outer table s) r idxs.
Proof.
  induction idxs as [| i idxs IH]; intros r; [reflexivity |].
  cbn [foldM]. rewrite b64_outer_prefix.
  destruct (b64_outer table s r i); [apply IH | reflexivity].
Qed.

(** The loop of [_custom_b64] at index [i + 3] of a text is the loop at
    index [i] of the text without its first three characters. *)
Lemma b64_outer_shift (table rest r : pystr) (a b c : Z) (i : nat) :
  b64_outer table (a :: b :: c :: rest) r (i + 3) = b64_outer table rest r i.
Proof.
  unfold b64_outer. simpl length.
  replace (i + 3)%nat with (S (S (S i))) by lia.
  replace (S (S (S i)) + 1)%nat with (S (S (S (i + 1)))) by lia.
  replace (S (S (S i)) + 2)%nat with (S (S (S (i + 2)))) by lia.
  match goal with
  | |- mbind ?f1 _ = mbind ?f2 ?m2 =>
      change (mbind f1 m2 = mbind f2 m2); destruct m2 as [n |]; [| reflexivity]
  end.
  bind_simpl. b64_inner_run.
  assert (H1 : (S (S (S (length rest))) <=? S (S (S i)) + 1)%nat
               = (length rest <=? i + 1)%nat) by reflexivity.
  assert (H2 : (S (S (S (length rest))) <=? S (S (S i)) + 2)%nat
               = (length rest <=? i + 2)%nat) by reflexivity.
  rewrite H1, H2. reflexivity.
Qed.

Section CustomB64.

Variable key : string.
Variable table : pystr.
Hypothesis Hkey : dict_get _ABOGUS_STR key = Some table.
Hypothesis Htab : b64_table_okb table = true.

(** A character of the table, with its index. *)
Lemma b64_table_char (i : Z) :
  0 <= i < 64 ->
  exists c, py_index table i = Some c /\ index_of table c = Some i /\ c <> 61 /\
            In c (take 64 table).
Proof.
  intros Hi. unfold b64_table_okb in Htab. apply andb_true_iff in Htab as [Hok Hpad].
  destruct (alphabet_okb_ok _ _ Hok) as [_ H]. destruct (H i Hi) as (c & Ec & Ei).
  assert (Hin : In c (take 64 table)).
  { rewrite py_index_lookup in Ec by lia.
    apply list_elem_of_In. apply (list_elem_of_lookup_2 _ (Z.to_nat i)).
    rewrite lookup_take_lt by lia. assumption. }
  exists c. repeat split; try assumption.
  intros ->. apply negb_true_iff in Hpad.
  assert (existsb (Z.eqb 61) (take 64 table) = true); [| congruence].
  apply existsb_exists. exists 61. split; [assumption | apply Z.eqb_refl].
Qed.

Lemma b64_table_at (n j : Z) :
  0 <= j ->
  exists c, py_index table ((n / 2 ^ j) mod 64) = Some c /\
            index_of table c = Some ((n / 2 ^ j) mod 64) /\ c <> 61 /\
            In c (take 64 table).
Proof. intros Hj. apply b64_table_char. apply Z.mod_pos_bound. lia. Qed.

(** The first group of a text of three characters or more, and the rest. *)
Lemma custom_b64_cons3 (a b c : Z) (rest : pystr) :
  exists t,
    length t = 4%nat /\ Forall (fun x => In x (take 64 table)) t /\
    (0 <= a < 256 -> 0 <= b < 256 -> 0 <= c < 256 ->
     forall rest' r, custom_b64_decode table rest' = Some r ->
       custom_b64_decode table (t ++ rest') = Some (a :: b :: c :: r)) /\
    _custom_b64 (a :: b :: c :: rest) key
    = (r ← _custom_b64 rest key; Some (t ++ r)).
Proof.
  set (n := custom_b64_word a b c).
  destruct (b64_table_at n 18) as (c1 & E1 & I1 & N1 & T1); [lia |].
  destruct (b64_table_at n 12) as (c2 & E2 & I2 & N2 & T2); [lia |].
  destruct (b64_table_at n 6) as (c3 & E3 & I3 & N3 & T3); [lia |].
  destruct (b64_table_at n 0) as (c4 & E4 & I4 & N4 & T4); [lia |].
  exists [c1; c2; c3; c4]. split; [reflexivity |].
  split; [repeat constructor; assumption |]. split.
  - intros Ha Hb Hc rest' r Hr. cbn [app custom_b64_decode].
    rewrite I1, I2. bind_simpl.
    destruct (Z.eqb_spec c3 61); [congruence |]. rewrite I3. bind_simpl.
    destruct (Z.eqb_spec c4 61); [congruence |]. rewrite I4. bind_simpl.
    rewrite Hr. bind_simpl. subst n. rewrite custom_b64_word_value by assumption.
    change (2 ^ 18) with 262144. change (2 ^ 12) with 4096. change (2 ^ 6) with 64.
    change (2 ^ 0) with 1.
    f_equal. f_equal; [| f_equal; [| f_equal]]; div_mod_lia.
  - unfold _custom_b64. rewrite Hkey. bind_simpl.
    rewrite (range_step_zero (length (a :: b :: c :: rest)) 3) by lia.
    simpl length.
    replace (S (S (S (length rest))) - 3)%nat with (length rest) by lia.
    cbn [foldM]. unfold b64_outer at 1. simpl length.
    change (0 + 2 <? S (S (S (length rest))))%nat with true.
    cbn [lookup list_lookup Nat.add]. bind_simpl.
    fold (custom_b64_word a b c). fold n. b64_inner_run.
    change (S (S (S (length rest))) <=? 0 + 1)%nat with false.
    change (S (S (S (length rest))) <=? 0 + 2)%nat with false.
    cbv iota.
    rewrite (custom_b64_index n 18), (custom_b64_index n 12), (custom_b64_index n 6),
            (custom_b64_index n 0) by (reflexivity || lia).
    rewrite E1. bind_simpl. rewrite E2. bind_simpl. rewrite E3. bind_simpl.
    rewrite E4. bind_simpl. cbn [app].
    rewrite <- foldM_map.
    rewrite (foldM_ext _ (b64_outer table rest)) by (intros; apply b64_outer_shift).
    pose proof (b64_loop_prefix table rest [c1; c2; c3; c4]
                  (range_step 0 (length rest) 3) []) as Hp.
    rewrite app_nil_r in Hp. rewrite Hp. clear Hp.
    destruct (foldM (b64_outer table rest) [] _) as [r |]; [| reflexivity].
    bind_simpl. rewrite <- app_assoc. do 3 f_equal.
    rewrite length_app. change (length [c1; c2; c3; c4]) with 4%nat.
    replace (4 + length r)%nat with (length r + 1 * 4)%nat by lia.
    now rewrite Nat.Div0.mod_add.
Qed.

Lemma custom_b64_one (a : Z) :
  exists t,
    _custom_b64 [a] key = Some t /\ length t = 4%nat /\
    Forall (fun x => In x (take 64 table) \/ x = 61) t /\
    (0 <= a < 256 -> custom_b64_decode table t = Some [a]).
Proof.
  set (n := a .<< 16).
  destruct (b64_table_at n 18) as (c1 & E1 & I1 & N1 & T1); [lia |].
  destruct (b64_table_at n 12) as (c2 & E2 & I2 & N2 & T2); [lia |].
  exists [c1; c2; 61; 61]. split; [| split; [reflexivity | split]].
  - unfold _custom_b64. rewrite Hkey. bind_simpl.
    change (range_step 0 (length [a]) 3) with [0%nat].
    cbn [foldM]. unfold b64_outer. simpl length.
    change (0 + 2 <? 1)%nat with false. change (0 + 1 <? 1)%nat with false.
    cbn [lookup list_lookup]. bind_simpl. fold n. b64_inner_run.
    change (1 <=? 0 + 1)%nat with true. change (1 <=? 0 + 2)%nat with true.
    rewrite (custom_b64_index n 18), (custom_b64_index n 12) by (reflexivity || lia).
    rewrite E1. bind_simpl. rewrite E2. bind_simpl. reflexivity.
  - repeat (constructor; [solve [left; assumption | right; reflexivity] |]). constructor.
  - intros Ha. cbn [custom_b64_decode]. rewrite I1, I2. bind_simpl.
    change (61 =? 61) with true. cbv iota. subst n.
    rewrite Z.shiftl_mul_pow2 by lia.
    change (2 ^ 18) with 262144. change (2 ^ 12) with 4096. change (2 ^ 16) with 65536.
    f_equal. f_equal. div_mod_lia.
Qed.

Lemma custom_b64_two (a b : Z) :
  exists t,
    _custom_b64 [a; b] key = Some t /\ length t = 4%nat /\
    Forall (fun x => In x (take 64 table) \/ x = 61) t /\
    (0 <= a < 256 -> 0 <= b < 256 -> custom_b64_decode table t = Some [a; b]).
Proof.
  set (n := (a .<< 16) .| (b .<< 8)).
  destruct (b64_table_at n 18) as (c1 & E1 & I1 & N1 & T1); [lia |].
  destruct (b64_table_at n 12) as (c2 & E2 & I2 & N2 & T2); [lia |].
  destruct (b64_table_at n 6) as (c3 & E3 & I3 & N3 & T3); [lia |].
  exists [c1; c2; c3; 61]. split; [| split; [reflexivity | split]].
  - unfold _custom_b64. rewrite Hkey. bind_simpl.
    change (range_step 0 (length [a; b]) 3) with [0%nat].
    cbn [foldM]. unfold b64_outer. simpl length.
    change (0 + 2 <? 2)%nat with false. change (0 + 1 <? 2)%nat with true.
    cbn [lookup list_lookup Nat.add]. bind_simpl. fold n. b64_inner_run.
    change (2 <=? 1)%nat with false. change (2 <=? 2)%nat with true.
    rewrite (custom_b64_index n 18), (custom_b64_index n 12), (custom_b64_index n 6)
      by (reflexivity || lia).
    rewrite E1. bind_simpl. rewrite E2. bind_simpl. rewrite E3. bind_simpl. reflexivity.
  - repeat (constructor; [solve [left; assumption | right; reflexivity] |]). constructor.
  - intros Ha Hb. cbn [custom_b64_decode]. rewrite I1, I2. bind_simpl.
    destruct (Z.eqb_spec c3 61); [congruence |]. rewrite I3. bind_simpl.
    change (61 =? 61) with true. cbv iota.
    assert (Hn : n = 65536 * a + 256 * b).
    { pose proof (custom_b64_word_value a b 0 Hb ltac:(lia)) as Hw.
      unfold custom_b64_word in Hw. rewrite Z.lor_0_r in Hw. subst n. lia. }
    rewrite Hn.
    change (2 ^ 18) with 262144. change (2 ^ 12) with 4096. change (2 ^ 6) with 64.
    f_equal. f_equal; [| f_equal]; div_mod_lia.
Qed.

(** [_custom_b64] over a table of the engine: it answers on every text,
    with four characters for every three of the text, and its answer on a
    text of bytes decodes to the text. *)
Lemma custom_b64_spec (n : nat) : forall s : pystr,
  (length s <= n)%nat ->
  exists r,
    _custom_b64 s key = Some r /\
    length r = (4 * ((length s + 2) / 3))%nat /\
    Forall (fun x => In x (take 64 table) \/ x = 61) r /\
    (is_bytes s -> custom_b64_decode table r = Some s).
Proof.
  induction (lt_wf n) as [n _ IH]. intros s Hn.
  destruct s as [| a [| b [| c rest]]].
  - exists []. unfold _custom_b64. rewrite Hkey. repeat split. constructor.
  - destruct (custom_b64_one a) as (t & Et & Hlen & Hall & Hdec).
    exists t. repeat split; try assumption.
    intros Hs. inversion Hs; subst. now apply Hdec.
  - destruct (custom_b64_two a b) as (t & Et & Hlen & Hall & Hdec).
    exists t. repeat split; try assumption.
    intros Hs. inversion Hs as [| ? ? Ha Hs']; subst. inversion Hs'; subst. now apply Hdec.
  - destruct (IH (length rest) ltac:(simpl in Hn; lia) rest (Nat.le_refl _))
      as (r & Er & Hlen & Hall & Hdec).
    destruct (custom_b64_cons3 a b c rest) as (t & Htl & Htall & Htdec & Et).
    exists (t ++ r). rewrite Et, Er. bind_simpl. split; [reflexivity |].
    split; [| split].
    + rewrite length_app, Htl, Hlen. simpl length.
      replace (S (S (S (length rest))) + 2)%nat with (length rest + 2 + 1 * 3)%nat by lia.
      rewrite Nat.div_add by lia. lia.
    + apply Forall_app. split; [| assumption].
      eapply Forall_impl; [exact Htall |]. simpl. auto.
    + intros Hs. inversion Hs as [| ? ? Ha Hs1]; subst.
      inversion Hs1 as [| ? ? Hb Hs2]; subst. inversion Hs2 as [| ? ? Hc Hrest]; subst.
      apply Htdec; auto.
Qed.

End CustomB64.

Lemma abogus_tables_ok (key : string) (table : pystr) :
  dict_get _ABOGUS_STR key = Some table -> b64_table_okb table = true.
Proof.
  unfold _ABOGUS_STR. cbn [dict_get].
  repeat (destruct (String.eqb _ key);
          [intros [= <-]; vm_compute; reflexivity |]).
  discriminate.
Qed.

Lemma query_safe_check (l : pystr) :
  forallb query_safeb l = true -> Forall query_safe l.
Proof.
  intros H. apply Forall_forall. intros c Hc. apply list_elem_of_In in Hc.
  rewrite forallb_forall in H. specialize (H c Hc). unfold query_safeb in H.
  unfold query_safe. lia.
Qed.

(** X9. [_custom_b64] raises exactly on an unknown table name; with one of
    the five tables it answers on every text, with four characters for
    every three characters of the text: each one is among the first 64
    characters of the table, or the padding ['=']. *)
Theorem custom_b64_shape (s : pystr) (key : string) :
  match dict_get _ABOGUS_STR key with
  | None => _custom_b64 s key = None
  | Some table =>
      exists r, _custom_b64 s key = Some r /\
                length r = (4 * ((length s + 2) / 3))%nat /\
                Forall (fun x => In x (take 64 table) \/ x = 61) r
  end.
Proof.
  destruct (dict_get _ABOGUS_STR key) as [table |] eqn:Hkey.
  - destruct (custom_b64_spec key table Hkey (abogus_tables_ok _ _ Hkey)
                (length s) s (Nat.le_refl _)) as (r & Er & Hlen & Hall & _).
    exists r. auto.
  - unfold _custom_b64. rewrite Hkey. reflexivity.
Qed.

(** X10. [_custom_b64] loses nothing of a text of bytes: with each of the
    five tables, reading its answer back four characters at a time gives
    the text. *)
Theorem custom_b64_roundtrip (s : pystr) (key : string) (table : pystr) :
  dict_get _ABOGUS_STR key = Some table -> is_bytes s ->
  exists r, _custom_b64 s key = Some r /\ custom_b64_decode table r = Some s.
Proof.
  intros Hkey Hs.
  destruct (custom_b64_spec key table Hkey (abogus_tables_ok _ _ Hkey)
              (length s) s (Nat.le_refl _)) as (r & Er & _ & _ & Hdec).
  exists r. split; [assumption | now apply Hdec].
Qed.

Lemma custom_b64_roundtrip_witness :
  exists r, _custom_b64 (lit "Mozilla/5.0") "s4" = Some r /\
            custom_b64_decode (lit "Dkdpgh2ZmsQB80/MfvV36XI1R45-WUAlEixNLwoqYTOPuzKFjJnry79HbGcaStCe") r
            = Some (lit "Mozilla/5.0").
Proof.
  apply (custom_b64_roundtrip (lit "Mozilla/5.0") "s4").
  - reflexivity.
  - apply lit_bytes.
Defined.

(** ** Protocol A: the random prefix and the signature *)

Lemma mask_pair_check :
  forallb (fun v =>
    forallb (fun de => ((v .& 170 .| fst de) .& 170 .| (v .& 85 .| snd de) .& 85) =? v)
            [(1, 2); (5, 40); (1, 0); (0, 0); (5, 0)])
    (seqZ 0 256) = true.
Proof. vm_compute. reflexivity. Qed.

(** The masks 170 and 85 split a byte in two halves that the constants of
    [_gen_string_1] do not touch. *)
Lemma mask_pair (v d e : Z) :
  0 <= v < 256 -> In (d, e) [(1, 2); (5, 40); (1, 0); (0, 0); (5, 0)] ->
  (v .& 170 .| d) .& 170 .| (v .& 85 .| e) .& 85 = v.
Proof.
  intros Hv Hde. pose proof mask_pair_check as H.
  rewrite forallb_forall in H.
  assert (Hin : In v (seqZ 0 256)) by (apply list_elem_of_In, elem_of_seqZ; lia).
  specialize (H v Hin). rewrite forallb_forall in H.
  specialize (H (d, e) Hde). simpl in H. lia.
Qed.

Lemma random_list_read (r d e f g : Z) :
  0 <= r < 65536 ->
  In (d, e) [(1, 2); (5, 40); (1, 0); (0, 0); (5, 0)] ->
  In (f, g) [(1, 2); (5, 40); (1, 0); (0, 0); (5, 0)] ->
  ((r .& 255 .& 170 .| d) .& 170 .| (r .& 255 .& 85 .| e) .& 85)
  + 256 * ((r .>> 8 .& 170 .| f) .& 170 .| (r .>> 8 .& 85 .| g) .& 85) = r.
Proof.
  intros Hr Hde Hfg.
  rewrite (land_ones_r r 8) by (reflexivity || lia).
  rewrite Z.shiftr_div_pow2 by lia. change (2 ^ 8) with 256.
  rewrite (mask_pair (r mod 256) d e), (mask_pair (r / 256) f g);
    try assumption; div_mod_lia.
Qed.

Lemma random_10000_range (rnd : rng) (k : nat) : 0 <= random_10000 rnd k <= 10000.
Proof.
  unfold random_10000. pose proof (Z.mod_pos_bound (rnd k) 10001 ltac:(lia)). lia.
Qed.

(** X11. [_gen_string_1] never raises: it answers 12 bytes, and they hide
    nothing of the three random numbers it drew: each group of four
    bytes, read through the masks 170 and 85, gives its number back. *)
Theorem gen_string_1_reads_back (rnd : rng) (k : nat) :
  exists s,
    _gen_string_1 rnd k = Some s /\ length s = 12%nat /\ is_bytes s /\
    gen_string_1_read s 0 = random_10000 rnd k /\
    gen_string_1_read s 1 = random_10000 rnd (k + 1) /\
    gen_string_1_read s 2 = random_10000 rnd (k + 2).
Proof.
  unfold _gen_string_1. cbv zeta.
  destruct (random_list_bytes (random_10000 rnd k) 170 85 1 2 5 (45 .& 170))
    as [L1 B1]; try lia; try (change (45 .& 170) with 40; lia).
  destruct (random_list_bytes (random_10000 rnd (k + 1)) 170 85 1 0 0 0)
    as [L2 B2]; try lia.
  destruct (random_list_bytes (random_10000 rnd (k + 2)) 170 85 1 0 5 0)
    as [L3 B3]; try lia.
  assert (B : is_bytes (_random_list (random_10000 rnd k) 170 85 1 2 5 (45 .& 170)
                        ++ _random_list (random_10000 rnd (k + 1)) 170 85 1 0 0 0
                        ++ _random_list (random_10000 rnd (k + 2)) 170 85 1 0 5 0)).
  { apply Forall_app; split; [exact B1 | apply Forall_app; split; [exact B2 | exact B3]]. }
  rewrite (mapM_chr _ (is_bytes_wf_str _ B)).
  eexists. split; [reflexivity |]. split; [rewrite !length_app; lia |].
  split; [exact B |]. clear L1 B1 L2 B2 L3 B3 B.
  pose proof (random_10000_range rnd k) as R0.
  pose proof (random_10000_range rnd (k + 1)) as R1.
  pose proof (random_10000_range rnd (k + 2)) as R2.
  unfold gen_string_1_read, _random_list. change (45 .& 170) with 40.
  cbn [app nth Nat.mul Nat.add].
  split; [| split]; apply random_list_read; try lia; simpl; tauto.
Qed.

(** [sign_douyin] answers with the encoding over the table ["s4"] of 121
    characters: the 12 of the random prefix and the 109 encrypted ones. *)
Lemma sign_douyin_returns (start_time : Z) (rnd : rng)
    (params user_agent method : pystr) :
  0 <= start_time < 2 ^ 52 - 8 ->
  encodable params -> encodable method -> wf_str user_agent ->
  exists s1 s2,
    _gen_string_1 rnd 1 = Some s1 /\ length s1 = 12%nat /\ length s2 = 109%nat /\
    sign_douyin start_time rnd params user_agent method = _custom_b64 (s1 ++ s2) "s4".
Proof.
  intros Htime Hparams Hmethod Hua. unfold sign_douyin.
  destruct (ABogus_init_total user_agent Hua) as (ab & -> & Hcode & Hblen & Hualen & Huab).
  bind_simpl. unfold ABogus_sign. cbv zeta.
  assert (Hj : 4 <= randint rnd 0 4 8 <= 8).
  { unfold randint. pose proof (Z.mod_pos_bound (rnd 0%nat) (8 - 4 + 1) ltac:(lia)). lia. }
  set (end_time := start_time + randint rnd 0 4 8).
  assert (Hcus : encodable (lit "cus")) by (repeat constructor; lia).
  destruct (sm3_double_total (params ++ lit "cus")) as (pc & -> & Hpl & Hpb);
    [apply Forall_app; now split |].
  destruct (sm3_double_total (method ++ lit "cus")) as (mc & -> & Hml & Hmb);
    [apply Forall_app; now split |].
  bind_simpl.
  destruct (digest_byte pc 21 Hpl Hpb) as (p21 & -> & Hp21); [lia |].
  destruct (digest_byte mc 21 Hml Hmb) as (m21 & -> & Hm21); [lia |].
  destruct (digest_byte (ua_code ab) 23 Hualen Huab) as (u23 & -> & Hu23); [lia |].
  destruct (digest_byte pc 22 Hpl Hpb) as (p22 & -> & Hp22); [lia |].
  destruct (digest_byte mc 22 Hml Hmb) as (m22 & -> & Hm22); [lia |].
  destruct (digest_byte (ua_code ab) 24 Hualen Huab) as (u24 & -> & Hu24); [lia |].
  bind_simpl. rewrite Hcode, Hblen.
  pose proof (int_div_256_4_bound end_time ltac:(unfold end_time; lia)) as He.
  pose proof (int_div_256_4_bound start_time ltac:(lia)) as Hs.
  set (a := [44; _; 0; 0; 0; 0; 24; p21; m21; 0; u23; _; 0; 0; 0; 1; 0; 239; p22; m22;
             u24; _; 0; 0; 0; 0; _; 0; 0; 14; _; _; 0; _; _; 3; _; 1; _; 1; 64; 0; 0; 0]).
  assert (Ha : Forall (fun x => 0 <= x < 2 ^ 20) a).
  { unfold a.
    repeat (constructor;
            [first [ lia | exact He | exact Hs
                   | match goal with
                     | |- 0 <= ?x .& 255 < _ =>
                         pose proof (land_bound x 255 8 ltac:(lia) ltac:(lia)); lia
                     end ] |]).
    constructor. }
  assert (Hcheck : 0 <= foldl Z.lxor 0 a < 2 ^ 20)
    by (apply foldl_lxor_bound; [lia | lia | exact Ha]).
  assert (Hlen_a : length a = 44%nat) by reflexivity.
  assert (Hwf : wf_str (a ++ _DEFAULT_BROWSER ++ [foldl Z.lxor 0 a])).
  { apply Forall_app. split; [eapply Forall_impl; [exact Ha |]; simpl; intros; lia |].
    apply Forall_app. split; [apply wf_str_lit |]. constructor; [lia | constructor]. }
  rewrite (mapM_chr _ Hwf). bind_simpl.
  destruct (rc4_total _ (lit "y") Hwf ltac:(discriminate)) as (s2 & -> & Hs2 & _).
  bind_simpl.
  destruct (gen_string_1_total rnd 1) as (s1 & E1 & Hs1 & _). rewrite E1. bind_simpl.
  exists s1, s2. split; [reflexivity |]. split; [assumption |].
  split; [| reflexivity].
  rewrite Hs2, !length_app, Hlen_a. reflexivity.
Qed.

Lemma s4_query_safe (x : Z) :
  In x (take 64 (lit "Dkdpgh2ZmsQB80/MfvV36XI1R45-WUAlEixNLwoqYTOPuzKFjJnry79HbGcaStCe"))
  \/ x = 61 ->
  query_safe x.
Proof.
  intros Hx.
  assert (Hall : Forall query_safe
    (61 :: take 64 (lit "Dkdpgh2ZmsQB80/MfvV36XI1R45-WUAlEixNLwoqYTOPuzKFjJnry79HbGcaStCe")))
    by (apply query_safe_check; vm_compute; reflexivity).
  rewrite Forall_forall in Hall. apply Hall. apply list_elem_of_In.
  destruct Hx as [Hx | ->]; [now right | now left].
Qed.

(** X12. The signature of [sign_douyin] can go into a URL query as it is,
    which is what the search of clawkit does with it: each of its 164
    characters is a letter, a digit or one of [-], [/] and [=]; there is no
    [+], [&], [#], [%] or space in it. *)
Theorem sign_douyin_query_safe (start_time : Z) (rnd : rng)
    (params user_agent method : pystr) :
  0 <= start_time < 2 ^ 52 - 8 ->
  encodable params -> encodable method -> wf_str user_agent ->
  exists sig,
    sign_douyin start_time rnd params user_agent method = Some sig /\
    length sig = 164%nat /\ Forall query_safe sig /\
    Forall (fun c => c <> 43 /\ c <> 38 /\ c <> 35 /\ c <> 37 /\ c <> 32) sig.
Proof.
  intros Htime Hparams Hmethod Hua.
  destruct (sign_douyin_returns start_time rnd params user_agent method
              Htime Hparams Hmethod Hua) as (s1 & s2 & _ & H1 & H2 & ->).
  destruct (custom_b64_spec "s4" _ eq_refl (abogus_tables_ok "s4" _ eq_refl)
              (length (s1 ++ s2)) (s1 ++ s2) (Nat.le_refl _)) as (sig & E & Hlen & Hall & _).
  exists sig. split; [assumption |]. split.
  - rewrite Hlen, length_app, H1, H2. reflexivity.
  - assert (Hsafe : Forall query_safe sig).
    { eapply Forall_impl; [exact Hall |]. intros x Hx. now apply s4_query_safe. }
    split; [assumption |].
    eapply Forall_impl; [exact Hsafe |]. unfold query_safe. intros; lia.
Qed.

Lemma sign_douyin_query_safe_witness :
  exists sig,
    sign_douyin 1700000000000 (fun _ => 0)
      (lit "keyword=cat&search_channel=aweme_video_web&sort_type=0&publish_time=0&offset=0&count=10&aid=6383&cookie_enabled=true&platform=PC&downlink=10")
      (lit "Mozilla/5.0 (Windows NT 10.0; Win64; x64) AppleWebKit/537.36 (KHTML, like Gecko) Chrome/131.0.0.0 Safari/537.36")
      (lit "GET") = Some sig /\
    length sig = 164%nat /\ Forall query_safe sig /\
    Forall (fun c => c <> 43 /\ c <> 38 /\ c <> 35 /\ c <> 37 /\ c <> 32) sig.
Proof.
  apply sign_douyin_query_safe.
  - lia.
  - apply encodable_ascii, lit_ascii_check. reflexivity.
  - apply encodable_ascii, lit_ascii_check. reflexivity.
  - apply wf_str_lit.
Defined.

(** X13. [sign_douyin] reads the query string through two bytes only, the
    bytes 21 and 22 of the double hash of the query followed by ["cus"]:
    two query strings that agree on them get the same signature, at the
    same clock reading and random outcome, whatever else they hold. *)
Theorem sign_douyin_reads_two_bytes (start_time : Z) (rnd : rng)
    (params params' user_agent method : pystr) (pc pc' : list Z) :
  _sm3_double (params ++ lit "cus") = Some pc ->
  _sm3_double (params' ++ lit "cus") = Some pc' ->
  py_index pc 21 = py_index pc' 21 -> py_index pc 22 = py_index pc' 22 ->
  sign_douyin start_time rnd params user_agent method
  = sign_douyin start_time rnd params' user_agent method.
Proof.
  intros E E' H21 H22. unfold sign_douyin.
  destruct (ABogus_init user_agent) as [ab |]; [| reflexivity]. bind_simpl.
  unfold ABogus_sign. cbv zeta. rewrite E, E'. bind_simpl.
  destruct (_sm3_double (method ++ lit "cus")) as [mc |]; [| reflexivity]. bind_simpl.
  rewrite H21, H22. reflexivity.
Qed.

Lemma sign_douyin_reads_two_bytes_witness :
  lit "aid=165" <> lit "aid=475" /\
  sign_douyin 1700000000000 (fun _ => 0) (lit "aid=165") _DEFAULT_UA (lit "GET")
  = sign_douyin 1700000000000 (fun _ => 0) (lit "aid=475") _DEFAULT_UA (lit "GET").
Proof.
  split; [discriminate |].
  apply (sign_douyin_reads_two_bytes 1700000000000 (fun _ => 0) (lit "aid=165")
           (lit "aid=475") _DEFAULT_UA (lit "GET")
           (default [] (_sm3_double (lit "aid=165" ++ lit "cus")))
           (default [] (_sm3_double (lit "aid=475" ++ lit "cus"))));
    vm_compute; reflexivity.
Defined.

(** X14. [_ABogus.__init__] never raises on a user agent: the digest it
    keeps is [_sm3_sum] of the 4 characters per 3 of the encrypted user
    agent, encoded over the table ["s3"]. Whenever the number [g] of these
    groups of 4 leaves 1 to 13 modulo 16, or the user agent is empty, the
    last chunk has room for the padding and the digest is the SM3 digest
    that [_sm3_hash] computes on the character codes; the other user
    agents are the ones that the padding of [_sm3_sum] gets wrong. *)
Theorem abogus_init_standard_digest (user_agent : pystr) :
  wf_str user_agent -> Z.of_nat (length user_agent) < 10 ^ 8 ->
  user_agent = [] \/ 1 <= Z.of_nat ((length user_agent + 2) / 3) mod 16 <= 13 ->
  exists ab ua_rc4 ua_b64,
    ABogus_init user_agent = Some ab /\
    _rc4 user_agent [0; 1; 14] = Some ua_rc4 /\
    _custom_b64 ua_rc4 "s3" = Some ua_b64 /\
    length ua_b64 = (4 * ((length user_agent + 2) / 3))%nat /\
    _sm3_sum ua_b64 = Some (ua_code ab) /\
    _sm3_hash ua_b64 = Some (ua_code ab) /\
    sm3_spec ua_b64 = Some (ua_code ab) /\
    length (ua_code ab) = 32%nat.
Proof.
  intros Hwf Hsize Hgroups. unfold ABogus_init.
  destruct (rc4_total user_agent [0; 1; 14] Hwf ltac:(discriminate))
    as (ua_rc4 & E1 & Hl1 & _).
  destruct (custom_b64_spec "s3" _ eq_refl (abogus_tables_ok "s3" _ eq_refl)
              (length ua_rc4) ua_rc4 (Nat.le_refl _)) as (ua_b64 & E2 & Hl2 & _).
  rewrite Hl1 in Hl2.
  assert (Hstd : _sm3_sum ua_b64 = sm3_spec ua_b64).
  { apply sm3_sum_standard_short.
    - destruct Hgroups as [-> | Hg].
      + left. destruct ua_b64; [reflexivity | discriminate].
      + right. rewrite Hl2, Nat2Z.inj_mul. change (Z.of_nat 4) with 4.
        set (g := Z.of_nat ((length user_agent + 2) / 3)) in *. div_mod_lia.
    - rewrite Hl2, Nat2Z.inj_mul. change (Z.of_nat 4) with 4.
      assert (Z.of_nat ((length user_agent + 2) / 3) <= Z.of_nat (length user_agent + 2)).
      { apply inj_le. apply Nat.Div0.div_le_upper_bound. lia. }
      lia. }
  destruct (sm3_hash_standard ua_b64) as (Hh & digest & E3 & Hl3 & _).
  rewrite E1. bind_simpl. rewrite E2. bind_simpl.
  rewrite Hstd, <- Hh, E3. bind_simpl.
  eexists _, ua_rc4, ua_b64. split; [reflexivity |]. cbn [ua_code].
  repeat split; congruence || assumption.
Qed.

Lemma abogus_init_standard_digest_witness :
  exists ab ua_rc4 ua_b64,
    ABogus_init _DEFAULT_UA = Some ab /\
    _rc4 _DEFAULT_UA [0; 1; 14] = Some ua_rc4 /\
    _custom_b64 ua_rc4 "s3" = Some ua_b64 /\
    length ua_b64 = (4 * ((length _DEFAULT_UA + 2) / 3))%nat /\
    _sm3_sum ua_b64 = Some (ua_code ab) /\
    _sm3_hash ua_b64 = Some (ua_code ab) /\
    sm3_spec ua_b64 = Some (ua_code ab) /\
    length (ua_code ab) = 32%nat.
Proof.
  apply (abogus_init_standard_digest _DEFAULT_UA).
  - apply wf_str_lit.
  - vm_compute. reflexivity.
  - right. vm_compute. split; discriminate.
Defined.

(** ** Protocol B: the checksum and the zlib CRC-32 *)

Lemma py_index_nth (l : list Z) (i : Z) :
  0 <= i < Z.of_nat (length l) -> py_index l i = Some (nth (Z.to_nat i) l 0).
Proof.
  intros Hi. destruct (py_index_is_Some l i Hi) as [x Hx]. rewrite Hx. f_equal.
  rewrite py_index_lookup in Hx by lia. symmetry. now apply nth_lookup_Some.
Qed.

Lemma py_index_beyond {A} (l : list A) (i : Z) :
  Z.of_nat (length l) <= i -> py_index l i = None.
Proof.
  intros Hi. rewrite py_index_lookup by lia. apply lookup_ge_None_2. lia.
Qed.

(** A loop whose body raises at one of its indices raises. *)
Lemma foldM_stuck {S A} (f : S -> A -> option S) (pre post : list A) (i : A) :
  (forall st, f st i = None) -> forall st, foldM f st (pre ++ i :: post) = None.
Proof.
  intros Hi st. rewrite foldM_app. destruct (foldM f st pre) as [st' |]; [| reflexivity].
  cbn [foldM]. now rewrite Hi.
Qed.

Lemma foldM_ext_in {S A} (f g : S -> A -> option S) (xs : list A) :
  (forall st x, In x xs -> f st x = g st x) -> forall st, foldM f st xs = foldM g st xs.
Proof.
  induction xs as [| x xs IH]; intros Hfg st; cbn [foldM]; [reflexivity |].
  rewrite Hfg by now left. destruct (g st x); [| reflexivity].
  apply IH. intros st' y Hy. apply Hfg. now right.
Qed.

Lemma land_lxor_byte (o c : Z) :
  0 <= c < 256 -> (o .& 255) .^ c = ((o mod 2 ^ 32) .^ c) .& 255.
Proof.
  intros Hc. apply Z.bits_inj'. intros i Hi.
  rewrite Z.lxor_spec, !Z.land_spec, Z.lxor_spec. change 255 with (Z.ones 8).
  destruct (Z.lt_ge_cases i 8).
  - rewrite Z.ones_spec_low by lia. rewrite !andb_true_r.
    rewrite Z.mod_pow2_bits_low by lia. reflexivity.
  - rewrite Z.ones_spec_high by lia. rewrite !andb_false_r.
    rewrite (testbit_above c 8 i) by (simpl; lia). reflexivity.
Qed.

(** On 32 bits, XOR with [0xFFFFFFFF] is the complement. *)
Lemma lxor_ones_32 (x : Z) : 0 <= x < 2 ^ 32 -> x .^ 0xFFFFFFFF = 2 ^ 32 - 1 - x.
Proof.
  intros Hx.
  assert (Hd : x .& (x .^ 0xFFFFFFFF) = 0).
  { apply Z.bits_inj'. intros i Hi.
    rewrite Z.land_spec, Z.lxor_spec, Z.bits_0. change 0xFFFFFFFF with (Z.ones 32).
    destruct (Z.lt_ge_cases i 32).
    - rewrite Z.ones_spec_low by lia. destruct (Z.testbit x i); reflexivity.
    - rewrite (testbit_above x 32 i) by lia. reflexivity. }
  apply Z.add_nocarry_lxor in Hd.
  rewrite <- Z.lxor_assoc, Z.lxor_nilpotent, Z.lxor_0_l in Hd.
  change (2 ^ 32 - 1) with 0xFFFFFFFF. lia.
Qed.

(** One turn of the loop of [_mrc] is one turn of the CRC-32 of zlib on
    the accumulator taken on 32 bits. *)
Lemma mrc_step_crc (e : pystr) (o n c : Z) :
  py_index e n = Some c -> 0 <= c < 256 ->
  exists o',
    mrc_step e o n = Some o' /\ 0 <= o' < 2 ^ 32 /\
    o' = _MRC_TABLE@(Z.to_nat (((o mod 2 ^ 32) .^ c) .& 255)) .^ ((o mod 2 ^ 32) .>> 8).
Proof.
  intros Ec Hc. unfold mrc_step. rewrite Ec. bind_simpl.
  rewrite (land_lxor_byte o c Hc).
  set (idx := ((o mod 2 ^ 32) .^ c) .& 255).
  assert (Hidx : 0 <= idx < 2 ^ 8) by (apply land_bound; lia).
  destruct mrc_table_words as [Hlen Hall].
  assert (Hin : 0 <= idx < Z.of_nat (length _MRC_TABLE)) by (rewrite Hlen; simpl in *; lia).
  pose proof (py_index_nth _MRC_TABLE idx Hin) as Et.
  pose proof (py_index_Forall _ _ _ _ Hall Et) as Ht. simpl in Ht.
  rewrite Et. bind_simpl.
  destruct (rws_8 o) as [Er Hr]. rewrite Er in *.
  eexists. split; [reflexivity |]. split; [| reflexivity].
  apply lxor_bound; [lia | assumption | lia].
Qed.

Lemma mrc_loop_crc (post l : list Z) : forall (pre : list Z) (o : Z),
  is_bytes l ->
  exists o',
    foldM (mrc_step (pre ++ l ++ post)) o
          (seqZ (Z.of_nat (length pre)) (Z.of_nat (length l))) = Some o' /\
    (l <> [] -> 0 <= o' < 2 ^ 32) /\
    o' mod 2 ^ 32
    = foldl (fun crc b => _MRC_TABLE@(Z.to_nat ((crc .^ b) .& 255)) .^ (crc .>> 8))
            (o mod 2 ^ 32) l.
Proof.
  induction l as [| c l IH]; intros pre o Hl.
  - exists o. split; [reflexivity |]. split; [congruence | reflexivity].
  - inversion Hl as [| ? ? Hc Hl']; subst.
    rewrite seqZ_cons by (simpl length; lia).
    cbn [foldM foldl].
    destruct (mrc_step_crc (pre ++ (c :: l) ++ post) o (Z.of_nat (length pre)) c)
      as (o1 & -> & Ho1 & Eo1); [| assumption |].
    { rewrite py_index_lookup by lia. rewrite Nat2Z.id.
      rewrite lookup_app_r by lia. now rewrite Nat.sub_diag. }
    destruct (IH (pre ++ [c]) o1 Hl') as (o' & E & Hrange & Hval).
    rewrite <- app_assoc in E. cbn [app] in E.
    rewrite length_app in E. simpl length in E.
    simpl length.
    replace (Z.succ (Z.of_nat (length pre))) with (Z.of_nat (length pre + 1)) by lia.
    replace (Z.pred (Z.of_nat (S (length l)))) with (Z.of_nat (length l)) by lia.
    exists o'. split; [exact E |]. split.
    + intros _. destruct l as [| c' l'].
      * simpl in E. injection E as <-. assumption.
      * apply Hrange. discriminate.
    + rewrite Hval. rewrite (Z.mod_small o1) by assumption. now rewrite Eo1.
Qed.

(** X15. [_mrc] is the CRC-32 of zlib on the first 57 characters of its
    argument, with another last step: for a text of at least 57 characters
    whose first 57 are bytes, it answers [crc32] of these 57 bytes, XOR
    [0xEDB88320], minus [2^32]. What follows the 57 characters is not
    read. *)
Theorem mrc_is_crc32 (e : pystr) :
  (57 <= length e)%nat -> is_bytes (take 57 e) ->
  _mrc e = Some ((crc32_std (take 57 e) .^ 0xEDB88320) - 2 ^ 32) /\
  _mrc e = _mrc (take 57 e) /\
  0 <= crc32_std (take 57 e) < 2 ^ 32.
Proof.
  intros Hlen Hbytes.
  assert (Hmain : forall e', (57 <= length e')%nat -> is_bytes (take 57 e') ->
            _mrc e' = Some ((crc32_std (take 57 e') .^ 0xEDB88320) - 2 ^ 32) /\
            0 <= crc32_std (take 57 e') < 2 ^ 32).
  { clear e Hlen Hbytes. intros e Hlen Hbytes.
    destruct (mrc_loop_crc (drop 57 e) (take 57 e) [] (-1) Hbytes) as (acc & E & Hrange & Hval).
    cbn [app length] in E. rewrite take_drop in E.
    rewrite length_take in E. replace (Nat.min 57 (length e)) with 57%nat in E by lia.
    assert (Hacc : 0 <= acc < 2 ^ 32).
    { apply Hrange. intros Hnil. apply (f_equal (@length Z)) in Hnil.
      rewrite length_take in Hnil. cbn [length] in Hnil. lia. }
    rewrite (Z.mod_small acc) in Hval by assumption.
    change ((-1) mod 2 ^ 32) with 0xFFFFFFFF in Hval.
    assert (Hcrc : crc32_std (take 57 e) = acc .^ 0xFFFFFFFF)
      by (unfold crc32_std; now rewrite <- Hval).
    assert (Hc : 0 <= crc32_std (take 57 e) < 2 ^ 32)
      by (rewrite Hcrc; apply lxor_bound; lia).
    split; [| exact Hc].
    unfold _mrc, mrc_acc. change (Z.of_nat 0) with 0 in E. change (Z.of_nat 57) with 57 in E.
    rewrite E. bind_simpl. f_equal.
    destruct (mrc_final acc Hacc) as [-> _].
    rewrite Hcrc, Z.lxor_assoc, (Z.lxor_comm 0xFFFFFFFF), <- Z.lxor_assoc.
    rewrite lxor_ones_32 by (apply lxor_bound; lia). lia. }
  destruct (Hmain e Hlen Hbytes) as [E Hc].
  split; [exact E |]. split; [| exact Hc].
  rewrite E. symmetry.
  assert (Hl : length (take 57 e) = 57%nat) by (rewrite length_take; lia).
  destruct (Hmain (take 57 e)) as [E' _]; [lia | |].
  - rewrite take_ge by lia. assumption.
  - rewrite E'. rewrite (take_ge (take 57 e)) by lia. reflexivity.
Qed.

Lemma mrc_is_crc32_witness :
  _mrc (lit "17000000000000gAGsgMG0g9l1iTbOYZJsYTi0g1lZBVvsBUksgV6Ol53=tail")
  = Some ((crc32_std (take 57 (lit "17000000000000gAGsgMG0g9l1iTbOYZJsYTi0g1lZBVvsBUksgV6Ol53=tail"))
           .^ 0xEDB88320) - 2 ^ 32) /\
  _mrc (lit "17000000000000gAGsgMG0g9l1iTbOYZJsYTi0g1lZBVvsBUksgV6Ol53=tail")
  = _mrc (take 57 (lit "17000000000000gAGsgMG0g9l1iTbOYZJsYTi0g1lZBVvsBUksgV6Ol53=tail")) /\
  0 <= crc32_std (take 57 (lit "17000000000000gAGsgMG0g9l1iTbOYZJsYTi0g1lZBVvsBUksgV6Ol53=tail"))
    < 2 ^ 32.
Proof.
  apply (mrc_is_crc32 (lit "17000000000000gAGsgMG0g9l1iTbOYZJsYTi0g1lZBVvsBUksgV6Ol53=tail")).
  - simpl. lia.
  - apply lit_bytes_check. reflexivity.
Defined.

(** The loop of [_mrc] meets the end of a text of fewer than 57
    characters. *)
Lemma mrc_acc_short (e : pystr) : (length e < 57)%nat -> mrc_acc e = None.
Proof.
  intros Hlen. unfold mrc_acc.
  replace 57 with (Z.of_nat (length e) + (57 - Z.of_nat (length e))) by lia.
  rewrite seqZ_app by lia. rewrite (seqZ_cons _ (57 - Z.of_nat (length e))) by lia.
  apply foldM_stuck.
  intros o. unfold mrc_step. rewrite py_index_beyond by lia. reflexivity.
Qed.

(** X16. [_mrc] raises on every text of fewer than 57 characters, whatever
    they are: its loop runs over the 57 indices with no test of the
    length, and it raises as well when one of the first 57 characters is
    beyond 255 and the table has no entry for it. *)
Theorem mrc_needs_57 (e : pystr) :
  (length e < 57)%nat \/ (exists i c, (i < 57)%nat /\ e !! i = Some c /\ 256 <= c) ->
  _mrc e = None.
Proof.
  intros [Hlen | (i & c & Hi & Ec & Hc)].
  - unfold _mrc. now rewrite mrc_acc_short.
  - unfold _mrc, mrc_acc.
    assert (Hle : (i < length e)%nat) by (apply lookup_lt_is_Some; eauto).
    replace 57 with (Z.of_nat i + (57 - Z.of_nat i)) by lia.
    rewrite seqZ_app by lia. rewrite (seqZ_cons _ (57 - Z.of_nat i)) by lia.
    rewrite foldM_app.
    destruct (foldM (mrc_step e) (-1) (seqZ 0 (Z.of_nat i))) as [o |] eqn:Eo; [| reflexivity].
    cbn [foldM]. unfold mrc_step at 1.
    rewrite py_index_lookup by lia. rewrite Z.add_0_l, Nat2Z.id, Ec. bind_simpl.
    rewrite py_index_beyond; [reflexivity |].
    destruct mrc_table_words as [-> _].
    assert (Hhigh : ((o .& 255) .^ c) .>> 8 = c .>> 8).
    { apply lxor_byte_high. pose proof (land_bound o 255 8 ltac:(lia) ltac:(lia)). lia. }
    assert (Hnn : 0 <= (o .& 255) .^ c).
    { apply Z.lxor_nonneg. pose proof (land_bound o 255 8 ltac:(lia) ltac:(lia)). lia. }
    rewrite !Z.shiftr_div_pow2 in Hhigh by lia. change (2 ^ 8) with 256 in Hhigh.
    assert (0 < c / 256) by (apply Z.div_str_pos; lia).
    change (Z.of_nat 256) with 256.
    pose proof (Z.div_mod ((o .& 255) .^ c) 256 ltac:(lia)).
    pose proof (Z.mod_pos_bound ((o .& 255) .^ c) 256 ltac:(lia)). lia.
Qed.

Lemma mrc_needs_57_witness :
  _mrc (lit "9999999999990gAGsgMG0g9l1iTbOYZJsYTi0g1lZBVvsBUksgV6Ol53") = None.
Proof.
  apply (mrc_needs_57 (lit "9999999999990gAGsgMG0g9l1iTbOYZJsYTi0g1lZBVvsBUksgV6Ol53")).
  left. simpl. lia.
Defined.

(** ** Protocol B: [_xhs_h] and its inverse *)

Lemma xhs_h_indices :
  map Z.of_nat (range_step 0 32 3) = [0; 3; 6; 9; 12; 15; 18; 21; 24; 27; 30].
Proof. reflexivity. Qed.

(** [_xhs_h] reads the first 32 characters only. *)
Lemma xhs_h_take (n : pystr) : _xhs_h n = _xhs_h (take 32 n).
Proof.
  unfold _xhs_h. apply foldM_ext_in. intros m i Hi.
  rewrite xhs_h_indices in Hi.
  assert (Hr : 0 <= i <= 30) by (simpl in Hi; lia).
  assert (Hget : forall j, 0 <= j < 32 -> py_index (take 32 n) j = py_index n j).
  { intros j Hj. rewrite !py_index_lookup by lia. apply lookup_take_lt. lia. }
  unfold xhs_h_step. rewrite (Hget i) by lia.
  destruct (py_index n i) as [o |]; [| reflexivity]. bind_simpl.
  destruct (Z.ltb_spec (i + 1) 32); [rewrite (Hget (i + 1)) by lia |];
    (destruct (Z.ltb_spec (i + 2) 32); [rewrite (Hget (i + 2)) by lia |]); reflexivity.
Qed.

(** X17. [_xhs_h] raises on every text of fewer than 32 characters: it
    reads the indices 0 to 31 with no test of the length. *)
Theorem xhs_h_needs_32 (n : pystr) : (length n < 32)%nat -> _xhs_h n = None.
Proof.
  intros Hlen. unfold _xhs_h. rewrite xhs_h_indices.
  set (q := (length n / 3)%nat).
  assert (Hq : (3 * q <= length n < 3 * q + 3)%nat).
  { unfold q. pose proof (Nat.div_mod_eq (length n) 3) as Hd.
    pose proof (Nat.mod_upper_bound (length n) 3 ltac:(lia)). lia. }
  assert (Hin : In (Z.of_nat (3 * q)) [0; 3; 6; 9; 12; 15; 18; 21; 24; 27; 30]).
  { assert (Hq10 : (q <= 10)%nat) by lia.
    do 11 (destruct q as [| q]; [simpl; tauto |]). lia. }
  apply in_split in Hin as (pre & post & ->).
  apply foldM_stuck. intros m. unfold xhs_h_step.
  set (i := Z.of_nat (3 * q)).
  destruct (Nat.eq_dec (length n) (3 * q)%nat) as [E0 | N0].
  { rewrite (py_index_beyond n i) by lia. reflexivity. }
  destruct (py_index n i) as [o |]; [| reflexivity]. bind_simpl.
  destruct (Z.ltb_spec (i + 1) 32); [| lia].
  destruct (Nat.eq_dec (length n) (3 * q + 1)%nat) as [E1 | N1].
  { rewrite (py_index_beyond n (i + 1)) by lia. reflexivity. }
  destruct (py_index n (i + 1)) as [g |]; [| reflexivity]. bind_simpl.
  destruct (Z.ltb_spec (i + 2) 32); [| lia].
  rewrite (py_index_beyond n (i + 2)) by lia. reflexivity.
Qed.

Lemma xhs_h_needs_32_witness :
  _xhs_h (lit "900150983cd24fb0d6963f7d28e17f7") = None.
Proof. apply (xhs_h_needs_32 (lit "900150983cd24fb0d6963f7d28e17f7")). simpl. lia. Defined.

Lemma quad_decodes_all :
  forallb (fun o => forallb (fun g => forallb (quad_decodes o g) (0 :: hex_chars)) hex_chars)
          hex_chars = true.
Proof. vm_compute. reflexivity. Qed.

Lemma quad_decodes_hex (o g h : Z) :
  is_hex_char o -> is_hex_char g -> is_hex_char h \/ h = 0 -> quad_decodes o g h = true.
Proof.
  intros Ho Hg Hh. pose proof quad_decodes_all as H.
  rewrite forallb_forall in H. specialize (H o (is_hex_char_In o Ho)).
  rewrite forallb_forall in H. specialize (H g (is_hex_char_In g Hg)).
  rewrite forallb_forall in H. apply H.
  destruct Hh as [Hh | ->]; [right; now apply is_hex_char_In | now left].
Qed.

(** What [quad_decodes] checks, on the four characters of a group. *)
Lemma quad_decodes_inv (o g h : Z) (q : pystr) :
  quad_decodes o g h = true -> xhs_h_quad o g h = Some q ->
  exists c1 c2 c3 c4 v x p b,
    q = [c1; c2; c3; c4] /\
    index_of xhs_h_d c1 = Some v /\ index_of xhs_h_d c2 = Some x /\
    index_of xhs_h_d c3 = Some p /\ index_of xhs_h_d c4 = Some b /\
    4 * v + x / 16 = o /\ x mod 16 * 16 + p / 4 = g /\
    (h = 0 -> b = 64) /\ (h <> 0 -> b <> 64 /\ p mod 4 * 64 + b = h).
Proof.
  unfold quad_decodes. intros Hd Eq. rewrite Eq in Hd.
  destruct q as [| c1 [| c2 [| c3 [| c4 [| ? ?]]]]]; try discriminate.
  destruct (index_of xhs_h_d c1) as [v |] eqn:I1; [| discriminate].
  destruct (index_of xhs_h_d c2) as [x |] eqn:I2; [| discriminate].
  destruct (index_of xhs_h_d c3) as [p |] eqn:I3; [| discriminate].
  destruct (index_of xhs_h_d c4) as [b |] eqn:I4; [| discriminate].
  apply andb_true_iff in Hd as [Hd Hh]. apply andb_true_iff in Hd as [Ho Hg].
  apply Z.eqb_eq in Ho, Hg.
  exists c1, c2, c3, c4, v, x, p, b. split; [reflexivity |].
  do 4 (split; [assumption |]). split; [exact Ho |]. split; [exact Hg |]. split.
  - intros ->. change (0 =? 0) with true in Hh. cbv iota in Hh. now apply Z.eqb_eq in Hh.
  - intros Hne. destruct (Z.eqb_spec h 0); [contradiction |].
    apply andb_true_iff in Hh as [Hb Hv].
    apply negb_true_iff in Hb. apply Z.eqb_neq in Hb. apply Z.eqb_eq in Hv.
    split; assumption.
Qed.

Lemma is_hex_char_pos (c : Z) : is_hex_char c -> c <> 0.
Proof. unfold is_hex_char. lia. Qed.

(** The groups of [_xhs_h] from the index [3 k] on decode to the digest
    from its character [3 k] on. *)
Lemma xhs_h_decode_groups (n : pystr) :
  length n = 32%nat -> Forall is_hex_char n ->
  forall d k groups, (k + d = 10)%nat ->
    Forall2 (xhs_h_group n) (map (fun j => Z.of_nat (3 * j)) (seq k (S d))) groups ->
    xhs_h_decode (List.concat groups) = Some (drop (3 * k) n).
Proof.
  intros Hlen Hhex.
  assert (Hget : forall j : nat, (j < 32)%nat ->
            exists c, n !! j = Some c /\ py_index n (Z.of_nat j) = Some c /\ is_hex_char c).
  { intros j Hj. destruct (lookup_lt_is_Some_2 n j) as [c Hc]; [lia |].
    exists c. split; [assumption |].
    split; [rewrite py_index_lookup by lia; now rewrite Nat2Z.id |].
    apply (Forall_lookup_1 _ _ _ _ Hhex Hc). }
  induction d as [| d IH]; intros k groups Hk HF.
  - assert (k = 10)%nat by lia. subst k. cbn [seq map] in HF.
    apply Forall2_cons_inv_l in HF as (q & groups' & Hq & HF' & ->).
    apply Forall2_nil_inv_l in HF' as ->.
    cbn [List.concat]. rewrite app_nil_r.
    destruct Hq as (o & g & h & Eo & Eg & Eh & Eq & _).
    change (Z.of_nat (3 * 10)) with 30 in *.
    change (30 + 1 <? 32) with true in Eg. change (30 + 2 <? 32) with false in Eh.
    cbv iota in Eg, Eh. subst h.
    destruct (Hget 30%nat) as (o' & Lo & Po & Ho); [lia |].
    destruct (Hget 31%nat) as (g' & Lg & Pg & Hg); [lia |].
    change (Z.of_nat 30) with 30 in Po. change (Z.of_nat 31) with 31 in Pg.
    change (30 + 1) with 31 in Eg.
    assert (o' = o) by congruence. assert (g' = g) by congruence. subst o' g'.
    destruct (quad_decodes_inv o g 0 q (quad_decodes_hex o g 0 Ho Hg (or_intror eq_refl)) Eq)
      as (c1 & c2 & c3 & c4 & v & x & p & b & -> & I1 & I2 & I3 & I4 & Vo & Vg & Vb & _).
    cbn [xhs_h_decode]. rewrite I1, I2, I3, I4. bind_simpl. cbv zeta.
    rewrite (Vb eq_refl). change (64 =? 64) with true. cbv iota.
    rewrite Vo, Vg.
    change (3 * 10)%nat with 30%nat.
    rewrite (drop_S n o 30 Lo), (drop_S n g 31 Lg).
    rewrite drop_ge by lia. reflexivity.
  - cbn [seq map] in HF.
    apply Forall2_cons_inv_l in HF as (q & groups' & Hq & HF' & ->).
    specialize (IH (S k) groups' ltac:(lia) HF').
    cbn [List.concat].
    destruct Hq as (o & g & h & Eo & Eg & Eh & Eq & _).
    destruct (Z.ltb_spec (Z.of_nat (3 * k) + 1) 32); [| lia].
    destruct (Z.ltb_spec (Z.of_nat (3 * k) + 2) 32); [| lia].
    destruct (Hget (3 * k)%nat) as (o' & Lo & Po & Ho); [lia |].
    destruct (Hget (3 * k + 1)%nat) as (g' & Lg & Pg & Hg); [lia |].
    destruct (Hget (3 * k + 2)%nat) as (h' & Lh & Ph & Hh); [lia |].
    replace (Z.of_nat (3 * k + 1)) with (Z.of_nat (3 * k) + 1) in Pg by lia.
    replace (Z.of_nat (3 * k + 2)) with (Z.of_nat (3 * k) + 2) in Ph by lia.
    assert (o' = o) by congruence. assert (g' = g) by congruence.
    assert (h' = h) by congruence. subst o' g' h'.
    destruct (quad_decodes_inv o g h q (quad_decodes_hex o g h Ho Hg (or_introl Hh)) Eq)
      as (c1 & c2 & c3 & c4 & v & x & p & b & -> & I1 & I2 & I3 & I4 & Vo & Vg & _ & Vh).
    destruct (Vh (is_hex_char_pos h Hh)) as [Nb Vh'].
    cbn [app xhs_h_decode]. rewrite I1, I2, I3, I4. bind_simpl. cbv zeta.
    destruct (Z.eqb_spec b 64); [contradiction |].
    rewrite IH. bind_simpl. rewrite Vo, Vg, Vh'.
    rewrite (drop_S n o (3 * k) Lo).
    replace (S (3 * k)) with (3 * k + 1)%nat by lia.
    rewrite (drop_S n g (3 * k + 1) Lg).
    replace (S (3 * k + 1)) with (3 * k + 2)%nat by lia.
    rewrite (drop_S n h (3 * k + 2) Lh).
    replace (S (3 * k + 2)) with (3 * S k)%nat by lia. reflexivity.
Qed.

(** X18. [_xhs_h] loses nothing of a digest: on a text that starts with
    32 characters of [0-9a-f] it answers 44 characters that, read back
    four at a time through the table, give these 32 characters. So two
    digests with the same [x-s] are equal, and what follows the 32
    characters is not read. *)
Theorem xhs_h_roundtrip (n : pystr) :
  (32 <= length n)%nat -> Forall is_hex_char (take 32 n) ->
  exists m, _xhs_h n = Some m /\ length m = 44%nat /\
            xhs_h_decode m = Some (take 32 n).
Proof.
  intros Hlen Hhex. rewrite xhs_h_take.
  assert (Hl : length (take 32 n) = 32%nat) by (rewrite length_take; lia).
  destruct (xhs_h_loop (take 32 n) Hl Hhex) as (groups & Hgroups & E).
  destruct (xhs_h_groups_chars _ _ groups Hgroups) as [Hlg _].
  exists (List.concat groups). split; [exact E |]. split; [exact Hlg |].
  rewrite (xhs_h_decode_groups (take 32 n) Hl Hhex 10 0 groups eq_refl Hgroups).
  reflexivity.
Qed.

Lemma xhs_h_roundtrip_witness :
  exists m, _xhs_h (lit "900150983cd24fb0d6963f7d28e17f72") = Some m /\ length m = 44%nat /\
            xhs_h_decode m = Some (take 32 (lit "900150983cd24fb0d6963f7d28e17f72")).
Proof.
  apply (xhs_h_roundtrip (lit "900150983cd24fb0d6963f7d28e17f72")).
  - simpl. lia.
  - apply is_hex_forallb. reflexivity.
Defined.

(** ** Protocol B: the base64 encoder and the UTF-8 encoder *)

Lemma xhs_b64_length (k : nat) : forall (bs : list Z) (s : pystr),
  (length bs <= k)%nat -> _xhs_b64_encode bs = Some s ->
  length s = (4 * ((length bs + 2) / 3))%nat.
Proof.
  induction (lt_wf k) as [k _ IH]. intros bs s Hk E.
  destruct bs as [| a [| b [| c rest]]].
  - injection E as <-. reflexivity.
  - unfold _xhs_b64_encode in E.
    cbn [length Nat.modulo Nat.divmod foldM range_step Nat.sub Nat.add map seq Nat.div
         fst snd Nat.eqb lookup list_lookup] in E.
    cbn [mbind option_bind] in E.
    repeat (apply bind_Some in E as (? & _ & E)). injection E as <-. reflexivity.
  - unfold _xhs_b64_encode in E.
    cbn [length Nat.modulo Nat.divmod foldM range_step Nat.sub Nat.add map seq Nat.div
         fst snd Nat.eqb lookup list_lookup] in E.
    cbn [mbind option_bind] in E.
    repeat (apply bind_Some in E as (? & _ & E)). injection E as <-. reflexivity.
  - rewrite xhs_b64_encode_cons3 in E.
    destruct (triplet _XHS_B64_TABLE (b64_word a b c)) as [t |] eqn:Et; [| discriminate].
    cbn [mbind option_bind] in E.
    destruct (_xhs_b64_encode rest) as [r |] eqn:Er; [| discriminate].
    cbn [mbind option_bind] in E. injection E as <-.
    assert (Ht : length t = 4%nat).
    { unfold triplet in Et.
      repeat (apply bind_Some in Et as (? & _ & Et)). injection Et as <-. reflexivity. }
    rewrite length_app, Ht.
    rewrite (IH (length rest) ltac:(simpl in Hk; lia) rest r (Nat.le_refl _) Er).
    simpl length.
    replace (S (S (S (length rest))) + 2)%nat with (length rest + 2 + 1 * 3)%nat by lia.
    rewrite Nat.div_add by lia. lia.
Qed.

(** X19. [_xhs_b64_encode] never raises on bytes and loses nothing: it
    answers four characters for every three bytes, and reading them back
    through the table gives the bytes. *)
Theorem xhs_b64_encode_roundtrip (bs : list Z) :
  is_bytes bs ->
  exists s, _xhs_b64_encode bs = Some s /\
            length s = (4 * ((length bs + 2) / 3))%nat /\
            xhs_b64_decode s = Some bs.
Proof.
  intros Hbs.
  destruct (xhs_b64_roundtrip (length bs) bs (Nat.le_refl _) Hbs) as (s & E & D).
  exists s. split; [exact E |]. split; [| exact D].
  exact (xhs_b64_length (length bs) bs s (Nat.le_refl _) E).
Qed.

Lemma xhs_b64_encode_roundtrip_witness :
  exists s, _xhs_b64_encode [0; 255; 16; 128] = Some s /\
            length s = (4 * ((length [0; 255; 16; 128] + 2) / 3))%nat /\
            xhs_b64_decode s = Some [0; 255; 16; 128].
Proof.
  apply (xhs_b64_encode_roundtrip [0; 255; 16; 128]). repeat constructor; lia.
Defined.

Lemma utf8_char_bytes (c : Z) (l : list Z) : utf8_char c = Some l -> is_bytes l.
Proof.
  unfold utf8_char.
  assert (Hlow : forall x, 0 <= x .& 0x3F < 256).
  { intros x. pose proof (land_bound x 0x3F 6 ltac:(lia) ltac:(lia)). lia. }
  assert (Hcont : forall x, 0 <= 0x80 .| (x .& 0x3F) < 256).
  { intros x. apply (lor_bound _ _ 8); [lia | lia | apply Hlow]. }
  assert (Hlead : forall m k, 0 <= m < 256 -> 0 <= k -> 0 <= c < 2 ^ (k + 8) ->
                              0 <= m .| (c .>> k) < 256).
  { intros m k Hm Hk Hc. apply (lor_bound _ _ 8); [lia | assumption |].
    rewrite Z.shiftr_div_pow2 by lia. rewrite Z.pow_add_r in Hc by lia.
    assert (0 < 2 ^ k) by (apply Z.pow_pos_nonneg; lia).
    split; [apply Z.div_pos; lia | apply Z.div_lt_upper_bound; lia]. }
  assert (Hall : forall l', Forall (fun x => (exists y, x = 0x80 .| (y .& 0x3F)) \/
                                            0 <= x < 256) l' -> is_bytes l').
  { intros l' H. eapply Forall_impl; [exact H |]. simpl.
    intros x [[y ->] | Hx]; [apply Hcont | exact Hx]. }
  destruct (Z.ltb_spec c 0); [discriminate |].
  destruct (Z.ltb_spec c 0x80).
  { intros [= <-]. apply Hall. constructor; [right; lia | constructor]. }
  destruct (Z.ltb_spec c 0x800).
  { intros [= <-]. apply Hall.
    constructor; [right; apply Hlead; simpl; lia |].
    repeat (constructor; [left; eexists; reflexivity |]). constructor. }
  destruct ((0xD800 <=? c) && (c <=? 0xDFFF)); [discriminate |].
  destruct (Z.ltb_spec c 0x10000).
  { intros [= <-]. apply Hall.
    constructor; [right; apply Hlead; simpl; lia |].
    repeat (constructor; [left; eexists; reflexivity |]). constructor. }
  destruct (Z.ltb_spec c 0x110000); [| discriminate].
  intros [= <-]. apply Hall.
  constructor; [right; apply Hlead; simpl; lia |].
  repeat (constructor; [left; eexists; reflexivity |]). constructor.
Qed.

Lemma str_encode_bytes (s : pystr) (bs : list Z) : str_encode s = Some bs -> is_bytes bs.
Proof.
  unfold str_encode. destruct (mapM utf8_char s) as [l |] eqn:El; [| discriminate].
  intros [= <-]. apply mapM_Some_1 in El.
  induction El as [| c q s l Hc _ IH]; [constructor |].
  cbn [List.concat]. apply Forall_app. split; [| exact IH].
  exact (utf8_char_bytes c q Hc).
Qed.

(** X20. [_encode_utf8] is the UTF-8 encoder: on every text, its way
    through [urllib.parse.quote] and back gives what [str.encode] gives,
    bytes, and it raises on the same texts. *)
Theorem encode_utf8_is_utf8 (e : pystr) :
  _encode_utf8 e = str_encode e /\
  (forall bs, _encode_utf8 e = Some bs -> is_bytes bs) /\
  (encodable e -> exists bs, _encode_utf8 e = Some bs).
Proof.
  assert (E : _encode_utf8 e = str_encode e).
  { unfold _encode_utf8, quote.
    destruct (str_encode e) as [bs |] eqn:Eb; [| reflexivity]. bind_simpl.
    apply percent_walk_quote; [vm_compute; reflexivity |].
    exact (str_encode_bytes e bs Eb). }
  split; [exact E |]. split.
  - intros bs Hbs. rewrite E in Hbs. exact (str_encode_bytes e bs Hbs).
  - intros He. rewrite E. now apply str_encode_total.
Qed.

(** ** Protocol B: the identity generators *)

Lemma crc32_std_range (data : list Z) : 0 <= crc32_std data < 2 ^ 32.
Proof.
  unfold crc32_std.
  assert (Htab : forall i : nat, 0 <= _MRC_TABLE@i < 2 ^ 32).
  { intros i. destruct mrc_table_words as [_ Hall].
    destruct (nth_in_or_default i _MRC_TABLE 0) as [Hin | ->]; [| lia].
    rewrite Forall_forall in Hall. apply Hall, list_elem_of_In, Hin. }
  assert (Hloop : forall l crc, 0 <= crc < 2 ^ 32 ->
            0 <= foldl (fun crc b => _MRC_TABLE@(Z.to_nat ((crc .^ b) .& 255)) .^ (crc .>> 8))
                       crc l < 2 ^ 32).
  { induction l as [| b l IH]; intros crc Hcrc; [exact Hcrc |].
    cbn [foldl]. apply IH. apply lxor_bound; [lia | apply Htab |].
    apply shiftr_bound; lia. }
  apply lxor_bound; [lia | apply Hloop; lia | lia].
Qed.

Lemma In_alnum_check (l : pystr) :
  forallb (fun c => existsb (Z.eqb c) alnum) l = true -> Forall (fun c => In c alnum) l.
Proof.
  intros H. apply Forall_forall. intros c Hc. apply list_elem_of_In in Hc.
  rewrite forallb_forall in H. specialize (H c Hc).
  apply existsb_exists in H as (x & Hx & Ex). apply Z.eqb_eq in Ex. now subst.
Qed.

Lemma hex_lower_alnum (c : Z) : In c hex_lower -> In c alnum.
Proof.
  intros Hc.
  assert (H : Forall (fun c => In c alnum) hex_lower) by (apply In_alnum_check; reflexivity).
  rewrite Forall_forall in H. apply H, list_elem_of_In, Hc.
Qed.

Lemma digit_alnum (c : Z) : 48 <= c <= 57 -> In c alnum.
Proof.
  intros Hc.
  assert (H : Forall (fun c => In c alnum) (seqZ 48 10)) by (apply In_alnum_check; reflexivity).
  rewrite Forall_forall in H. apply H, elem_of_seqZ. lia.
Qed.

(** The digits of [hex(n)] after its ["0x"]. *)
Lemma py_hex_digits (n : Z) :
  0 <= n -> Forall (fun c => In c hex_lower) (drop 2 (py_hex n)).
Proof.
  intros Hn. unfold py_hex. destruct (Z.ltb_spec n 0); [lia |].
  destruct (to_base_digits hex_lower 16 hex_lower_ok eq_refl n Hn)
    as (out & -> & _ & _ & _ & _ & _ & Hall).
  simpl. apply Hall. apply Forall_forall. intros c Hc. exact (proj1 (list_elem_of_In _ _) Hc).
Qed.

(** X21. [get_xhs_cookies] at a clock reading of 11 hexadecimal digits
    (the years 2004 to 2527), with a [crc32] of 32 bits without sign as
    [binascii.crc32] is: the cookie [a1] starts with the 46 characters of
    the clock in hexadecimal, the 30 random characters and ["50000"], goes
    on with 1 to 6 digits of the checksum, and has 47 to 52 characters,
    all letters and digits; [webId] is the MD5 of [a1]. *)
Theorem xhs_cookies_alnum (md5_hex : list Z -> pystr) (crc32 : list Z -> Z)
    (now_ms : Z) (rnd : rng) :
  (forall x, 0 <= crc32 x < 2 ^ 32) -> 16 ^ 10 <= now_ms < 16 ^ 11 ->
  exists a1 d,
    get_xhs_cookies md5_hex crc32 now_ms rnd = Some (a1, md5_hex a1) /\
    d = drop 2 (py_hex now_ms) ++ rand_str rnd 0 30 ++ lit "50000" /\
    length d = 46%nat /\ take 46 a1 = d /\
    (47 <= length a1 <= 52)%nat /\
    Forall (fun c => In c alnum) a1.
Proof.
  intros Hcrc Hnow.
  set (d := drop 2 (py_hex now_ms) ++ rand_str rnd 0 30 ++ lit "50000").
  set (g := take 52 (d ++ py_str (crc32 d))).
  destruct (py_hex_nonneg now_ms ltac:(lia)) as [Hlow Hup].
  specialize (Hlow 10 ltac:(lia) ltac:(lia)). specialize (Hup 11 ltac:(lia) ltac:(lia)).
  change (Z.to_nat 10 + 1)%nat with 11%nat in Hlow. change (Z.to_nat 11) with 11%nat in Hup.
  destruct (rand_str_alnum rnd 0 30) as [Hrl Hra].
  assert (Hdl : length d = 46%nat).
  { unfold d. rewrite !length_app, Hrl. simpl length. lia. }
  destruct (py_str_nonneg (crc32 d) ltac:(apply Hcrc)) as (_ & Hc1 & _ & Hc10 & Hcd).
  specialize (Hc10 10 ltac:(lia) ltac:(pose proof (Hcrc d); lia)).
  change (Z.to_nat 10) with 10%nat in Hc10.
  assert (Hda : Forall (fun c => In c alnum) d).
  { unfold d. apply Forall_app. split.
    - eapply Forall_impl; [apply py_hex_digits; lia |]. apply hex_lower_alnum.
    - apply Forall_app. split; [exact Hra | apply In_alnum_check; reflexivity]. }
  assert (Hga : Forall (fun c => In c alnum) g).
  { unfold g. apply Forall_take, Forall_app. split; [exact Hda |].
    eapply Forall_impl; [exact Hcd |]. apply digit_alnum. }
  assert (Hascii : forall l, Forall (fun c => In c alnum) l -> is_ascii l).
  { intros l Hl. eapply Forall_impl; [exact Hl |]. simpl. intros c Hc.
    assert (Ha : is_ascii alnum) by (apply lit_ascii_check; reflexivity).
    unfold is_ascii in Ha. rewrite Forall_forall in Ha. apply Ha, list_elem_of_In, Hc. }
  exists g, d. split.
  { unfold get_xhs_cookies. fold d. cbv zeta.
    rewrite (str_encode_ascii d (Hascii d Hda)). bind_simpl. fold g.
    rewrite (str_encode_ascii g (Hascii g Hga)). reflexivity. }
  split; [reflexivity |]. split; [exact Hdl |]. split; [| split; [| exact Hga]].
  - unfold g. rewrite take_take. replace (46 `min` 52)%nat with (length d) by lia.
    apply take_app_length.
  - unfold g. rewrite length_take, length_app, Hdl. lia.
Qed.

Lemma xhs_cookies_alnum_witness :
  exists a1 d,
    get_xhs_cookies md5_hexdigest crc32_std 1700000000000 (fun _ => 0)
      = Some (a1, md5_hexdigest a1) /\
    d = drop 2 (py_hex 1700000000000) ++ rand_str (fun _ => 0) 0 30 ++ lit "50000" /\
    length d = 46%nat /\ take 46 a1 = d /\
    (47 <= length a1 <= 52)%nat /\
    Forall (fun c => In c alnum) a1.
Proof.
  apply (xhs_cookies_alnum md5_hexdigest crc32_std 1700000000000 (fun _ => 0)).
  - apply crc32_std_range.
  - lia.
Defined.

(** X22. [get_xhs_search_id] at a clock reading of 13 decimal digits (the
    years 2001 to 2286): the identifier has exactly 21 characters, all of
    [0-9A-Z], and reads in base 36 as the clock shifted by 64 bits plus
    the random draw. *)
Theorem search_id_21_chars (now_ms : Z) (rnd : rng) :
  10 ^ 12 <= now_ms < 10 ^ 13 ->
  exists id,
    get_xhs_search_id now_ms rnd = Some id /\ length id = 21%nat /\
    Forall (fun c => In c base36) id /\
    from_base base36 36 id = Some (now_ms * 2 ^ 64 + uniform_int rnd 0).
Proof.
  intros Hnow. unfold get_xhs_search_id. cbv zeta.
  rewrite Z.shiftl_mul_pow2 by lia.
  pose proof (uniform_int_range rnd 0) as Ht.
  set (num := now_ms * 2 ^ 64 + uniform_int rnd 0).
  assert (H64 : 2 ^ 64 = 18446744073709551616) by reflexivity.
  assert (Hnum : 36 ^ 20 <= num < 36 ^ 21).
  { unfold num. rewrite H64.
    change (36 ^ 20) with 13367494538843734067838845976576.
    change (36 ^ 21) with 481229803398374426442198455156736. lia. }
  destruct (to_base_digits base36 36 base36_ok eq_refl num ltac:(lia))
    as (out & Eout & _ & Edec & _ & Hlow & Hup & Hall).
  specialize (Hlow 20 ltac:(lia) ltac:(lia)). specialize (Hup 21 ltac:(lia) ltac:(lia)).
  change (Z.to_nat 20 + 1)%nat with 21%nat in Hlow. change (Z.to_nat 21) with 21%nat in Hup.
  unfold to_base in Eout. fold base36.
  exists out. split; [destruct (num =? 0); exact Eout |].
  split; [lia |]. split; [| exact Edec].
  apply Hall. apply Forall_forall. intros c Hc. exact (proj1 (list_elem_of_In _ _) Hc).
Qed.

Lemma search_id_21_chars_witness :
  exists id,
    get_xhs_search_id 1700000000000 (fun _ => 7) = Some id /\ length id = 21%nat /\
    Forall (fun c => In c base36) id /\
    from_base base36 36 id = Some (1700000000000 * 2 ^ 64 + uniform_int (fun _ => 7) 0).
Proof. apply (search_id_21_chars 1700000000000 (fun _ => 7)). lia. Defined.

(** X23. [get_xhs_search_id] does not return on a clock reading before
    the epoch: the number is negative, its quotients by 36 stay negative
    and the loop [while num] has no end, whatever the number of turns it
    is given. *)
Theorem search_id_negative_clock (now_ms : Z) (rnd : rng) :
  now_ms < 0 ->
  (now_ms .<< 64) + uniform_int rnd 0 < 0 /\
  (forall fuel result,
     base_loop fuel (lit "0123456789ABCDEFGHIJKLMNOPQRSTUVWXYZ") 36
               ((now_ms .<< 64) + uniform_int rnd 0) result = None) /\
  get_xhs_search_id now_ms rnd = None.
Proof.
  intros Hnow. pose proof (uniform_int_range rnd 0) as Ht.
  assert (Hneg : (now_ms .<< 64) + uniform_int rnd 0 < 0).
  { rewrite Z.shiftl_mul_pow2 by lia.
    assert (H64 : 2 ^ 64 = 18446744073709551616) by reflexivity. rewrite H64. lia. }
  split; [exact Hneg |]. split.
  - intros fuel result. now apply base_loop_negative.
  - unfold get_xhs_search_id. cbv zeta.
    destruct (Z.eqb_spec ((now_ms .<< 64) + uniform_int rnd 0) 0); [lia |].
    now apply base_loop_negative.
Qed.

Lemma search_id_negative_clock_witness :
  ((-1) .<< 64) + uniform_int (fun _ => 0) 0 < 0 /\
  (forall fuel result,
     base_loop fuel (lit "0123456789ABCDEFGHIJKLMNOPQRSTUVWXYZ") 36
               (((-1) .<< 64) + uniform_int (fun _ => 0) 0) result = None) /\
  get_xhs_search_id (-1) (fun _ => 0) = None.
Proof. apply (search_id_negative_clock (-1) (fun _ => 0)). lia. Defined.

(** ** Protocol B: the signer on any request *)

Lemma xhs_h_quad_length (o g h : Z) (q : pystr) :
  xhs_h_quad o g h = Some q -> length q = 4%nat.
Proof.
  unfold xhs_h_quad. cbv zeta. intros H.
  destruct (g =? 0); cbv beta iota in H;
    repeat (apply bind_Some in H as (? & _ & H)); injection H as <-; reflexivity.
Qed.

Lemma foldM_length_step {A B} (f : list B -> A -> option (list B)) (k : nat) (xs : list A) :
  (forall m x m', f m x = Some m' -> length m' = (length m + k)%nat) ->
  forall m m', foldM f m xs = Some m' -> length m' = (length m + k * length xs)%nat.
Proof.
  intros Hf. induction xs as [| x xs IH]; intros m m' E; cbn [foldM] in E.
  - injection E as <-. simpl. lia.
  - destruct (f m x) as [m1 |] eqn:E1; [| discriminate].
    rewrite (IH m1 m' E), (Hf m x m1 E1). simpl length. lia.
Qed.

(** Whatever its argument, [_xhs_h] answers 44 characters when it
    answers. *)
Lemma xhs_h_length (n m : pystr) : _xhs_h n = Some m -> length m = 44%nat.
Proof.
  unfold _xhs_h. intros E.
  apply (foldM_length_step (xhs_h_step n) 4) in E; [exact E |].
  clear. intros m i m' H. unfold xhs_h_step in H.
  repeat (apply bind_Some in H as (? & ? & H)). injection H as <-.
  rewrite length_app. f_equal. eapply xhs_h_quad_length. eassumption.
Qed.

Lemma py_str_neg (n : Z) : n < 0 -> py_str n = 45 :: py_str (- n).
Proof.
  intros Hn. unfold py_str.
  destruct (Z.ltb_spec n 0); [| lia]. destruct (Z.ltb_spec (- n) 0); [lia |]. reflexivity.
Qed.

Lemma py_str_short (T : Z) : - 10 ^ 11 < T < 10 ^ 12 -> (length (py_str T) <= 12)%nat.
Proof.
  intros HT. destruct (Z.lt_ge_cases T 0) as [Hneg | Hpos].
  - rewrite py_str_neg by assumption. simpl length.
    destruct (py_str_nonneg (- T) ltac:(lia)) as (_ & _ & _ & Hup & _).
    specialize (Hup 11 ltac:(lia) ltac:(lia)). change (Z.to_nat 11) with 11%nat in Hup. lia.
  - destruct (py_str_nonneg T Hpos) as (_ & _ & _ & Hup & _).
    specialize (Hup 12 ltac:(lia) ltac:(lia)). change (Z.to_nat 12) with 12%nat in Hup. lia.
Qed.

(** X24. [sign_xiaohongshu] raises at every clock reading of fewer than 13
    characters, that is before 2001-09-09, whatever the request, the
    cookies and the MD5 function: [x_t + x_s] then has fewer than the 57
    characters that [_mrc] reads. *)
Theorem sign_xiaohongshu_needs_13_digits (md5_hex : list Z -> pystr) (T : Z)
    (uri : pystr) (data : option jdict) (a1 b1 : pystr) :
  - 10 ^ 11 < T < 10 ^ 12 ->
  sign_xiaohongshu md5_hex T uri data a1 b1 = None.
Proof.
  intros HT. unfold sign_xiaohongshu. cbv zeta.
  destruct (str_encode _) as [rawb |]; [| reflexivity]. bind_simpl.
  destruct (_xhs_h (md5_hex rawb)) as [x_s |] eqn:Ex; [| reflexivity]. bind_simpl.
  unfold _mrc. rewrite mrc_acc_short; [reflexivity |].
  rewrite length_app, (xhs_h_length _ _ Ex).
  pose proof (py_str_short T HT). lia.
Qed.

Lemma sign_xiaohongshu_needs_13_digits_witness :
  sign_xiaohongshu md5_hexdigest 0 comment_page_uri None (lit "a1") [] = None.
Proof.
  apply (sign_xiaohongshu_needs_13_digits md5_hexdigest 0 comment_page_uri None (lit "a1") []).
  lia.
Defined.

Lemma json_escape_plain_raw (s : pystr) : plain s -> flat_map (json_escape_char false) s = s.
Proof.
  induction 1 as [| c s [Hc [H34 H92]] _ IH]; [reflexivity |].
  cbn [flat_map]. rewrite IH. unfold json_escape_char.
  destruct (Z.eqb_spec c 34); [lia |]. destruct (Z.eqb_spec c 92); [lia |].
  destruct (Z.eqb_spec c 10); [lia |]. destruct (Z.eqb_spec c 13); [lia |].
  destruct (Z.eqb_spec c 9); [lia |]. destruct (Z.eqb_spec c 8); [lia |].
  destruct (Z.eqb_spec c 12); [lia |]. destruct (Z.ltb_spec c 32); [lia |].
  reflexivity.
Qed.

(** On a record that needs no escape, [ensure_ascii] changes nothing. *)
Lemma json_dumps_plain_raw (d : jdict) : plain_dict d -> json_dumps false d = json_dumps true d.
Proof.
  intros Hd.
  assert (Hmap : map (json_member false) d = map (json_member true) d).
  { induction Hd as [| [k v] d [Hk Hv] _ IH]; [reflexivity |].
    cbn [map]. rewrite IH. f_equal.
    unfold json_member, json_string. cbn [fst snd] in *.
    rewrite json_escape_plain_raw, json_escape_plain by assumption. do 2 f_equal.
    destruct v as [n | s]; [reflexivity |]. cbn [json_value]. unfold json_string.
    simpl in Hv. now rewrite json_escape_plain_raw, json_escape_plain. }
  unfold json_dumps. now rewrite Hmap.
Qed.

Lemma xhs_common_plain (a1 b1 x_t x_s : pystr) (x9 : Z) :
  plain a1 -> plain b1 -> plain x_t -> plain x_s ->
  plain_dict (xhs_common a1 b1 x_t x_s x9).
Proof.
  intros Ha1 Hb1 Hxt Hxs. unfold xhs_common.
  repeat (constructor; [split; [apply plain_check; reflexivity |] |]);
    try exact I; try (simpl; assumption);
    try (simpl; apply plain_check; reflexivity).
  constructor.
Qed.

Section Signer.
Variable md5_hex : list Z -> pystr.
Hypothesis Hshape : md5_shape md5_hex.

(** The signer at a clock reading of at least 13 digits: its three
    values, the digest behind [x-s] and the record behind [x-s-common]. *)
Lemma sign_xiaohongshu_common (T : Z) (uri : pystr) (data : option jdict) (a1 b1 : pystr) :
  10 ^ 12 <= T -> is_ascii uri ->
  match data with Some d => plain_dict d | None => True end ->
  plain a1 -> plain b1 ->
  exists x_s x9 x_s_common text,
    sign_xiaohongshu md5_hex T uri data a1 b1
      = Some [("x-s", x_s); ("x-t", py_str T); ("x-s-common", x_s_common)]%string /\
    length x_s = 44%nat /\
    xhs_h_decode x_s
      = Some (md5_hex (py_str T ++ lit "test" ++ uri
                         ++ match data with Some d => json_dumps false d | None => [] end)) /\
    _mrc (py_str T ++ x_s) = Some x9 /\
    xhs_b64_decode x_s_common = Some text /\
    json_loads text = Some (xhs_common a1 b1 (py_str T) x_s x9).
Proof using Hshape.
  intros HT Huri Hdata Ha1 Hb1. unfold sign_xiaohongshu. cbv zeta.
  destruct (py_str_nonneg T ltac:(lia)) as (_ & _ & Hlow & _ & Hdigits).
  specialize (Hlow 12 ltac:(lia) HT). change (Z.to_nat 12 + 1)%nat with 13%nat in Hlow.
  set (body := match data with Some d => json_dumps false d | None => [] end).
  assert (Hbody : is_ascii body).
  { unfold body. destruct data as [d |]; [| constructor].
    rewrite json_dumps_plain_raw by assumption. now apply json_dumps_ascii. }
  rewrite str_encode_ascii.
  2:{ apply Forall_app. split; [apply py_str_ascii |].
      apply Forall_app. split; [apply lit_ascii_check; reflexivity |].
      apply Forall_app. split; assumption. }
  bind_simpl. set (raw := py_str T ++ lit "test" ++ uri ++ body).
  destruct (Hshape raw) as [Hlen Hhex].
  destruct (xhs_h_loop (md5_hex raw) Hlen Hhex) as (groups & Hgroups & Exs).
  destruct (xhs_h_groups_chars _ _ groups Hgroups) as [Hxs Hin].
  pose proof (xhs_h_decode_groups (md5_hex raw) Hlen Hhex 10 0 groups eq_refl Hgroups) as Hdec.
  set (x_s := List.concat groups) in *.
  rewrite Exs. bind_simpl.
  assert (Hxt : plain (py_str T)) by now apply digits_plain.
  assert (Hxsp : plain x_s) by now apply xhs_h_d_plain.
  destruct (mrc_acc_word (py_str T ++ x_s)) as (acc & Eacc & _).
  { eapply Forall_impl; [apply Forall_app; split; [apply plain_ascii, Hxt
                                                 | apply plain_ascii, Hxsp] |].
    simpl. intros; lia. }
  { rewrite length_app. simpl in Hxs. lia. }
  unfold _mrc. rewrite Eacc. bind_simpl.
  set (x9 := acc .^ (-1) .^ 3988292384).
  fold (xhs_common a1 b1 (py_str T) x_s x9).
  pose proof (xhs_common_plain a1 b1 (py_str T) x_s x9 Ha1 Hb1 Hxt Hxsp) as Hcommon.
  pose proof (json_dumps_ascii _ Hcommon) as Hascii.
  rewrite (encode_utf8_ascii _ Hascii). bind_simpl.
  destruct (xhs_b64_roundtrip (length (json_dumps true (xhs_common a1 b1 (py_str T) x_s x9)))
              (json_dumps true (xhs_common a1 b1 (py_str T) x_s x9))
              (Nat.le_refl _)) as (xsc & -> & Hb64).
  { eapply Forall_impl; [exact Hascii |]. simpl. intros; lia. }
  bind_simpl.
  exists x_s, x9, xsc, (json_dumps true (xhs_common a1 b1 (py_str T) x_s x9)).
  split; [reflexivity |]. split; [exact Hxs |]. split; [exact Hdec |].
  split; [unfold _mrc; rewrite Eacc; reflexivity |]. split; [exact Hb64 |].
  apply json_roundtrip, Hcommon.
Qed.

End Signer.

(** X25. [sign_xiaohongshu] at a clock reading [T] of at least 13 digits,
    on any ASCII path, with no body or a flat body of integers and of
    strings that need no escape, and cookies that need none: it answers
    [x-t = str(T)]; an [x-s] of 44 characters that decodes to the MD5 of
    [str(T) + "test" + uri + body], the body in compact JSON; and an
    [x-s-common] that decodes to the thirteen fields of the record, with
    the cookies as [x5] and [x8] and [_mrc(x_t + x_s)] as [x9]. *)
Theorem sign_xiaohongshu_any_request (md5_hex : list Z -> pystr) (T : Z)
    (uri : pystr) (data : option jdict) (a1 b1 : pystr) :
  md5_shape md5_hex -> 10 ^ 12 <= T -> is_ascii uri ->
  match data with Some d => plain_dict d | None => True end ->
  plain a1 -> plain b1 ->
  exists x_s x9 x_s_common text,
    sign_xiaohongshu md5_hex T uri data a1 b1
      = Some [("x-s", x_s); ("x-t", py_str T); ("x-s-common", x_s_common)]%string /\
    length x_s = 44%nat /\
    xhs_h_decode x_s
      = Some (md5_hex (py_str T ++ lit "test" ++ uri
                         ++ match data with Some d => json_dumps false d | None => [] end)) /\
    _mrc (py_str T ++ x_s) = Some x9 /\
    xhs_b64_decode x_s_common = Some text /\
    json_loads text = Some (xhs_common a1 b1 (py_str T) x_s x9) /\
    jdict_get (xhs_common a1 b1 (py_str T) x_s x9) (lit "x5") = Some (JStr a1) /\
    jdict_get (xhs_common a1 b1 (py_str T) x_s x9) (lit "x8") = Some (JStr b1) /\
    jdict_get (xhs_common a1 b1 (py_str T) x_s x9) (lit "x9") = Some (JInt x9).
Proof.
  intros Hshape HT Huri Hdata Ha1 Hb1.
  destruct (sign_xiaohongshu_common md5_hex Hshape T uri data a1 b1 HT Huri Hdata Ha1 Hb1)
    as (x_s & x9 & xsc & text & E & Hlen & Hdec & Hmrc & Hb64 & Hjson).
  exists x_s, x9, xsc, text. repeat split; assumption || reflexivity.
Qed.

Lemma sign_xiaohongshu_any_request_witness :
  exists x_s x9 x_s_common text,
    sign_xiaohongshu md5_hexdigest 1700000000000 (lit "/api/sns/web/v1/search/notes")
      (Some [(lit "keyword", JStr (lit "cat")); (lit "page", JInt 1)]) (lit "18bcfe56800") []
      = Some [("x-s", x_s); ("x-t", py_str 1700000000000); ("x-s-common", x_s_common)]%string /\
    length x_s = 44%nat /\
    xhs_h_decode x_s
      = Some (md5_hexdigest
                (py_str 1700000000000 ++ lit "test" ++ lit "/api/sns/web/v1/search/notes"
                   ++ json_dumps false [(lit "keyword", JStr (lit "cat")); (lit "page", JInt 1)])) /\
    _mrc (py_str 1700000000000 ++ x_s) = Some x9 /\
    xhs_b64_decode x_s_common = Some text /\
    json_loads text
      = Some (xhs_common (lit "18bcfe56800") [] (py_str 1700000000000) x_s x9) /\
    jdict_get (xhs_common (lit "18bcfe56800") [] (py_str 1700000000000) x_s x9) (lit "x5")
      = Some (JStr (lit "18bcfe56800")) /\
    jdict_get (xhs_common (lit "18bcfe56800") [] (py_str 1700000000000) x_s x9) (lit "x8")
      = Some (JStr []) /\
    jdict_get (xhs_common (lit "18bcfe56800") [] (py_str 1700000000000) x_s x9) (lit "x9")
      = Some (JInt x9).
Proof.
  apply (sign_xiaohongshu_any_request md5_hexdigest 1700000000000
           (lit "/api/sns/web/v1/search/notes")
           (Some [(lit "keyword", JStr (lit "cat")); (lit "page", JInt 1)])
           (lit "18bcfe56800") []).
  - apply md5_hexdigest_shape.
  - lia.
  - apply lit_ascii_check. reflexivity.
  - repeat (constructor; [split; [apply plain_check; reflexivity |] |]);
      try exact I; try (simpl; apply plain_check; reflexivity).
    constructor.
  - apply plain_check. reflexivity.
  - constructor.
Defined.

Lemma hex_lower_plain (s : pystr) : Forall (fun c => In c hex_lower) s -> plain s.
Proof.
  intros H. eapply Forall_impl; [exact H |]. simpl. intros c Hc.
  assert (Hd : plain hex_lower) by (apply plain_check; reflexivity).
  unfold plain in Hd. rewrite Forall_forall in Hd. apply Hd, list_elem_of_In, Hc.
Qed.

Lemma alnum_plain (s : pystr) : Forall (fun c => In c alnum) s -> plain s.
Proof.
  intros H. eapply Forall_impl; [exact H |]. simpl. intros c Hc.
  assert (Hd : plain alnum) by (apply plain_check; reflexivity).
  unfold plain in Hd. rewrite Forall_forall in Hd. apply Hd, list_elem_of_In, Hc.
Qed.

Lemma py_str_plain (n : Z) : plain (py_str n).
Proof.
  destruct (py_str_shape n) as (ds & Hds & _ & _ & ->).
  destruct (n <? 0); [constructor; [unfold plain_char; lia |] |]; now apply digits_plain.
Qed.

(** X26. What [fetch_comments] of clawkit does before its request: the
    cookie [a1] that [get_xhs_cookies] makes, at any clock reading from
    the epoch on and with any [crc32], is always one that
    [sign_xiaohongshu] takes, at a clock reading of at least 13 digits; the
    three headers are there and the record behind [x-s-common] carries the
    cookie as its field [x5] and the empty [b1] as [x8]. *)
Theorem fetch_comments_headers (md5_hex : list Z -> pystr) (crc32 : list Z -> Z)
    (T1 T2 : Z) (rnd : rng) :
  md5_shape md5_hex -> 0 <= T1 -> 10 ^ 12 <= T2 ->
  exists a1 web_id x_s x9 x_s_common text,
    get_xhs_cookies md5_hex crc32 T1 rnd = Some (a1, web_id) /\
    web_id = md5_hex a1 /\
    sign_xiaohongshu md5_hex T2 comment_page_uri None a1 []
      = Some [("x-s", x_s); ("x-t", py_str T2); ("x-s-common", x_s_common)]%string /\
    xhs_b64_decode x_s_common = Some text /\
    json_loads text = Some (xhs_common a1 [] (py_str T2) x_s x9) /\
    jdict_get (xhs_common a1 [] (py_str T2) x_s x9) (lit "x5") = Some (JStr a1) /\
    jdict_get (xhs_common a1 [] (py_str T2) x_s x9) (lit "x8") = Some (JStr []).
Proof.
  intros Hshape HT1 HT2.
  set (d := drop 2 (py_hex T1) ++ rand_str rnd 0 30 ++ lit "50000").
  set (g := take 52 (d ++ py_str (crc32 d))).
  assert (Hd : plain d).
  { unfold d. apply Forall_app. split; [apply hex_lower_plain, py_hex_digits, HT1 |].
    apply Forall_app. split; [| apply plain_check; reflexivity].
    apply alnum_plain. apply (rand_str_alnum rnd 0 30). }
  assert (Hg : plain g).
  { unfold g. apply Forall_take, Forall_app. split; [exact Hd | apply py_str_plain]. }
  destruct (sign_xiaohongshu_common md5_hex Hshape T2 comment_page_uri None g [] HT2)
    as (x_s & x9 & xsc & text & E & _ & _ & _ & Hb64 & Hjson);
    [apply lit_ascii_check; reflexivity | exact I | exact Hg | constructor |].
  exists g, (md5_hex g), x_s, x9, xsc, text. split.
  { unfold get_xhs_cookies. fold d. cbv zeta.
    rewrite (str_encode_ascii d (plain_ascii d Hd)). bind_simpl. fold g.
    rewrite (str_encode_ascii g (plain_ascii g Hg)). reflexivity. }
  repeat split; assumption || reflexivity.
Qed.

Lemma fetch_comments_headers_witness :
  exists a1 web_id x_s x9 x_s_common text,
    get_xhs_cookies md5_hexdigest crc32_std 1700000000000 (fun _ => 0) = Some (a1, web_id) /\
    web_id = md5_hexdigest a1 /\
    sign_xiaohongshu md5_hexdigest 1700000000003 comment_page_uri None a1 []
      = Some [("x-s", x_s); ("x-t", py_str 1700000000003); ("x-s-common", x_s_common)]%string /\
    xhs_b64_decode x_s_common = Some text /\
    json_loads text = Some (xhs_common a1 [] (py_str 1700000000003) x_s x9) /\
    jdict_get (xhs_common a1 [] (py_str 1700000000003) x_s x9) (lit "x5") = Some (JStr a1) /\
    jdict_get (xhs_common a1 [] (py_str 1700000000003) x_s x9) (lit "x8") = Some (JStr []).
Proof.
  apply (fetch_comments_headers md5_hexdigest crc32_std 1700000000000 1700000000003
           (fun _ => 0)).
  - apply md5_hexdigest_shape.
  - lia.
  - lia.
Defined.
